(** * haptic_sdk: byte buffering, status framing, line protocol and state
    accumulation, embedded from the Python sources.

    Conventions of the embedding.
    - [bytes] and [bytearray] values are [list byte]; a Python [int] is a
      [Z].
    - A line of the ASCII protocol is a [string], worked on as the list of
      its characters, which are read as code points below 256.  Text decoded
      from bytes (a status payload) is the list of its code points.
    - A [float] is a finite rational, an infinity or a NaN.  Comparisons
      are the IEEE ones.  Arithmetic on finite values is exact: the
      rounding of a result to the nearest float and the sign of zero are
      not represented.  An [int] too large for a float raises
      [OverflowError] where it is converted or divided.
    - A [dict] that is only looked up is a [gmap]; a [dict] that is iterated
      is the list of its items in insertion order.
    - Mutation of [self] is explicit state passing, an exception is a
      [Raise] result, and a reading of the clock is a parameter.  A method
      that mutates [self] before it can raise is the state it leaves
      together with the exception. *)

From Stdlib Require Import ZArith QArith Qabs Qminmax List Ascii String Bool Lia.
From Stdlib Require Import DecimalString.
From Stdlib.Strings Require Import Byte.
From stdpp Require Import gmap strings list.

Local Open Scope Z_scope.

(* ===================================================================== *)
(** * Part I: definitions                                                 *)
(* ===================================================================== *)

(** ** Python sequence helpers *)

(** Normalisation of a slice bound [i] against a sequence of length [len]:
    negative bounds count from the end, and the result is clipped to
    [0 .. len]. *)
Definition slice_index (i : Z) (len : nat) : nat :=
  let n := Z.of_nat len in
  Z.to_nat (if i <? 0 then Z.max (i + n) 0 else Z.min i n).

(** [l[i:]] *)
Definition slice_from {A} (i : Z) (l : list A) : list A :=
  drop (slice_index i (length l)) l.

(** [l[:j]] *)
Definition slice_to {A} (j : Z) (l : list A) : list A :=
  take (slice_index j (length l)) l.

(** [del l[:j]] leaves [l[j:]]. *)
Definition del_to {A} (j : Z) (l : list A) : list A :=
  drop (slice_index j (length l)) l.

Definition byte_eqb (a b : byte) : bool := Byte.eqb a b.
Arguments byte_eqb : simpl never.

Fixpoint starts_with (sub l : list byte) : bool :=
  match sub, l with
  | [], _ => true
  | _ :: _, [] => false
  | a :: sub', b :: l' => byte_eqb a b && starts_with sub' l'
  end.

(** Scan for the first position at which [sub] begins, counting from [i]. *)
Fixpoint find_at (sub l : list byte) (i : Z) : Z :=
  if starts_with sub l then i
  else match l with
       | [] => -1
       | _ :: l' => find_at sub l' (i + 1)
       end.

(** [l.find(sub, start)] for a non-empty [sub] and [0 <= start]. *)
Definition bytes_find (sub l : list byte) (start : Z) : Z :=
  find_at sub (drop (Z.to_nat start) l) start.

(** ** sdk/dongle/buffer.py *)

Module StreamBuffer.

Record t := mk
  { max_size : Z;
    buffer : list byte;
    overflow_count : Z }.

(** [__init__] *)
Definition init (max_size : Z) : t :=
  {| max_size := max_size; buffer := []; overflow_count := 0 |}.

Definition newline : list byte := [x0a].

(** [write] *)
Definition write (data : list byte) (b : t) : t :=
  match data with
  | [] => b
  | _ :: _ =>
      if Z.of_nat (length data) >=? max_size b then
        {| max_size := max_size b;
           buffer := slice_from (- max_size b) data;
           overflow_count := overflow_count b + 1 |}
      else
        let current_len := Z.of_nat (length (buffer b)) in
        let new_len := current_len + Z.of_nat (length data) in
        if new_len >? max_size b then
          let drop_count := new_len - max_size b in
          {| max_size := max_size b;
             buffer := del_to drop_count (buffer b) ++ data;
             overflow_count := overflow_count b + 1 |}
        else
          {| max_size := max_size b;
             buffer := buffer b ++ data;
             overflow_count := overflow_count b |}
  end.

Definition with_buffer (buf : list byte) (b : t) : t :=
  {| max_size := max_size b; buffer := buf;
     overflow_count := overflow_count b |}.

(** [read]: the bytes returned and the buffer afterwards. *)
Definition read (size : Z) (b : t) : list byte * t :=
  match buffer b with
  | [] => ([], b)
  | _ :: _ =>
      if (size <? 0) || (size >=? Z.of_nat (length (buffer b))) then
        (buffer b, with_buffer [] b)
      else
        (slice_to size (buffer b), with_buffer (del_to size (buffer b)) b)
  end.

(** [read_line] *)
Definition read_line (b : t) : list byte * t :=
  let idx := bytes_find newline (buffer b) 0 in
  if idx =? -1 then ([], b)
  else
    let end_ := idx + 1 in
    (slice_to end_ (buffer b), with_buffer (del_to end_ (buffer b)) b).

(** [size] *)
Definition size (b : t) : Z := Z.of_nat (length (buffer b)).

(** [clear] *)
Definition clear (b : t) : t := with_buffer [] b.

(** A call of one of the mutating methods. *)
Inductive op :=
| Write (data : list byte)
| Read (size : Z)
| ReadLine
| Clear.

Definition step (o : op) (b : t) : t :=
  match o with
  | Write data => write data b
  | Read n => snd (read n b)
  | ReadLine => snd (read_line b)
  | Clear => clear b
  end.

Definition run (ops : list op) (b : t) : t :=
  fold_left (fun b o => step o b) ops b.

End StreamBuffer.


(** ** The write contract of the specification, as a relation between the
    buffer before and after [write data]. *)

Definition write_contract (b : StreamBuffer.t) (data : list byte)
    (b' : StreamBuffer.t) : Prop :=
  let C := StreamBuffer.max_size b in
  let cur := Z.of_nat (length (StreamBuffer.buffer b)) in
  let inc := Z.of_nat (length data) in
  let buf' := StreamBuffer.buffer b' in
  let ovf := StreamBuffer.overflow_count b in
  let ovf' := StreamBuffer.overflow_count b' in
  StreamBuffer.max_size b' = C /\
  (inc = 0 -> b' = b) /\
  (0 < inc -> C <= inc ->
     (exists older, data = older ++ buf' /\ Z.of_nat (length buf') = C) /\
     ovf' = ovf + 1) /\
  (0 < inc -> inc < C -> C < cur + inc ->
     (exists dropped kept,
        StreamBuffer.buffer b = dropped ++ kept /\
        Z.of_nat (length dropped) = cur + inc - C /\
        buf' = kept ++ data) /\
     ovf' = ovf + 1) /\
  (0 < inc -> inc < C -> cur + inc <= C ->
     buf' = StreamBuffer.buffer b ++ data /\ ovf' = ovf).

(** ** Exceptions *)

Inductive exn :=
| KeyError | ValueError | OverflowError | ZeroDivisionError | AttributeError.

Inductive result (A : Type) :=
| Ok (a : A)
| Raise (e : exn).
Arguments Ok {A} a.
Arguments Raise {A} e.

#[global] Instance result_ret : MRet result := fun _ a => Ok a.
#[global] Instance result_bind : MBind result := fun _ _ f m =>
  match m with Ok a => f a | Raise e => Raise e end.

(** ** Python floats

    A float is a finite value, an infinity or a NaN.  Finite values are kept
    as rationals: comparisons are the IEEE comparisons (every comparison with
    a NaN is false), while [-], [/] on finite values are the exact rational
    operations, so the rounding of a result to the nearest float and the
    sign of zero are not represented.  What is represented is where the
    arithmetic raises: the [OverflowError] of an [int] too large for a
    float, in a conversion or in a true division, and the
    [ZeroDivisionError] of a zero divisor. *)

Inductive pyfloat :=
| Fin (q : Q)
| PosInf
| NegInf
| NaN.

(** The value of an [int], as what a float is compared with: a comparison
    of a [float] with an [int] compares the two values exactly, converts
    nothing and never raises. *)
Definition of_int (z : Z) : pyfloat := Fin (inject_Z z).

(** The least magnitude too large for a float: halfway between the largest
    float, [2^1024 - 2^971], and [2^1024].  An [int] from here on has no
    nearest float. *)
Definition INT_TOO_LARGE : Z := 2 ^ 1024 - 2 ^ 970.

(** [float(z)], which is also how the [int] operand of an operation with a
    [float] is converted: an [int] without a nearest float raises
    [OverflowError]. *)
Definition float_of_int (z : Z) : result pyfloat :=
  if Z.abs z <? INT_TOO_LARGE then Ok (Fin (inject_Z z))
  else Raise OverflowError.

Definition Qlt_bool (x y : Q) : bool := negb (Qle_bool y x).

(** [a < b] *)
Definition pf_ltb (a b : pyfloat) : bool :=
  match a, b with
  | NaN, _ | _, NaN => false
  | Fin x, Fin y => Qlt_bool x y
  | NegInf, NegInf => false
  | NegInf, _ => true
  | _, NegInf => false
  | PosInf, _ => false
  | Fin _, PosInf => true
  end.

(** [a > b] *)
Definition pf_gtb (a b : pyfloat) : bool := pf_ltb b a.

(** [min(a, b)]: the first argument is kept unless the second is smaller. *)
Definition py_min (a b : pyfloat) : pyfloat := if pf_ltb b a then b else a.

(** [max(a, b)]: the first argument is kept unless the second is larger. *)
Definition py_max (a b : pyfloat) : pyfloat := if pf_gtb b a then b else a.

(** [a - b] *)
Definition pf_sub (a b : pyfloat) : pyfloat :=
  match a, b with
  | NaN, _ | _, NaN => NaN
  | Fin x, Fin y => Fin (Qred (x - y))
  | PosInf, PosInf | NegInf, NegInf => NaN
  | PosInf, _ | _, NegInf => PosInf
  | NegInf, _ | _, PosInf => NegInf
  end.

Definition Qis_zero (x : Q) : bool := Qeq_bool x 0.

(** [a / b]; a zero divisor raises [ZeroDivisionError]. *)
Definition pf_truediv (a b : pyfloat) : result pyfloat :=
  match b with
  | Fin y =>
      if Qis_zero y then Raise ZeroDivisionError
      else Ok match a with
              | Fin x => Fin (Qred (x / y))
              | NaN => NaN
              | PosInf => if Qlt_bool y 0 then NegInf else PosInf
              | NegInf => if Qlt_bool y 0 then PosInf else NegInf
              end
  | NaN => Ok NaN
  | PosInf | NegInf =>
      Ok match a with
         | Fin _ => Fin 0
         | _ => NaN
         end
  end.

(** Truncation of a rational toward zero. *)
Definition Qtrunc (q : Q) : Z := Z.quot (Qnum q) (Zpos (Qden q)).

(** [int(a)] *)
Definition py_int (a : pyfloat) : result Z :=
  match a with
  | Fin q => Ok (Qtrunc q)
  | PosInf | NegInf => Raise OverflowError
  | NaN => Raise ValueError
  end.

(** *** Numbers that are an [int] or a [float]

    [min] and [max] return one of their arguments as it is, so a value
    clamped between a [float] and an [int] is the one or the other, and
    the arithmetic that follows depends on which. *)

Inductive number :=
| PyInt (z : Z)
| PyFloat (f : pyfloat).

Definition num_value (a : number) : pyfloat :=
  match a with
  | PyInt z => of_int z
  | PyFloat f => f
  end.

(** [a < b] *)
Definition num_ltb (a b : number) : bool := pf_ltb (num_value a) (num_value b).

(** [a > b] *)
Definition num_gtb (a b : number) : bool := num_ltb b a.

(** [min(a, b)] *)
Definition num_min (a b : number) : number := if num_ltb b a then b else a.

(** [max(a, b)] *)
Definition num_max (a b : number) : number := if num_gtb b a then b else a.

(** [int(a)] *)
Definition num_int (a : number) : result Z :=
  match a with
  | PyInt z => Ok z
  | PyFloat f => py_int f
  end.

(** [a - b]: exact on two [int]s; otherwise the [int] operand is converted
    and the floats are subtracted. *)
Definition num_sub (a b : number) : result number :=
  match a, b with
  | PyInt x, PyInt y => Ok (PyInt (x - y))
  | PyInt x, PyFloat g => f ← float_of_int x; Ok (PyFloat (pf_sub f g))
  | PyFloat f, PyInt y => g ← float_of_int y; Ok (PyFloat (pf_sub f g))
  | PyFloat f, PyFloat g => Ok (PyFloat (pf_sub f g))
  end.

(** [a / b] on two [int]s: the float nearest to the quotient; a zero
    divisor raises [ZeroDivisionError], a quotient without a nearest float
    raises [OverflowError]. *)
Definition int_truediv (a b : Z) : result pyfloat :=
  if b =? 0 then Raise ZeroDivisionError
  else if INT_TOO_LARGE * Z.abs b <=? Z.abs a then Raise OverflowError
  else Ok (Fin (Qred (inject_Z a / inject_Z b))).

(** [a / b]: the division of two [int]s, or else the division of the
    floats after the [int] operand has been converted. *)
Definition num_truediv (a b : number) : result pyfloat :=
  match a, b with
  | PyInt x, PyInt y => int_truediv x y
  | PyInt x, PyFloat g => f ← float_of_int x; pf_truediv f g
  | PyFloat f, PyInt y => g ← float_of_int y; pf_truediv f g
  | PyFloat f, PyFloat g => pf_truediv f g
  end.

(** [max(0.0, min(1.0, value))] *)
Definition clamp01 (value : pyfloat) : pyfloat :=
  py_max (Fin 0) (py_min (Fin 1) value).

(** The value lies in the closed unit interval. *)
Definition in_unit (v : pyfloat) : Prop :=
  match v with
  | Fin q => (0 <= q /\ q <= 1)%Q
  | _ => False
  end.

(** *** Formatting with [:.5f] *)

(** Nearest integer of a non-negative rational, ties to even. *)
Definition round_half_even (q : Q) : Z :=
  let a := Qnum q in
  let b := Zpos (Qden q) in
  let f := a / b in
  let r := a mod b in
  match 2 * r ?= b with
  | Lt => f
  | Gt => f + 1
  | Eq => if Z.even f then f else f + 1
  end.

Definition digit_char (d : Z) : ascii :=
  ascii_of_nat (48 + Z.to_nat d).

Definition string_of_Z (z : Z) : string :=
  NilZero.string_of_int (Z.to_int z).

(** The five digits after the decimal point of [n / 100000]. *)
Definition frac5 (n : Z) : string :=
  let r := n mod 100000 in
  String (digit_char (r / 10000 mod 10))
    (String (digit_char (r / 1000 mod 10))
       (String (digit_char (r / 100 mod 10))
          (String (digit_char (r / 10 mod 10))
             (String (digit_char (r mod 10)) EmptyString)))).

Definition scaled5 (q : Q) : Z := round_half_even (Qabs q * 100000).

(** [f"{v:.5f}"] *)
Definition format_5f (v : pyfloat) : string :=
  match v with
  | NaN => "nan"
  | PosInf => "inf"
  | NegInf => "-inf"
  | Fin q =>
      let n := scaled5 q in
      ((if Qlt_bool q 0 then "-" else EmptyString)
       ++ string_of_Z (n / 100000) ++ "." ++ frac5 n)%string
  end.

(** ** sdk/models.py *)

Definition FINGER_NAMES : list string :=
  ["thumb"; "index"; "middle"; "ring"; "pinky"]%string.

Inductive CalibrationAction := START | STOP.

Inductive StreamType := FINGER_POSITION | IMU.

(** A dict that is only read with [.get] is a [gmap]; a dict that is
    iterated with [.items()] is the list of its items in insertion order. *)
Record SetpointCommand := mkSetpoint
  { sp_fingers : gmap string pyfloat;
    sp_side : option string }.

Record EnableCommand := mkEnable
  { en_fingers : option (list (string * bool));
    en_enabled : bool }.

Record PIDCommand := mkPID
  { pid_kp : option pyfloat;
    pid_kd : option pyfloat;
    pid_fingers : option (list (string * (option pyfloat * option pyfloat))) }.

Record StreamCommand := mkStream
  { stream_type : StreamType;
    stream_start : bool;
    stream_raw : bool }.

Record CalibrationData := mkCalibrationData
  { cal_timestamp : pyfloat;
    cal_fingers : list (string * (Z * Z * bool)) }.

Inductive Command :=
| Setpoint (c : SetpointCommand)
| Calibration (action : CalibrationAction)
| Enable (c : EnableCommand)
| PID (c : PIDCommand)
| Stream (c : StreamCommand)
| ApplyCalibration (calibration : CalibrationData)
| Restart.

(** ** sdk/protocol/serializer.py *)

Module ProtocolSerializer.
Local Open Scope string_scope.
Local Open Scope list_scope.

(** [" ".join(parts)] and ["\n".join(commands)] *)
Definition join (sep : string) (parts : list string) : string :=
  String.concat sep parts.

Definition newline : string := String (ascii_of_nat 10) EmptyString.

Definition SIDES : list string := ["both"; "above"; "below"].

Definition setpoint_part (cmd : SetpointCommand) (finger_name : string) : string :=
  let value := default (Fin 0) (sp_fingers cmd !! finger_name) in
  let value := clamp01 value in
  "-" +:+ finger_name +:+ " " +:+ format_5f value.

Definition _serialize_setpoint (cmd : SetpointCommand) : string :=
  let parts := ["!setSetpointAll"] in
  let parts := parts ++ map (setpoint_part cmd) FINGER_NAMES in
  let parts :=
    match sp_side cmd with
    | Some s => if bool_decide (s ∈ SIDES) then parts ++ ["-side " +:+ s]
                else parts
    | None => parts
    end in
  join " " parts.

Definition _serialize_calibration (action : CalibrationAction) : string :=
  match action with
  | START => "!startStreamFingerPos -raw 1"
  | STOP => "!stopStreamFingerPos"
  end.

Definition enable_line (finger_name : string) (enabled : bool) : string :=
  "!setFingerEnable -finger " +:+ finger_name +:+ " -enable "
    +:+ (if enabled then "1" else "0").

Definition _serialize_enable (cmd : EnableCommand) : string :=
  match en_fingers cmd with
  | None =>
      join newline (map (fun n => enable_line n (en_enabled cmd)) FINGER_NAMES)
  | Some fingers =>
      join newline (map (fun '(n, enabled) => enable_line n enabled) fingers)
  end.

Definition opt_flag (flag : string) (v : option pyfloat) : list string :=
  match v with
  | Some x => [flag +:+ " " +:+ format_5f x]
  | None => []
  end.

Definition _serialize_pid (cmd : PIDCommand) : string :=
  let commands :=
    match pid_fingers cmd with
    | None =>
        match pid_kp cmd with
        | Some kp => ["!setKpAll -kp " +:+ format_5f kp]
        | None => []
        end ++
        match pid_kd cmd with
        | Some kd => ["!setKdAll -kd " +:+ format_5f kd]
        | None => []
        end
    | Some fingers =>
        map (fun '(finger_name, (kp, kd)) =>
               join " " (["!setFingerPID -finger " +:+ finger_name]
                         ++ opt_flag "-kp" kp ++ opt_flag "-kd" kd))
            fingers
    end in
  join newline commands.

Definition _serialize_stream (cmd : StreamCommand) : string :=
  match stream_type cmd with
  | FINGER_POSITION =>
      if stream_start cmd then
        if stream_raw cmd then "!startStreamFingerPos -raw 1"
        else "!startStreamFingerPos"
      else "!stopStreamFingerPos"
  | IMU =>
      if stream_start cmd then "!startImuStream" else "!stopImuStream"
  end.

Definition _serialize_apply_calibration (calibration : CalibrationData) : string :=
  join newline
    (map (fun '(finger_name, (raw_min, raw_max, invert)) =>
            "!setFingerCalibration -finger " +:+ finger_name +:+ " "
            +:+ "-min " +:+ string_of_Z raw_min +:+ " -max " +:+ string_of_Z raw_max)
         (cal_fingers calibration)).

Definition serialize_command (command : Command) : string :=
  match command with
  | Setpoint c => _serialize_setpoint c
  | Calibration a => _serialize_calibration a
  | Enable c => _serialize_enable c
  | PID c => _serialize_pid c
  | Stream c => _serialize_stream c
  | ApplyCalibration c => _serialize_apply_calibration c
  | Restart => "!restart"
  end.

End ProtocolSerializer.

(** ** Reading a decimal numeral with five fractional digits *)

Definition digit_val (c : ascii) : option Z :=
  let n := Z.of_nat (nat_of_ascii c) in
  if (48 <=? n) && (n <=? 57) then Some (n - 48) else None.

(** [s] is the numeral [d0.d1d2d3d4d5] and denotes [n / 100000]. *)
Definition decimal5 (s : string) (n : Z) : Prop :=
  exists c0 c1 c2 c3 c4 c5 d0 d1 d2 d3 d4 d5,
    s = String c0 (String "." (String c1 (String c2 (String c3
          (String c4 (String c5 EmptyString)))))) /\
    digit_val c0 = Some d0 /\ digit_val c1 = Some d1 /\
    digit_val c2 = Some d2 /\ digit_val c3 = Some d3 /\
    digit_val c4 = Some d4 /\ digit_val c5 = Some d5 /\
    n = d0 * 100000 + d1 * 10000 + d2 * 1000 + d3 * 100 + d4 * 10 + d5.

(** [s] is [v] printed with five decimal places: the numeral of the multiple
    of [1/100000] nearest to [v]. *)
Definition prints_5_places (v : pyfloat) (s : string) : Prop :=
  exists q n,
    v = Fin q /\ decimal5 s n /\
    (Qabs (q * 100000 - inject_Z n) <= 1 # 2)%Q.

Fixpoint has_newline (s : string) : bool :=
  match s with
  | EmptyString => false
  | String c s' => (nat_of_ascii c =? 10)%nat || has_newline s'
  end.

(** The value sent for a finger: the entry of the command, 0.0 when the
    finger is not mentioned, clamped to the unit interval. *)
Definition setpoint_value (cmd : SetpointCommand) (finger_name : string) : pyfloat :=
  clamp01 (default (Fin 0) (sp_fingers cmd !! finger_name)).

(** The side-filter flag: present exactly for the three recognised sides. *)
Definition side_suffix (side : option string) : string :=
  match side with
  | Some s =>
      if bool_decide (s = "both" \/ s = "above" \/ s = "below")%string
      then (" -side " +:+ s)%string
      else EmptyString
  | None => EmptyString
  end.

Definition example_setpoint : SetpointCommand :=
  {| sp_fingers := <["thumb"%string := Fin (1 # 2)]>
                     (<["index"%string := Fin (8 # 10)]> ∅);
     sp_side := None |}.

(** ** sdk/models.py: state snapshots *)

Record FingerState := mkFingerState
  { fs_name : string;
    fs_position : pyfloat;
    fs_setpoint : pyfloat;
    fs_calibrated : bool;
    fs_enabled : bool;
    fs_raw_min : Z;
    fs_raw_max : Z }.

Record IMUState := mkIMUState
  { roll : pyfloat; pitch : pyfloat; yaw : pyfloat }.

Record GloveState := mkGloveState
  { gs_timestamp : pyfloat;
    gs_fingers : gmap string FingerState;
    gs_imu : IMUState;
    gs_connected : bool;
    gs_calibrating : bool;
    gs_streaming : bool;
    gs_imu_streaming : bool }.

(** ** sdk/protocol/parser.py: update values *)

Inductive UpdateType := FINGER_POSITIONS | RAW_POSITIONS | IMU_HEADING.

Record StateUpdate := mkStateUpdate
  { update_type : UpdateType;
    values : list pyfloat }.

(** ** sdk/protocol/state_builder.py *)

Definition RAW_MAX : Z := 4095.

Module StateBuilder.

(** The per-finger dict held in [self._fingers]. *)
Record finger_data := mkFinger
  { name : string;
    position : pyfloat;
    setpoint : pyfloat;
    calibrated : bool;
    enabled : bool;
    raw_min : Z;
    raw_max : Z;
    invert : bool }.

Definition set_position (v : pyfloat) (d : finger_data) : finger_data :=
  mkFinger (name d) v (setpoint d) (calibrated d) (enabled d)
    (raw_min d) (raw_max d) (invert d).
Definition set_setpoint (v : pyfloat) (d : finger_data) : finger_data :=
  mkFinger (name d) (position d) v (calibrated d) (enabled d)
    (raw_min d) (raw_max d) (invert d).
Definition set_calibrated (c : bool) (d : finger_data) : finger_data :=
  mkFinger (name d) (position d) (setpoint d) c (enabled d)
    (raw_min d) (raw_max d) (invert d).
Definition set_enabled (e : bool) (d : finger_data) : finger_data :=
  mkFinger (name d) (position d) (setpoint d) (calibrated d) e
    (raw_min d) (raw_max d) (invert d).
Definition set_raw_min (z : Z) (d : finger_data) : finger_data :=
  mkFinger (name d) (position d) (setpoint d) (calibrated d) (enabled d)
    z (raw_max d) (invert d).
Definition set_raw_max (z : Z) (d : finger_data) : finger_data :=
  mkFinger (name d) (position d) (setpoint d) (calibrated d) (enabled d)
    (raw_min d) z (invert d).

Record t := mk
  { _fingers : gmap string finger_data;
    _imu : IMUState;
    _calibrating : bool;
    _streaming : bool;
    _connected : bool }.

Definition with_fingers (f : gmap string finger_data) (s : t) : t :=
  mk f (_imu s) (_calibrating s) (_streaming s) (_connected s).

Definition initial_finger (n : string) : finger_data :=
  {| name := n; position := Fin 0; setpoint := Fin 0;
     calibrated := false; enabled := false;
     raw_min := RAW_MAX; raw_max := 0;
     invert := bool_decide (n = "thumb"%string) |}.

(** [__init__] *)
Definition init : t :=
  {| _fingers := list_to_map (map (fun n => (n, initial_finger n)) FINGER_NAMES);
     _imu := mkIMUState (Fin 0) (Fin 0) (Fin 0);
     _calibrating := false;
     _streaming := false;
     _connected := false |}.

(** [self._fingers[finger_name]]: a missing key raises [KeyError]. *)
Definition get_finger (s : t) (finger_name : string) : result finger_data :=
  match _fingers s !! finger_name with
  | Some d => Ok d
  | None => Raise KeyError
  end.

(** [snapshot]; the reading of the clock is a parameter.  A finger state
    is named by the key its data is stored under. *)
Definition snapshot (now : pyfloat) (s : t) : GloveState :=
  let fingers :=
    map_imap
      (fun name data =>
         Some (mkFingerState name (position data) (setpoint data)
                 (calibrated data) (enabled data) (raw_min data) (raw_max data)))
      (_fingers s) in
  mkGloveState now fingers (_imu s)
    (_connected s) (_calibrating s) (_streaming s) false.

(** [set_calibrating] *)
Definition set_calibrating (calibrating : bool) (s : t) : t :=
  let s := mk (_fingers s) (_imu s) calibrating (_streaming s) (_connected s) in
  if calibrating then
    with_fingers
      ((fun d => set_raw_max 0 (set_raw_min RAW_MAX d)) <$> _fingers s) s
  else s.

(** [set_streaming] *)
Definition set_streaming (streaming : bool) (s : t) : t :=
  mk (_fingers s) (_imu s) (_calibrating s) streaming (_connected s).

(** [set_connected] *)
Definition set_connected (connected : bool) (s : t) : t :=
  mk (_fingers s) (_imu s) (_calibrating s) (_streaming s) connected.

(** [set_finger_enabled] *)
Definition set_finger_enabled (finger_name : string) (e : bool) (s : t) : t :=
  match _fingers s !! finger_name with
  | Some d => with_fingers (<[finger_name := set_enabled e d]> (_fingers s)) s
  | None => s
  end.

(** [set_finger_setpoint] *)
Definition set_finger_setpoint (finger_name : string) (v : pyfloat) (s : t) : t :=
  match _fingers s !! finger_name with
  | Some d =>
      with_fingers
        (<[finger_name := set_setpoint (py_max (Fin 0) (py_min (Fin 1) v)) d]>
           (_fingers s)) s
  | None => s
  end.

(** [apply_calibration] *)
Definition apply_calibration (finger_name : string) (lo hi : Z) (s : t) : t :=
  match _fingers s !! finger_name with
  | Some d =>
      let d := set_raw_min lo d in
      let d := set_raw_max hi d in
      let d := set_calibrated (hi >? lo) d in
      with_fingers (<[finger_name := d]> (_fingers s)) s
  | None => s
  end.

(** *** The methods that can raise

    The builder is mutated in place, so an exception does not undo what
    the call has changed before it: a method that can raise is modelled by
    the builder it leaves together with the exception that ended it, if
    one did. *)

(** One iteration of the loop of [_apply_finger_positions]. *)
Definition finger_position_step (s : t) (item : string * pyfloat)
    : t * option exn :=
  let '(finger_name, value) := item in
  let value := py_max (Fin 0) (py_min (Fin 1) value) in
  match get_finger s finger_name with
  | Ok d =>
      (with_fingers (<[finger_name := set_position value d]> (_fingers s)) s,
       None)
  | Raise e => (s, Some e)
  end.

(** A [for] loop whose body may raise: the exception ends the loop. *)
Fixpoint for_each {A S : Type} (body : S -> A -> S * option exn)
    (items : list A) (s : S) : S * option exn :=
  match items with
  | [] => (s, None)
  | x :: rest =>
      match body s x with
      | (s', None) => for_each body rest s'
      | (s', Some e) => (s', Some e)
      end
  end.

(** [zip] *)
Definition zip {A B : Type} (l : list A) (k : list B) : list (A * B) :=
  combine l k.

(** [_apply_finger_positions] *)
Definition _apply_finger_positions (vs : list pyfloat) (s : t)
    : t * option exn :=
  for_each finger_position_step (zip FINGER_NAMES vs) s.

(** [max(0.0, min(RAW_MAX, raw_value))]: the [int] [RAW_MAX] for a value
    that is not below it (a NaN is not), the [float] [0.0] for a value that
    is not above it, and the value itself in between. *)
Definition clamp_raw (raw_value : pyfloat) : number :=
  num_max (PyFloat (Fin 0)) (num_min (PyInt RAW_MAX) (PyFloat raw_value)).

(** The widening of the tracked raw window while calibrating.  Only [int]
    can raise here; both times it is given the same value, so it raises,
    if at all, before anything has been assigned. *)
Definition track_range (raw_value : number) (d : finger_data)
    : result finger_data :=
  d ← (if num_ltb raw_value (PyInt (raw_min d))
       then z ← num_int raw_value; Ok (set_raw_min z d)
       else Ok d);
  if num_gtb raw_value (PyInt (raw_max d))
  then z ← num_int raw_value; Ok (set_raw_max z d)
  else Ok d.

(** The position computed from a clamped raw value. *)
Definition raw_position (raw_value : number) (d : finger_data)
    : result pyfloat :=
  let lo := raw_min d in
  let hi := raw_max d in
  if calibrated d && (hi >? lo) then
    difference ← num_sub raw_value (PyInt lo);
    normalized ← num_truediv difference (PyInt (hi - lo));
    let normalized := py_max (Fin 0) (py_min (Fin 1) normalized) in
    let normalized :=
      if invert d then pf_sub (Fin 1) normalized else normalized in
    Ok normalized
  else
    num_truediv raw_value (PyInt RAW_MAX).

(** One iteration of the loop of [_apply_raw_positions].  The window is
    assigned before the position is computed, so it stays widened when the
    computation of the position raises. *)
Definition raw_position_step (s : t) (item : string * pyfloat)
    : t * option exn :=
  let '(finger_name, raw_value) := item in
  match get_finger s finger_name with
  | Raise e => (s, Some e)
  | Ok d =>
      let raw_value := clamp_raw raw_value in
      match (if _calibrating s then track_range raw_value d else Ok d) with
      | Raise e => (s, Some e)
      | Ok d =>
          match raw_position raw_value d with
          | Raise e =>
              (with_fingers (<[finger_name := d]> (_fingers s)) s, Some e)
          | Ok p =>
              (with_fingers
                 (<[finger_name := set_position p d]> (_fingers s)) s,
               None)
          end
      end
  end.

(** [_apply_raw_positions] *)
Definition _apply_raw_positions (vs : list pyfloat) (s : t)
    : t * option exn :=
  for_each raw_position_step (zip FINGER_NAMES vs) s.

(** [_apply_imu_heading] *)
Definition _apply_imu_heading (vs : list pyfloat) (s : t) : t :=
  match vs with
  | r :: p :: y :: _ =>
      mk (_fingers s) (mkIMUState r p y)
        (_calibrating s) (_streaming s) (_connected s)
  | _ => s
  end.

(** [apply], as the builder it leaves and the exception it raised. *)
Definition apply_in_place (update : StateUpdate) (s : t) : t * option exn :=
  match update_type update with
  | FINGER_POSITIONS => _apply_finger_positions (values update) s
  | RAW_POSITIONS => _apply_raw_positions (values update) s
  | IMU_HEADING => (_apply_imu_heading (values update) s, None)
  end.

(** A call seen by a caller that does not catch: the builder when the call
    returns, the exception when it raises. *)
Definition uncaught {S : Type} (r : S * option exn) : result S :=
  match r with
  | (s, None) => Ok s
  | (_, Some e) => Raise e
  end.

(** [apply] *)
Definition apply (update : StateUpdate) (s : t) : result t :=
  uncaught (apply_in_place update s).

(** A call of one of the mutating methods. *)
Inductive op :=
| Apply (update : StateUpdate)
| SetCalibrating (flag : bool)
| SetConnected (flag : bool)
| SetStreaming (flag : bool)
| SetFingerEnabled (finger_name : string) (flag : bool)
| SetFingerSetpoint (finger_name : string) (v : pyfloat)
| ApplyCalibration (finger_name : string) (lo hi : Z).

(** One call, as the builder it leaves and the exception it raised. *)
Definition step_in_place (s : t) (o : op) : t * option exn :=
  match o with
  | Apply u => apply_in_place u s
  | SetCalibrating b => (set_calibrating b s, None)
  | SetConnected b => (set_connected b s, None)
  | SetStreaming b => (set_streaming b s, None)
  | SetFingerEnabled n b => (set_finger_enabled n b s, None)
  | SetFingerSetpoint n v => (set_finger_setpoint n v s, None)
  | ApplyCalibration n lo hi => (apply_calibration n lo hi s, None)
  end.

(** The calls of [ops], in order, on a freshly built [StateBuilder], by a
    caller that catches nothing: the first exception ends the sequence. *)
Definition run (ops : list op) : result t :=
  uncaught (for_each step_in_place ops init).

(** The calls of [ops], in order, on a freshly built [StateBuilder], by a
    caller that catches the exception of each call and goes on, as the
    reader loop of the serial transport does: the builder that is left. *)
Definition run_catching (ops : list op) : t :=
  fold_left (fun s o => (step_in_place s o).1) ops init.

End StateBuilder.

(** The bounds given by the most recent [apply_calibration] call for
    [finger_name] in a sequence of calls, if there is one. *)
Fixpoint last_calibration (finger_name : string) (ops : list StateBuilder.op)
    : option (Z * Z) :=
  match ops with
  | [] => None
  | o :: rest =>
      match last_calibration finger_name rest with
      | Some r => Some r
      | None =>
          match o with
          | StateBuilder.ApplyCalibration n lo hi =>
              if bool_decide (n = finger_name) then Some (lo, hi) else None
          | _ => None
          end
      end
  end.



(** Every finger name is a key of [self._fingers]. *)
Definition has_keys (s : StateBuilder.t) : Prop :=
  forall n, n ∈ FINGER_NAMES -> is_Some (StateBuilder._fingers s !! n).

Definition good_finger (d : StateBuilder.finger_data) : Prop :=
  in_unit (StateBuilder.position d) /\ in_unit (StateBuilder.setpoint d).

Definition builder_inv (s : StateBuilder.t) : Prop :=
  has_keys s /\
  forall n d, StateBuilder._fingers s !! n = Some d -> good_finger d.

(** Every finger of [s'] is a finger of [s] with the same calibrated flag. *)
Definition keeps_calibrated (s s' : StateBuilder.t) : Prop :=
  forall n d', StateBuilder._fingers s' !! n = Some d' ->
    exists d, StateBuilder._fingers s !! n = Some d /\
              StateBuilder.calibrated d' = StateBuilder.calibrated d.

(** What every call keeps of the builder [s0] it is made on. *)
Definition kept (s0 s : StateBuilder.t) : Prop :=
  builder_inv s /\ keeps_calibrated s0 s.

(** The number [x] is a raw value after clamping, and [raw] is its value:
    the [int] [RAW_MAX], or a [float] in the range. *)
Definition clamped (x : number) (raw : Q) : Prop :=
  (0 <= raw)%Q /\ (raw <= inject_Z RAW_MAX)%Q /\
  num_value x = Fin raw /\ num_int x = Ok (Qtrunc raw) /\
  (x = PyInt RAW_MAX /\ raw = inject_Z RAW_MAX \/ x = PyFloat (Fin raw)).

(** The effect of one call on the calibrated flag of finger [n]. *)
Definition calibrated_after (o : StateBuilder.op) (n : string) (before : bool) : bool :=
  match o with
  | StateBuilder.ApplyCalibration m lo hi =>
      if bool_decide (m = n) then hi >? lo else before
  | _ => before
  end.

(** *** The raw-positions update, as the specification words it *)

(** An incoming value clamped to [0, raw_ceiling]; a NaN, which compares
    false with everything, ends at the ceiling. *)
Definition Qclamp_raw (v : pyfloat) : Q :=
  match v with
  | Fin q => Qmax 0 (Qmin (inject_Z RAW_MAX) q)
  | NegInf => 0
  | PosInf | NaN => inject_Z RAW_MAX
  end.

Definition Qclamp01 (x : Q) : Q := Qmax 0 (Qmin 1 x).

(** The position stored for a clamped raw value [raw] and a window
    [lo .. hi]. *)
Definition expected_position (raw : Q) (calibrated invert : bool) (lo hi : Z) : Q :=
  if calibrated && (hi >? lo) then
    let x := Qclamp01 ((raw - inject_Z lo) / inject_Z (hi - lo)) in
    if invert then 1 - x else x
  else raw / inject_Z RAW_MAX.

(** The window [lo' .. hi'] is the window [lo .. hi] widened to include
    [raw]. *)
Definition widened_to_include (raw : Q) (lo hi lo' hi' : Z) : Prop :=
  lo' <= lo /\ hi <= hi' /\ (inject_Z lo' <= raw)%Q /\ (raw <= inject_Z hi')%Q.

(** The window [lo' .. hi'] is the window [lo .. hi] with each bound that
    [raw] lies beyond replaced by the integer part of [raw]. *)
Definition widened_by_truncation (raw : Q) (lo hi lo' hi' : Z) : Prop :=
  lo' = (if Qlt_bool raw (inject_Z lo) then Qtrunc raw else lo) /\
  hi' = (if Qlt_bool (inject_Z hi) raw then Qtrunc raw else hi).

(** What a raw-positions update with values [vs] does to each finger that
    receives a value, for a given reading of "widened". *)
Definition raw_update_contract
    (widened : Q -> Z -> Z -> Z -> Z -> Prop)
    (s : StateBuilder.t) (vs : list pyfloat) (s' : StateBuilder.t) : Prop :=
  forall (i : nat) (n : string) (v : pyfloat) (d : StateBuilder.finger_data),
    FINGER_NAMES !! i = Some n -> vs !! i = Some v ->
    StateBuilder._fingers s !! n = Some d ->
    exists (d' : StateBuilder.finger_data) (raw p : Q),
      StateBuilder._fingers s' !! n = Some d' /\
      (raw == Qclamp_raw v)%Q /\
      (0 <= raw)%Q /\ (raw <= inject_Z RAW_MAX)%Q /\
      (if StateBuilder._calibrating s
       then widened raw (StateBuilder.raw_min d) (StateBuilder.raw_max d)
              (StateBuilder.raw_min d') (StateBuilder.raw_max d')
       else StateBuilder.raw_min d' = StateBuilder.raw_min d /\
            StateBuilder.raw_max d' = StateBuilder.raw_max d) /\
      StateBuilder.position d' = Fin p /\
      (p == expected_position raw (StateBuilder.calibrated d)
              (StateBuilder.invert d)
              (StateBuilder.raw_min d') (StateBuilder.raw_max d'))%Q.

(** One finger's share of the loop of [_apply_raw_positions], when the
    iteration returns. *)
Definition raw_finger_update (calibrating : bool) (v : pyfloat)
    (d : StateBuilder.finger_data) : result StateBuilder.finger_data :=
  let raw_value := StateBuilder.clamp_raw v in
  d ← (if calibrating then StateBuilder.track_range raw_value d else Ok d);
  p ← StateBuilder.raw_position raw_value d;
  Ok (StateBuilder.set_position p d).

(** The finger [d] once its window has been tracked, in calibration mode,
    for a clamped value [raw]. *)
Definition tracked (calibrating : bool) (raw : Q)
    (d : StateBuilder.finger_data) : StateBuilder.finger_data :=
  if calibrating then
    StateBuilder.mkFinger (StateBuilder.name d) (StateBuilder.position d)
      (StateBuilder.setpoint d) (StateBuilder.calibrated d)
      (StateBuilder.enabled d)
      (if Qlt_bool raw (inject_Z (StateBuilder.raw_min d))
       then Qtrunc raw else StateBuilder.raw_min d)
      (if Qlt_bool (inject_Z (StateBuilder.raw_max d)) raw
       then Qtrunc raw else StateBuilder.raw_max d)
      (StateBuilder.invert d)
  else d.

(** A bound far enough inside the range of floats for the arithmetic of a
    raw update: twice its magnitude still has a nearest float. *)
Definition modest (z : Z) : Prop := 2 * Z.abs z < INT_TOO_LARGE.

(** Every tracked window of the builder has modest bounds. *)
Definition modest_windows (s : StateBuilder.t) : Prop :=
  forall n d, StateBuilder._fingers s !! n = Some d ->
    modest (StateBuilder.raw_min d) /\ modest (StateBuilder.raw_max d).

(** Every [apply_calibration] call among [ops] is given modest bounds. *)
Definition modest_calibrations (ops : list StateBuilder.op) : Prop :=
  forall n lo hi, StateBuilder.ApplyCalibration n lo hi ∈ ops ->
    modest lo /\ modest hi.

(** The call [apply_calibration("index", 0, 10**400)]: a window whose
    width has no float. *)
Definition huge_calibration : list StateBuilder.op :=
  [StateBuilder.ApplyCalibration "index" 0 (10 ^ 400)].


(** The raw update [100.5, 200, 300, 400, 500]. *)
Definition raw_values_example : list pyfloat :=
  [Fin (201 # 2); Fin 200; Fin 300; Fin 400; Fin 500].

(** ** Python [str] methods

    The text operations work on the list of the characters of a string. *)

Definition str := list ascii.

Definition of_string (s : string) : str := list_ascii_of_string s.

(** [c.isspace()] for a character below 256. *)
Definition is_space (c : ascii) : bool :=
  let n := nat_of_ascii c in
  ((9 <=? n) && (n <=? 13) || (28 <=? n) && (n <=? 32)
   || (n =? 133) || (n =? 160))%nat.

Fixpoint drop_while {A} (p : A -> bool) (l : list A) : list A :=
  match l with
  | [] => []
  | x :: l' => if p x then drop_while p l' else l
  end.

Definition lstrip_by (p : ascii -> bool) (s : str) : str := drop_while p s.

Definition rstrip_by (p : ascii -> bool) (s : str) : str :=
  rev (drop_while p (rev s)).

(** [s.strip()] *)
Definition str_strip (s : str) : str := rstrip_by is_space (lstrip_by is_space s).

Definition is_char (c : ascii) (x : ascii) : bool := bool_decide (x = c).

(** [s.lstrip(c)] and [s.rstrip(c)] for a one-character argument. *)
Definition str_lstrip (c : ascii) (s : str) : str := lstrip_by (is_char c) s.
Definition str_rstrip (c : ascii) (s : str) : str := rstrip_by (is_char c) s.

(** [s.startswith(p)] *)
Definition str_startswith (p s : str) : bool := bool_decide (p `prefix_of` s).

(** [s.replace(old, new, 1)]: the first occurrence of [old] is replaced. *)
Fixpoint str_replace_first (old new s : str) : str :=
  if str_startswith old s then new ++ drop (length old) s
  else match s with
       | [] => []
       | c :: s' => c :: str_replace_first old new s'
       end.

(** [s.replace(a, b)] for one-character [a] and [b]. *)
Definition str_replace_char (a b : ascii) (s : str) : str :=
  map (fun c => if bool_decide (c = a) then b else c) s.

(** [s.split(sep)] for a one-character separator. *)
Fixpoint str_split (sep : ascii) (s : str) : list str :=
  match s with
  | [] => [[]]
  | c :: s' =>
      if bool_decide (c = sep) then [] :: str_split sep s'
      else match str_split sep s' with
           | t :: ts => (c :: t) :: ts
           | [] => [[c]]
           end
  end.

(** *** [float(s)] for a string argument

    The grammar is the one of the language reference:
    [[sign] (floatnumber | "inf" | "infinity" | "nan")], letters in any case,
    surrounding whitespace allowed, single underscores allowed between
    digits.  The value of a number is its exact decimal value. *)

Definition is_digit (c : ascii) : bool :=
  let n := nat_of_ascii c in ((48 <=? n) && (n <=? 57))%nat.

Definition digit_of (c : ascii) : Z := Z.of_nat (nat_of_ascii c) - 48.

(** The rest of a [digitpart] once a digit has been read: the digits read
    and the remaining text. *)
Fixpoint digitpart_rest (s : str) : list Z * str :=
  match s with
  | [] => ([], [])
  | c :: s' =>
      if is_digit c then
        let '(ds, r) := digitpart_rest s' in (digit_of c :: ds, r)
      else if bool_decide (c = "_"%char) then
        match s' with
        | d :: s'' =>
            if is_digit d then
              let '(ds, r) := digitpart_rest s'' in (digit_of d :: ds, r)
            else ([], s)
        | [] => ([], s)
        end
      else ([], s)
  end.

(** A [digitpart] at the head of [s], if any: no digits are returned when
    [s] does not start with a digit. *)
Definition digitpart (s : str) : list Z * str :=
  match s with
  | c :: s' =>
      if is_digit c then
        let '(ds, r) := digitpart_rest s' in (digit_of c :: ds, r)
      else ([], s)
  | [] => ([], [])
  end.

Definition digits_value (ds : list Z) : Z :=
  fold_left (fun acc d => 10 * acc + d) ds 0.

Definition to_lower (c : ascii) : ascii :=
  let n := nat_of_ascii c in
  if ((65 <=? n) && (n <=? 90))%nat then ascii_of_nat (n + 32) else c.

(** [m * 10^e] *)
Definition decimal_value (m e : Z) : Q :=
  if 0 <=? e then inject_Z (m * 10 ^ e)
  else Qred (Qmake m (Z.to_pos (10 ^ (- e)))).

(** The optional exponent, which must end the text. *)
Definition parse_exponent (s : str) : option Z :=
  match s with
  | [] => Some 0
  | c :: s' =>
      if bool_decide (to_lower c = "e"%char) then
        let '(neg, s'') :=
          match s' with
          | "-"%char :: t => (true, t)
          | "+"%char :: t => (false, t)
          | _ => (false, s')
          end in
        match digitpart s'' with
        | (d :: ds, []) =>
            Some (if neg then - digits_value (d :: ds) else digits_value (d :: ds))
        | _ => None
        end
      else None
  end.

(** [floatnumber]: the value of an unsigned decimal number. *)
Definition parse_floatnumber (s : str) : option Q :=
  let '(ip, r1) := digitpart s in
  match r1 with
  | "."%char :: r2 =>
      let '(fp, r3) := digitpart r2 in
      match ip, fp with
      | [], [] => None
      | _, _ =>
          e ← parse_exponent r3;
          Some (decimal_value (digits_value (ip ++ fp))
                  (e - Z.of_nat (length fp)))
      end
  | _ =>
      match ip with
      | [] => None
      | _ => e ← parse_exponent r1;
             Some (decimal_value (digits_value ip) e)
      end
  end.

(** The least magnitude that reads as an infinity: the largest double plus
    half a unit in its last place. *)
Definition FLOAT_OVERFLOW : Q := inject_Z (2 ^ 1024 - 2 ^ 970).

Definition py_float (s : str) : result pyfloat :=
  let s := str_strip s in
  let '(neg, body) :=
    match s with
    | "-"%char :: t => (true, t)
    | "+"%char :: t => (false, t)
    | _ => (false, s)
    end in
  let low := map to_lower body in
  if bool_decide (low = of_string "inf") || bool_decide (low = of_string "infinity")
  then Ok (if neg then NegInf else PosInf)
  else if bool_decide (low = of_string "nan") then Ok NaN
  else match parse_floatnumber body with
       | Some q =>
           if Qle_bool FLOAT_OVERFLOW q
           then Ok (if neg then NegInf else PosInf)
           else Ok (Fin (if neg then Qred (- q) else q))
       | None => Raise ValueError
       end.

(** ** sdk/protocol/parser.py *)

Module ProtocolParser.

(** The loop of [_parse_csv] over the tokens; [ValueError] from [float]
    is caught and gives the empty list. *)
Fixpoint csv_tokens (tokens : list str) (acc : list pyfloat)
    : result (list pyfloat) :=
  match tokens with
  | [] => Ok acc
  | token :: rest =>
      let token := str_strip token in
      match token with
      | [] => csv_tokens rest acc
      | _ =>
          match py_float token with
          | Ok v => csv_tokens rest (acc ++ [v])
          | Raise ValueError => Ok []
          | Raise e => Raise e
          end
      end
  end.

(** [_parse_csv] *)
Definition _parse_csv (payload : str) : result (list pyfloat) :=
  let payload := str_rstrip ">" (str_lstrip "<" (str_strip payload)) in
  match payload with
  | [] => Ok []
  | _ =>
      let payload := str_replace_char ";" "," payload in
      csv_tokens (str_split "," payload) []
  end.

Definition frame (keyword : string) (ty : UpdateType) (arity : nat)
    (line : str) : result (option StateUpdate) :=
  let payload := str_strip (str_replace_first (of_string keyword) [] line) in
  values ← _parse_csv payload;
  if (length values =? arity)%nat
  then Ok (Some (mkStateUpdate ty values))
  else Ok None.

(** [parse_line] *)
Definition parse_line (line : string) : result (option StateUpdate) :=
  let line := str_strip (of_string line) in
  match line with
  | [] => Ok None
  | _ =>
      if str_startswith (of_string "STRIMU") line then
        frame "STRIMU" IMU_HEADING 3 line
      else if str_startswith (of_string "STREAM_RAW") line then
        frame "STREAM_RAW" RAW_POSITIONS 5 line
      else if str_startswith (of_string "STREAM") line then
        frame "STREAM" FINGER_POSITIONS 5 line
      else Ok None
  end.

End ProtocolParser.

(** *** The line grammar, as the specification words it *)

(** The three keywords with the kind and the arity of their updates. *)
Definition KEYWORDS : list (string * UpdateType * nat) :=
  [("STREAM"%string, FINGER_POSITIONS, 5%nat);
   ("STREAM_RAW"%string, RAW_POSITIONS, 5%nat);
   ("STRIMU"%string, IMU_HEADING, 3%nat)].

(** The longest keyword that is a prefix of [line]. *)
Definition longest_keyword (line : str) : option (string * UpdateType * nat) :=
  fold_left
    (fun best k =>
       if str_startswith (of_string k.1.1) line then
         match best with
         | Some b =>
             if (String.length b.1.1 <? String.length k.1.1)%nat
             then Some k else best
         | None => Some k
         end
       else best)
    KEYWORDS None.

(** [s] cut at every comma and every semicolon. *)
Fixpoint split_separators (s : str) : list str :=
  match s with
  | [] => [[]]
  | c :: s' =>
      if bool_decide (c = ","%char) || bool_decide (c = ";"%char)
      then [] :: split_separators s'
      else match split_separators s' with
           | t :: ts => (c :: t) :: ts
           | [] => [[c]]
           end
  end.

(** The numbers of all tokens, or nothing when one token is not a number. *)
Fixpoint numbers_of (tokens : list str) : option (list pyfloat) :=
  match tokens with
  | [] => Some []
  | t :: rest =>
      match py_float t with
      | Ok v => vs ← numbers_of rest; Some (v :: vs)
      | Raise _ => None
      end
  end.

Definition non_empty (s : str) : bool :=
  match s with [] => false | _ => true end.

(** The numeric tokens of a payload: brackets stripped, cut at the
    separators, tokens trimmed, empty tokens skipped. *)
Definition payload_tokens (payload : str) : list str :=
  let body := str_rstrip ">" (str_lstrip "<" (str_strip payload)) in
  filter (fun t => non_empty t) (map str_strip (split_separators body)).

Definition payload_numbers (payload : str) : option (list pyfloat) :=
  numbers_of (payload_tokens payload).

Definition spec_parse_line (line : string) : option StateUpdate :=
  let line := str_strip (of_string line) in
  match longest_keyword line with
  | None => None
  | Some (keyword, ty, arity) =>
      match payload_numbers (drop (String.length keyword) line) with
      | Some vs =>
          if (length vs =? arity)%nat then Some (mkStateUpdate ty vs) else None
      | None => None
      end
  end.

(** The arity of each kind of update. *)
Definition arity_of (ty : UpdateType) : nat :=
  match ty with
  | FINGER_POSITIONS | RAW_POSITIONS => 5
  | IMU_HEADING => 3
  end.

(** The line with leading and trailing whitespace removed. *)
Definition trimmed (line : string) : string :=
  string_of_list_ascii (str_strip (of_string line)).

(** The tokens of a line: those of the payload after its keyword. *)
Definition line_tokens (line : string) : list str :=
  let line := str_strip (of_string line) in
  match longest_keyword line with
  | Some (keyword, _, _) => payload_tokens (drop (String.length keyword) line)
  | None => []
  end.

(** ** Text decoded from bytes

    The result of [bytes.decode] is the list of its code points. *)

Definition text := list N.

Definition byte_val (b : byte) : N := Byte.to_N b.

Definition in_range (lo hi : N) (b : byte) : bool :=
  ((lo <=? byte_val b) && (byte_val b <=? hi))%N.

Definition cont_bits (b : byte) : N := (byte_val b - 128)%N.

(** [bs.decode('utf-8', errors='ignore')]: an ill-formed sequence is dropped
    up to the byte at which it stops being well formed, and decoding resumes
    at that byte. *)
Fixpoint decode_utf8_ignore (bs : list byte) : text :=
  match bs with
  | [] => []
  | b :: rest =>
      let n := byte_val b in
      if (n <? 128)%N then n :: decode_utf8_ignore rest
      else if in_range 194 223 b then
        match rest with
        | c1 :: rest1 =>
            if in_range 128 191 c1
            then ((n - 192) * 64 + cont_bits c1)%N :: decode_utf8_ignore rest1
            else decode_utf8_ignore rest
        | [] => []
        end
      else if in_range 224 239 b then
        let lo := if (n =? 224)%N then 160%N else 128%N in
        let hi := if (n =? 237)%N then 159%N else 191%N in
        match rest with
        | c1 :: rest1 =>
            if in_range lo hi c1 then
              match rest1 with
              | c2 :: rest2 =>
                  if in_range 128 191 c2
                  then ((n - 224) * 4096 + cont_bits c1 * 64 + cont_bits c2)%N
                       :: decode_utf8_ignore rest2
                  else decode_utf8_ignore rest1
              | [] => []
              end
            else decode_utf8_ignore rest
        | [] => []
        end
      else if in_range 240 244 b then
        let lo := if (n =? 240)%N then 144%N else 128%N in
        let hi := if (n =? 244)%N then 143%N else 191%N in
        match rest with
        | c1 :: rest1 =>
            if in_range lo hi c1 then
              match rest1 with
              | c2 :: rest2 =>
                  if in_range 128 191 c2 then
                    match rest2 with
                    | c3 :: rest3 =>
                        if in_range 128 191 c3
                        then ((n - 240) * 262144 + cont_bits c1 * 4096
                              + cont_bits c2 * 64 + cont_bits c3)%N
                             :: decode_utf8_ignore rest3
                        else decode_utf8_ignore rest2
                    | [] => []
                    end
                  else decode_utf8_ignore rest1
              | [] => []
              end
            else decode_utf8_ignore rest
        | [] => []
        end
      else decode_utf8_ignore rest
  end.

(** [c.isspace()] for any code point. *)
Definition is_uspace (c : N) : bool :=
  ((9 <=? c) && (c <=? 13) || (28 <=? c) && (c <=? 32)
   || (c =? 133) || (c =? 160) || (c =? 5760)
   || (8192 <=? c) && (c <=? 8202) || (c =? 8232) || (c =? 8233)
   || (c =? 8239) || (c =? 8287) || (c =? 12288))%N.

(** [s.strip()] on decoded text. *)
Definition text_strip (s : text) : text :=
  rev (drop_while is_uspace (rev (drop_while is_uspace s))).

Definition text_of_string (s : string) : text :=
  map N_of_ascii (list_ascii_of_string s).

(** ** JSON values and [json.loads] *)

#[local] Set Warnings "-register-all".

Inductive json :=
| JNull
| JBool (b : bool)
| JInt (z : Z)
| JFloat (f : pyfloat)
| JString (s : text)
| JArray (items : list json)
| JObject (items : list (text * json)).

(** [d[k] = v] on a dict kept as the list of its items in insertion
    order. *)
Fixpoint dict_set (k : text) (v : json) (d : list (text * json)) : list (text * json) :=
  match d with
  | [] => [(k, v)]
  | (k', v') :: d' =>
      if bool_decide (k' = k) then (k, v) :: d' else (k', v') :: dict_set k v d'
  end.

(** [d.get(k, default)] *)
Fixpoint dict_get (k : text) (default : json) (d : list (text * json)) : json :=
  match d with
  | [] => default
  | (k', v) :: d' => if bool_decide (k' = k) then v else dict_get k default d'
  end.

Module Json.

(** The whitespace of the JSON grammar. *)
Definition is_ws (c : N) : bool :=
  ((c =? 32) || (c =? 9) || (c =? 10) || (c =? 13))%N.

Definition skip_ws (s : text) : text := drop_while is_ws s.

Definition is_digit (c : N) : bool := ((48 <=? c) && (c <=? 57))%N.

Fixpoint take_digits (s : text) : text * text :=
  match s with
  | c :: s' =>
      if is_digit c then let '(ds, r) := take_digits s' in (c :: ds, r)
      else ([], s)
  | [] => ([], [])
  end.

Definition digits_Z (ds : text) : Z :=
  fold_left (fun acc d => 10 * acc + (Z.of_N d - 48)) ds 0.

Definition lexeme (s : text) : str := map ascii_of_N s.

(** The interpreter's default limit on the digits of an integer read from
    a string ([sys.get_int_max_str_digits()]). *)
Definition INT_MAX_STR_DIGITS : nat := 4300.

(** A number at the head of [s]: an optional minus sign, then a single
    zero or a run of digits, then optionally a point with at least one
    digit, then optionally an exponent with an optional sign and at least
    one digit.  An integer literal gives an [int], anything else the
    [float] of the lexeme.  [int] refuses a literal of more than
    [INT_MAX_STR_DIGITS] digits with a [ValueError]; the result is [None]
    for it as well, since every caller here catches [ValueError] together
    with [JSONDecodeError] (which is one). *)
Definition number (s : text) : option (json * text) :=
  let '(sign, s1) :=
    match s with
    | 45%N :: t => ([45%N], t)
    | _ => ([], s)
    end in
  let '(ip, s2) :=
    match s1 with
    | 48%N :: t => ([48%N], t)
    | _ => take_digits s1
    end in
  match ip with
  | [] => None
  | _ =>
      let '(frac, s3) :=
        match s2 with
        | 46%N :: t =>
            match take_digits t with
            | ([], _) => ([], s2)
            | (ds, r) => (46%N :: ds, r)
            end
        | _ => ([], s2)
        end in
      let '(ex, s4) :=
        match s3 with
        | e :: t =>
            if ((e =? 101) || (e =? 69))%N then
              let '(sg, t') :=
                match t with
                | 43%N :: u => ([43%N], u)
                | 45%N :: u => ([45%N], u)
                | _ => ([], t)
                end in
              match take_digits t' with
              | ([], _) => ([], s3)
              | (ds, r) => (e :: sg ++ ds, r)
              end
            else ([], s3)
        | [] => ([], s3)
        end in
      match frac, ex with
      | [], [] =>
          if (INT_MAX_STR_DIGITS <? length ip)%nat then None
          else
            Some (JInt (match sign with [] => digits_Z ip | _ => - digits_Z ip end),
                  s4)
      | _, _ =>
          match py_float (lexeme (sign ++ ip ++ frac ++ ex)) with
          | Ok f => Some (JFloat f, s4)
          | Raise _ => None
          end
      end
  end.

Definition hex_val (c : N) : option N :=
  if is_digit c then Some (c - 48)%N
  else if ((97 <=? c) && (c <=? 102))%N then Some (c - 87)%N
  else if ((65 <=? c) && (c <=? 70))%N then Some (c - 55)%N
  else None.

Definition hex4 (s : text) : option (N * text) :=
  match s with
  | a :: b :: c :: d :: r =>
      a ← hex_val a; b ← hex_val b; c ← hex_val c; d ← hex_val d;
      Some ((a * 4096 + b * 256 + c * 16 + d)%N, r)
  | _ => None
  end.

(** The body of a string after its opening quote, in strict mode: control
    characters are refused, a surrogate pair of [\u] escapes is joined. *)
Fixpoint string_body (s : text) (acc : text) : option (text * text) :=
  match s with
  | [] => None
  | 34%N :: r => Some (acc, r)
  | 92%N :: e :: r =>
      match e with
      | 34%N => string_body r (acc ++ [34%N])
      | 92%N => string_body r (acc ++ [92%N])
      | 47%N => string_body r (acc ++ [47%N])
      | 98%N => string_body r (acc ++ [8%N])
      | 102%N => string_body r (acc ++ [12%N])
      | 110%N => string_body r (acc ++ [10%N])
      | 114%N => string_body r (acc ++ [13%N])
      | 116%N => string_body r (acc ++ [9%N])
      | 117%N =>
          match r with
          | a :: b :: c :: d :: r4 =>
              match hex4 (a :: b :: c :: d :: []) with
              | Some (u, _) =>
                  match r4 with
                  | 92%N :: 117%N :: a' :: b' :: c' :: d' :: r10 =>
                      match hex4 (a' :: b' :: c' :: d' :: []) with
                      | Some (u', _) =>
                          if ((55296 <=? u) && (u <=? 56319)
                              && (56320 <=? u') && (u' <=? 57343))%N
                          then string_body r10
                                 (acc ++ [(65536 + (u - 55296) * 1024
                                           + (u' - 56320))%N])
                          else string_body r4 (acc ++ [u])
                      | None => string_body r4 (acc ++ [u])
                      end
                  | _ => string_body r4 (acc ++ [u])
                  end
              | None => None
              end
          | _ => None
          end
      | _ => None
      end
  | c :: r => if (c <? 32)%N then None else string_body r (acc ++ [c])
  end.

Definition starts (lit : string) (s : text) : option text :=
  let l := text_of_string lit in
  if bool_decide (take (length l) s = l) then Some (drop (length l) s) else None.

(** A value at the head of [s].  Every recursive call is on a shorter
    text, so [fuel] above the length of the text is never used up. *)
Fixpoint value (fuel : nat) (s : text) : option (json * text) :=
  match fuel with
  | O => None
  | S fuel =>
      match s with
      | 34%N :: r =>
          '(str, r') ← string_body r []; Some (JString str, r')
      | 123%N :: r =>
          match skip_ws r with
          | 125%N :: r' => Some (JObject [], r')
          | r' => members fuel r' []
          end
      | 91%N :: r =>
          match skip_ws r with
          | 93%N :: r' => Some (JArray [], r')
          | r' => elements fuel r' []
          end
      | _ =>
          match starts "null" s, starts "true" s, starts "false" s,
                starts "NaN" s, starts "Infinity" s, starts "-Infinity" s with
          | Some r, _, _, _, _, _ => Some (JNull, r)
          | _, Some r, _, _, _, _ => Some (JBool true, r)
          | _, _, Some r, _, _, _ => Some (JBool false, r)
          | _, _, _, Some r, _, _ => Some (JFloat NaN, r)
          | _, _, _, _, Some r, _ => Some (JFloat PosInf, r)
          | _, _, _, _, _, Some r => Some (JFloat NegInf, r)
          | _, _, _, _, _, _ => number s
          end
      end
  end
with elements (fuel : nat) (s : text) (acc : list json) : option (json * text) :=
  match fuel with
  | O => None
  | S fuel =>
      '(v, r) ← value fuel s;
      match skip_ws r with
      | 44%N :: r' => elements fuel (skip_ws r') (acc ++ [v])
      | 93%N :: r' => Some (JArray (acc ++ [v]), r')
      | _ => None
      end
  end
with members (fuel : nat) (s : text) (acc : list (text * json)) : option (json * text) :=
  match fuel with
  | O => None
  | S fuel =>
      match s with
      | 34%N :: r =>
          '(k, r1) ← string_body r [];
          match skip_ws r1 with
          | 58%N :: r2 =>
              '(v, r3) ← value fuel (skip_ws r2);
              match skip_ws r3 with
              | 44%N :: r4 => members fuel (skip_ws r4) (dict_set k v acc)
              | 125%N :: r4 => Some (JObject (dict_set k v acc), r4)
              | _ => None
              end
          | _ => None
          end
      | _ => None
      end
  end.

(** [json.loads(s)]; [None] stands for [JSONDecodeError] (and for the
    [ValueError] of an integer literal beyond the digit limit).  The
    decoder is modelled as the grammar it accepts: the [RecursionError] it
    raises for arrays and objects nested deeper than the interpreter's
    stack allows is not represented, so what is proved of [loads] is
    proved for texts nested less deeply than that. *)
Definition loads (s : text) : option json :=
  '(v, r) ← value (S (length s)) (skip_ws s);
  match skip_ws r with
  | [] => Some v
  | _ => None
  end.

End Json.

(** ** sdk/dongle/status.py *)

Definition ESC_STATUS_REQUEST : list byte := list_byte_of_string "@@@[STATUS]@@@".
Definition ESC_STATUS_START : list byte :=
  [xff; x34] ++ list_byte_of_string "[STATUS_RESPONSE]".
Definition ESC_STATUS_END : list byte := [xff; x34].

(** The fields hold whatever the payload gives for their keys. *)
Record DongleStatus := mkDongleStatus
  { timestamp : pyfloat;
    device : json;
    firmware_version : json;
    uptime_ms : json;
    usb_present : json;
    usb_serial_connected : json;
    bluetooth_connected : json;
    nus_subscribed : json;
    bt_mtu : json;
    max_payload : json;
    usb_rx_bps : json;
    ble_rx_bps : json;
    led_mode : json;
    raw_json : json }.

Definition key (s : string) : text := text_of_string s.

(** [DongleStatus.from_json]; a payload that is not an object has no [get]
    and raises [AttributeError]. *)
Definition from_json (json_data : json) (timestamp : pyfloat) : result DongleStatus :=
  match json_data with
  | JObject d =>
      Ok {| timestamp := timestamp;
            device := dict_get (key "device") JNull d;
            firmware_version := dict_get (key "version") JNull d;
            uptime_ms := dict_get (key "uptime_ms") (JInt 0) d;
            usb_present := dict_get (key "usb_present") (JBool false) d;
            usb_serial_connected :=
              dict_get (key "usb_serial_connected") (JBool false) d;
            bluetooth_connected := dict_get (key "bt_connected") (JBool false) d;
            nus_subscribed := dict_get (key "nus_subscribed") (JBool false) d;
            bt_mtu := dict_get (key "bt_mtu") (JInt 0) d;
            max_payload := dict_get (key "max_payload") (JInt 0) d;
            usb_rx_bps := dict_get (key "usb_rx_bps") (JInt 0) d;
            ble_rx_bps := dict_get (key "ble_rx_bps") (JInt 0) d;
            led_mode := dict_get (key "led_mode") JNull d;
            raw_json := json_data |}
  | _ => Raise AttributeError
  end.

(** [parse_status_json]; [now] is the reading of the clock taken by
    [from_json]. *)
Definition parse_status_json (now : pyfloat) (json_bytes : list byte)
    : result (option DongleStatus) :=
  let json_str := text_strip (decode_utf8_ignore json_bytes) in
  match json_str with
  | [] => Ok None
  | _ =>
      match Json.loads json_str with
      | Some data => status ← from_json data now; Ok (Some status)
      | None => Ok None
      end
  end.

(** ** sdk/dongle/status_monitor.py *)

Definition STATUS_MONITOR_MAX_BUFFER_SIZE : Z := 64 * 1024.

(** [l[i:j]] *)
Definition slice {A} (i j : Z) (l : list A) : list A :=
  drop (slice_index i (length l)) (take (slice_index j (length l)) l).

Module StatusMonitor.

Definition MAX_BUFFER_SIZE : Z := STATUS_MONITOR_MAX_BUFFER_SIZE.

Record t := mk
  { _buffer : list byte;
    _latest_status : option DongleStatus }.

(** [__init__] *)
Definition init : t := {| _buffer := []; _latest_status := None |}.

(** [_trim_buffer] *)
Definition _trim_buffer (buffer : list byte) : list byte :=
  if Z.of_nat (length buffer) <=? MAX_BUFFER_SIZE then buffer
  else slice_from (- MAX_BUFFER_SIZE) buffer.

(** [_try_extract_status]: the buffer afterwards and the value returned
    or the exception raised. *)
Definition _try_extract_status (now : pyfloat) (buffer : list byte)
    : list byte * result (option DongleStatus) :=
  let start_idx := bytes_find ESC_STATUS_START buffer 0 in
  if start_idx =? -1 then (buffer, Ok None)
  else
    let json_start := start_idx + Z.of_nat (length ESC_STATUS_START) in
    let end_idx := bytes_find ESC_STATUS_END buffer json_start in
    if end_idx =? -1 then (buffer, Ok None)
    else
      let json_bytes := slice json_start end_idx buffer in
      let buffer := slice_from (end_idx + Z.of_nat (length ESC_STATUS_END)) buffer in
      (buffer, parse_status_json now json_bytes).

(** What one call of [_process_chunk] leaves behind: the monitor, the
    statuses passed to [_notify_callbacks], in order, and the exception
    that ended the call, if any. *)
Record outcome := mkOutcome
  { monitor : t;
    notified : list DongleStatus;
    raised : option exn }.

(** The [while True] loop of [_process_chunk].  Each round that does not
    leave the loop shortens the buffer, so [fuel] above the length of the
    buffer is never used up; [None] stands for running out of fuel. *)
Fixpoint extract_loop (fuel : nat) (now : pyfloat) (m : t)
    (notified : list DongleStatus) : option outcome :=
  match fuel with
  | O => None
  | S fuel =>
      match _try_extract_status now (_buffer m) with
      | (buffer, Ok (Some status)) =>
          extract_loop fuel now (mk buffer (Some status)) (notified ++ [status])
      | (buffer, Ok None) =>
          Some (mkOutcome (mk buffer (_latest_status m)) notified None)
      | (buffer, Raise e) =>
          Some (mkOutcome (mk buffer (_latest_status m)) notified (Some e))
      end
  end.

(** [_process_chunk] *)
Definition _process_chunk (now : pyfloat) (chunk : list byte) (m : t)
    : option outcome :=
  let buffer := _trim_buffer (_buffer m ++ chunk) in
  extract_loop (S (length buffer)) now (mk buffer (_latest_status m)) [].

(** The chunks of [items], each with the reading of the clock at its
    arrival, passed to [_process_chunk] one after the other: the final
    monitor, all statuses notified, and the exceptions raised. *)
Fixpoint deliver (items : list (pyfloat * list byte)) (m : t)
    : option (t * list DongleStatus * list exn) :=
  match items with
  | [] => Some (m, [], [])
  | (now, chunk) :: rest =>
      o ← _process_chunk now chunk m;
      '(m', ss, es) ← deliver rest (monitor o);
      Some (m', notified o ++ ss,
            match raised o with Some e => e :: es | None => es end)
  end.

End StatusMonitor.

(** A complete status frame. *)
Definition status_frame (payload : list byte) : list byte :=
  ESC_STATUS_START ++ payload ++ ESC_STATUS_END.

(** [sub] occurs in [l] at offset [k]. *)
Definition occurs_at (sub l : list byte) (k : nat) : Prop :=
  starts_with sub (drop k l) = true.

(** The end marker does not occur inside the payload. *)
Definition marker_free (payload : list byte) : Prop :=
  forall k, ~ occurs_at ESC_STATUS_END payload k.

(** The status with its capture time set aside. *)
Definition without_time (s : DongleStatus) : DongleStatus :=
  mkDongleStatus (Fin 0) (device s) (firmware_version s) (uptime_ms s)
    (usb_present s) (usb_serial_connected s) (bluetooth_connected s)
    (nus_subscribed s) (bt_mtu s) (max_payload s) (usb_rx_bps s)
    (ble_rx_bps s) (led_mode s) (raw_json s).

Definition bad_frame : list byte :=
  status_frame (list_byte_of_string "{invalid json here}").

(** A JSON string literal. *)
Definition quoted (s : string) : list byte :=
  [x22] ++ list_byte_of_string s ++ [x22].

(** The payload [{"device":"X","usb_present":true}]. *)
Definition good_payload : list byte :=
  list_byte_of_string "{" ++ quoted "device" ++ list_byte_of_string ":"
    ++ quoted "X" ++ list_byte_of_string "," ++ quoted "usb_present"
    ++ list_byte_of_string ":true}".

Definition good_frame : list byte := status_frame good_payload.

(** The most recent [MAX_BUFFER_SIZE] bytes of the first [pos] bytes of
    [data]. *)
Definition segment (data : list byte) (pos : nat) : list byte :=
  drop (pos - Z.to_nat StatusMonitor.MAX_BUFFER_SIZE) (take pos data).

(** What the monitor holds, notifies and raises when a whole frame with
    payload [p] has been scanned from an empty buffer. *)
Definition frame_result (now : pyfloat) (p : list byte)
    : StatusMonitor.t * list DongleStatus * list exn :=
  match parse_status_json now p with
  | Ok (Some s) => (StatusMonitor.mk [] (Some s), [s], [])
  | Ok None => (StatusMonitor.mk [] None, [], [])
  | Raise e => (StatusMonitor.mk [] None, [], [e])
  end.

(** Two deliveries end alike: the same buffer, the same statuses notified
    and the same latest status, capture times aside, and the same
    exceptions. *)
Definition same_delivery
    (r1 r2 : StatusMonitor.t * list DongleStatus * list exn) : Prop :=
  let '(m1, ss1, es1) := r1 in
  let '(m2, ss2, es2) := r2 in
  StatusMonitor._buffer m1 = StatusMonitor._buffer m2 /\
  without_time <$> ss1 = without_time <$> ss2 /\
  without_time <$> StatusMonitor._latest_status m1
  = without_time <$> StatusMonitor._latest_status m2 /\
  es1 = es2.

(** ** Observing a sequence of buffer calls *)

(** The bytes a call hands back to its caller. *)
Definition returned (o : StreamBuffer.op) (b : StreamBuffer.t) : list byte :=
  match o with
  | StreamBuffer.Read n => fst (StreamBuffer.read n b)
  | StreamBuffer.ReadLine => fst (StreamBuffer.read_line b)
  | StreamBuffer.Write _ | StreamBuffer.Clear => []
  end.

(** All bytes handed back by the calls [ops], in the order of the calls. *)
Fixpoint run_returned (ops : list StreamBuffer.op) (b : StreamBuffer.t)
    : list byte :=
  match ops with
  | [] => []
  | o :: rest => returned o b ++ run_returned rest (StreamBuffer.step o b)
  end.

(** All bytes passed to [write] by the calls [ops], in the order of the
    calls. *)
Fixpoint written (ops : list StreamBuffer.op) : list byte :=
  match ops with
  | [] => []
  | StreamBuffer.Write data :: rest => data ++ written rest
  | _ :: rest => written rest
  end.

Definition is_clear (o : StreamBuffer.op) : bool :=
  match o with StreamBuffer.Clear => true | _ => false end.

(** The chunks of a byte stream written one after the other, as the
    dongle's data callback does. *)
Definition write_all (chunks : list (list byte)) (b : StreamBuffer.t)
    : StreamBuffer.t :=
  fold_left (fun b chunk => StreamBuffer.write chunk b) chunks b.

(** [k] calls of [read_line]: the lines returned and the buffer left. *)
Fixpoint read_lines (k : nat) (b : StreamBuffer.t)
    : list (list byte) * StreamBuffer.t :=
  match k with
  | O => ([], b)
  | S k =>
      let '(line, b1) := StreamBuffer.read_line b in
      let '(lines, b2) := read_lines k b1 in
      (line :: lines, b2)
  end.

(** Lines put on the wire: each one followed by a newline. *)
Definition terminated (lines : list (list byte)) : list (list byte) :=
  map (fun l => l ++ [x0a]) lines.

(** ** sdk/dongle/status_monitor.py: the chunk queue *)

Module StatusQueue.

(** [queue.Queue(maxsize=1000)], as the list of the chunks waiting, oldest
    first. *)
Definition MAXSIZE : nat := 1000.

(** [on_data], with no other thread at the queue during the call: a chunk
    that finds the queue full takes the place of the oldest one. *)
Definition on_data (queue : list (list byte)) (chunk : list byte)
    : list (list byte) :=
  if (length queue <? MAXSIZE)%nat then queue ++ [chunk]
  else match queue with
       | _ :: rest => rest ++ [chunk]
       | [] => queue
       end.

(** The calls of [on_data] for [chunks], in order. *)
Definition on_data_all (queue : list (list byte)) (chunks : list (list byte))
    : list (list byte) :=
  fold_left on_data chunks queue.

End StatusQueue.

(** The status held after the statuses [notified] were notified one after
    the other, [before] being held before. *)
Definition latest_after (before : option DongleStatus)
    (notified : list DongleStatus) : option DongleStatus :=
  match last notified with
  | Some s => Some s
  | None => before
  end.

(** The payload [[1, 2]]: JSON, but no object. *)
Definition array_payload : list byte := list_byte_of_string "[1, 2]".

(** A line of glove data, as it reaches the monitor between status
    frames. *)
Definition stream_line : list byte :=
  list_byte_of_string "STREAM 0.1,0.2,0.3,0.4,0.5" ++ [x0a].

(** ** Fingers of a builder, and calibration sessions *)

(** Every key of [self._fingers] is a finger name, and the dict stored
    under it carries that name. *)
Definition named_fingers (s : StateBuilder.t) : Prop :=
  forall n d, StateBuilder._fingers s !! n = Some d ->
    n ∈ FINGER_NAMES /\ StateBuilder.name d = n.

(** [int(max(0.0, min(RAW_MAX, raw_value)))]: the integer a raw value
    brings to the tracked window. *)
Definition raw_int (v : pyfloat) : Z :=
  match num_int (StateBuilder.clamp_raw v) with
  | Ok z => z
  | Raise _ => 0
  end.

(** The call [apply(StateUpdate(RAW_POSITIONS, vs))]. *)
Definition raw_update (vs : list pyfloat) : StateBuilder.op :=
  StateBuilder.Apply (mkStateUpdate RAW_POSITIONS vs).

(** A calibration session: calibration is switched on, then the raw
    updates arrive one after the other. *)
Definition calibration_session (updates : list (list pyfloat))
    : list StateBuilder.op :=
  StateBuilder.SetCalibrating true :: map raw_update updates.

(** The integers brought by the values that finger number [i] received in
    the updates. *)
Definition seen (i : nat) (updates : list (list pyfloat)) : list Z :=
  omap (fun vs => raw_int <$> vs !! i) updates.

(** The state a builder is left in by an IMU update with the angles
    [r], [p], [y]. *)
Definition with_heading (r p y : pyfloat) (s : StateBuilder.t) : StateBuilder.t :=
  StateBuilder.mk (StateBuilder._fingers s) (mkIMUState r p y)
    (StateBuilder._calibrating s) (StateBuilder._streaming s)
    (StateBuilder._connected s).

(** ** sdk/protocol/ascii_protocol.py *)

(** [c.encode('utf-8')] for a code point below 256: one byte below 128,
    two bytes from there on. *)
Definition encode_utf8_char (c : ascii) : list byte :=
  let n := N_of_ascii c in
  if (n <? 128)%N then [byte_of_ascii c]
  else [byte_of_ascii (ascii_of_N (192 + n / 64));
        byte_of_ascii (ascii_of_N (128 + n mod 64))].

(** [s.encode('utf-8')] *)
Fixpoint encode_utf8 (s : string) : list byte :=
  match s with
  | EmptyString => []
  | String c s' => encode_utf8_char c ++ encode_utf8 s'
  end.

Module ASCIIProtocol.

(** [parse_line] *)
Definition parse_line (line : string) : result (option StateUpdate) :=
  ProtocolParser.parse_line line.

(** [serialize_command] *)
Definition serialize_command (command : Command) : list byte :=
  let cmd_str := ProtocolSerializer.serialize_command command in
  encode_utf8 (cmd_str +:+ ProtocolSerializer.newline).

End ASCIIProtocol.

(** ** sdk/dongle/manager.py *)

(** [line.endswith(suffix)] *)
Definition bytes_endswith (suffix line : list byte) : bool :=
  starts_with (rev suffix) (rev line).

Module Dongle.

(** [write_line]: the bytes passed on to the connection. *)
Definition write_line (line : list byte) : list byte :=
  if negb (bytes_endswith [x0a] line) then line ++ [x0a] else line.

End Dongle.

(** The calibration with every invert flag cleared and the timestamp set
    to zero. *)
Definition without_invert (c : CalibrationData) : CalibrationData :=
  mkCalibrationData (Fin 0)
    (map (fun '(n, (lo, hi, _)) => (n, (lo, hi, false))) (cal_fingers c)).

(** A setpoint command with one more entry in its dict. *)
Definition with_setpoint (n : string) (v : pyfloat) (cmd : SetpointCommand)
    : SetpointCommand :=
  mkSetpoint (<[n := v]> (sp_fingers cmd)) (sp_side cmd).

(** ** sdk/models.py: [CalibrationData] to and from a dict

    The dicts are kept as JSON-like values: a [dict] with string keys is a
    [JObject] holding its items in insertion order. *)

(** [d[k] = v] on the items of a dict. *)
Fixpoint items_set {A} (k : text) (v : A) (d : list (text * A)) : list (text * A) :=
  match d with
  | [] => [(k, v)]
  | (k', v') :: d' =>
      if bool_decide (k' = k) then (k, v) :: d' else (k', v') :: items_set k v d'
  end.

(** The item stored under [k], if any. *)
Fixpoint dict_lookup (k : text) (d : list (text * json)) : option json :=
  match d with
  | [] => None
  | (k', v) :: d' => if bool_decide (k' = k) then Some v else dict_lookup k d'
  end.

(** The exceptions of subscripting and attribute access. *)
Inductive dict_error :=
| DictKeyError (k : text)
| DictTypeError
| DictAttributeError.

Inductive loaded (A : Type) :=
| Loaded (a : A)
| Failed (e : dict_error).
Arguments Loaded {A} a.
Arguments Failed {A} e.

#[global] Instance loaded_ret : MRet loaded := fun _ a => Loaded a.
#[global] Instance loaded_bind : MBind loaded := fun _ _ f m =>
  match m with Loaded a => f a | Failed e => Failed e end.

(** [value[k]] for a string [k]: a missing key raises [KeyError], a value
    that is not a dict raises [TypeError]. *)
Definition subscript (value : json) (k : text) : loaded json :=
  match value with
  | JObject d =>
      match dict_lookup k d with
      | Some v => Loaded v
      | None => Failed (DictKeyError k)
      end
  | _ => Failed DictTypeError
  end.

(** [value.items()]: only a dict has the method. *)
Definition items_of (value : json) : loaded (list (text * json)) :=
  match value with
  | JObject d => Loaded d
  | _ => Failed DictAttributeError
  end.

(** The dict [to_dict] stores for one finger. *)
Definition finger_entry (params : Z * Z * bool) : json :=
  let '(raw_min, raw_max, invert) := params in
  JObject [(key "raw_min", JInt raw_min);
           (key "raw_max", JInt raw_max);
           (key "invert", JBool invert)].

(** [CalibrationData.to_dict] *)
Definition to_dict (c : CalibrationData) : json :=
  JObject
    [(key "timestamp", JFloat (cal_timestamp c));
     (key "fingers",
      JObject
        (fold_left
           (fun d '(name, params) =>
              items_set (text_of_string name) (finger_entry params) d)
           (cal_fingers c) []))].

(** What [from_dict] hands to the constructor: the fields hold whatever the
    dict gives for their keys. *)
Record CalibrationFields := mkCalibrationFields
  { loaded_timestamp : json;
    loaded_fingers : list (text * (json * json * json)) }.

(** The dict comprehension of [from_dict]. *)
Fixpoint load_fingers (items : list (text * json))
    (acc : list (text * (json * json * json)))
    : loaded (list (text * (json * json * json))) :=
  match items with
  | [] => Loaded acc
  | (name, params) :: rest =>
      raw_min ← subscript params (key "raw_min");
      raw_max ← subscript params (key "raw_max");
      invert ← (d ← items_of params;
                Loaded (dict_get (key "invert") (JBool false) d));
      load_fingers rest (items_set name (raw_min, raw_max, invert) acc)
  end.

(** [CalibrationData.from_dict] *)
Definition from_dict (data : json) : loaded CalibrationFields :=
  fingers_value ← subscript data (key "fingers");
  items ← items_of fingers_value;
  fingers ← load_fingers items [];
  timestamp ← subscript data (key "timestamp");
  Loaded (mkCalibrationFields timestamp fingers).

(** The fields of a calibration, as values of a dict. *)
Definition fields_of (c : CalibrationData) : CalibrationFields :=
  mkCalibrationFields (JFloat (cal_timestamp c))
    (map (fun '(name, (raw_min, raw_max, invert)) =>
            (text_of_string name, (JInt raw_min, JInt raw_max, JBool invert)))
       (cal_fingers c)).

Definition example_calibration : CalibrationData :=
  mkCalibrationData (Fin (3 # 2))
    [("thumb"%string, (100, 3000, true)); ("index"%string, (200, 3500, false))].

(** ** sdk/dongle/dongle_finder/core.py *)

Module DongleFinder.

Record DongleInfo := mkDongleInfo
  { port : string;
    vid : option Z;
    pid : option Z;
    manufacturer : option string;
    product : option string;
    serial_number : option string;
    hwid : string }.

(** The truth value of an optional string: [None] and the empty string are
    false. *)
Definition truthy (s : option string) : bool :=
  match s with
  | Some (String _ _) => true
  | _ => false
  end.

(** [device_id] *)
Definition device_id (info : DongleInfo) : string :=
  if truthy (serial_number info) then default EmptyString (serial_number info)
  else hwid info.

(** [c.lower()] for a code point below 256. *)
Definition char_lower (c : ascii) : ascii :=
  let n := nat_of_ascii c in
  if ((65 <=? n) && (n <=? 90)
      || (192 <=? n) && (n <=? 222) && negb (n =? 215))%nat
  then ascii_of_nat (n + 32) else c.

(** [s.lower()] *)
Definition str_lower (s : str) : str := map char_lower s.

(** [sub in s] *)
Fixpoint str_contains (sub s : str) : bool :=
  str_startswith sub s
  || match s with
     | [] => false
     | _ :: s' => str_contains sub s'
     end.

(** The keyword arguments that select a dongle; [None] leaves a criterion
    out. *)
Record criteria := mkCriteria
  { expected_vid : option Z;
    expected_pid : option Z;
    product_substring : option string;
    serial_prefix : option string }.

(** [is_matching_dongle] *)
Definition is_matching_dongle (info : DongleInfo) (c : criteria) : bool :=
  if match expected_vid c with
     | Some v => negb (bool_decide (vid info = Some v))
     | None => false
     end then false
  else if match expected_pid c with
          | Some p => negb (bool_decide (pid info = Some p))
          | None => false
          end then false
  else if match product_substring c with
          | Some sub =>
              negb (truthy (product info))
              || negb (str_contains (str_lower (of_string sub))
                         (str_lower (of_string (default EmptyString (product info)))))
          | None => false
          end then false
  else if match serial_prefix c with
          | Some pre =>
              negb (truthy (serial_number info))
              || negb (str_startswith (of_string pre)
                         (of_string (default EmptyString (serial_number info))))
          | None => false
          end then false
  else true.

(** The test [find_dongles] applies to a port: the custom matcher when one
    is given, the built-in criteria otherwise. *)
Definition selects (matcher : option (DongleInfo -> bool)) (c : criteria)
    (info : DongleInfo) : bool :=
  match matcher with
  | Some m => m info
  | None => is_matching_dongle info c
  end.

(** The loop of [find_dongles] over the ports. *)
Fixpoint find_loop (selected : DongleInfo -> bool)
    (ports results : list DongleInfo) : list DongleInfo :=
  match ports with
  | [] => results
  | info :: rest =>
      find_loop selected rest
        (if selected info then results ++ [info] else results)
  end.

(** [find_dongles]; [ports] is what [list_ports.comports()] reports. *)
Definition find_dongles (matcher : option (DongleInfo -> bool)) (c : criteria)
    (ports : list DongleInfo) : list DongleInfo :=
  find_loop (selects matcher c) ports [].

Inductive finder_error :=
| DongleNotFoundError
| MultipleDonglesError (devices : list DongleInfo).

Inductive finding :=
| Found (info : DongleInfo)
| Raised (e : finder_error).

(** [find_single_dongle] *)
Definition find_single_dongle (matcher : option (DongleInfo -> bool))
    (c : criteria) (ports : list DongleInfo) : finding :=
  let matches := find_dongles matcher c ports in
  match matches with
  | [] => Raised DongleNotFoundError
  | first :: others =>
      if (1 <? length matches)%nat then Raised (MultipleDonglesError matches)
      else Found first
  end.

(** [is_dongle_available]: every exception of the search is caught. *)
Definition is_dongle_available (port_name : option string)
    (vid pid : Z) (substring : string) (ports : list DongleInfo) : bool :=
  if truthy port_name then
    existsb (fun p => String.eqb (port p) (default EmptyString port_name)) ports
  else
    match find_single_dongle None
            (mkCriteria (Some vid) (Some pid) (Some substring) None) ports with
    | Found _ => true
    | Raised _ => false
    end.

(** The criteria [c1] ask for nothing that [c2] does not ask for. *)
Definition weaker (c1 c2 : criteria) : Prop :=
  (expected_vid c1 = None \/ expected_vid c1 = expected_vid c2) /\
  (expected_pid c1 = None \/ expected_pid c1 = expected_pid c2) /\
  (product_substring c1 = None \/ product_substring c1 = product_substring c2) /\
  (serial_prefix c1 = None \/ serial_prefix c1 = serial_prefix c2).

Definition example_dongle : DongleInfo :=
  mkDongleInfo "/dev/ttyACM0" (Some 24574) (Some 4096) (Some "Haptic"%string)
    (Some "Haptic Glove Dongle"%string) (Some "A1"%string) "USB VID:PID=5FFE:1000".

Definition other_port : DongleInfo :=
  mkDongleInfo "/dev/ttyUSB0" (Some 1027) (Some 24577) None None None "USB".

End DongleFinder.
(* ===================================================================== *)
(** * Part II: properties                                                 *)
(* ===================================================================== *)

Section SliceFacts.
Context {A : Type}.
Implicit Types l : list A.

Lemma slice_index_nonneg (j : Z) (len : nat) :
  0 <= j -> slice_index j len = Nat.min (Z.to_nat j) len.
Proof.
  intros Hj. unfold slice_index.
  destruct (Z.ltb_spec j 0); lia.
Qed.

Lemma slice_index_neg (j : Z) (len : nat) :
  j < 0 -> slice_index j len = (len - Z.to_nat (- j))%nat.
Proof.
  intros Hj. unfold slice_index.
  destruct (Z.ltb_spec j 0); lia.
Qed.

Lemma slice_index_le (j : Z) (len : nat) : (slice_index j len <= len)%nat.
Proof.
  unfold slice_index. destruct (Z.ltb_spec j 0); lia.
Qed.

Lemma slice_to_del_to (j : Z) l : slice_to j l ++ del_to j l = l.
Proof. apply take_drop. Qed.

End SliceFacts.

(** ** Searching in byte sequences *)

Section FindFacts.
Implicit Types sub l : list byte.

Lemma byte_eqb_eq (a b : byte) : byte_eqb a b = true <-> a = b.
Proof.
  split; [apply Byte.byte_dec_bl | apply Byte.byte_dec_lb].
Qed.

Lemma starts_with_prefix sub l :
  starts_with sub l = true <-> exists rest, l = sub ++ rest.
Proof.
  revert l. induction sub as [|a sub IH]; intros l; simpl.
  - split; [eauto | done].
  - destruct l as [|b l]; simpl.
    + split; [done | intros [rest Hr]; discriminate].
    + rewrite andb_true_iff, byte_eqb_eq, IH. split.
      * intros [-> [rest ->]]. eauto.
      * intros [rest Hr]. injection Hr as -> ->. eauto.
Qed.

Lemma starts_with_app sub rest : starts_with sub (sub ++ rest) = true.
Proof. apply starts_with_prefix. eauto. Qed.

Lemma starts_with_short sub l :
  (length l < length sub)%nat -> starts_with sub l = false.
Proof.
  intros Hlen. destruct (starts_with sub l) eqn:E; [|done].
  apply starts_with_prefix in E as [rest ->].
  rewrite length_app in Hlen. lia.
Qed.

(** The result of a scan is either [-1], with no occurrence at all, or the
    offset of the first occurrence. *)
Lemma find_at_spec sub l (i : Z) :
  (find_at sub l i = -1 /\ forall k : nat, starts_with sub (drop k l) = false)
  \/ (exists k : nat,
        find_at sub l i = i + Z.of_nat k /\
        (k <= length l)%nat /\
        starts_with sub (drop k l) = true /\
        forall j : nat, (j < k)%nat -> starts_with sub (drop j l) = false).
Proof.
  revert i. induction l as [|b l IH]; intros i; simpl.
  - destruct (starts_with sub []) eqn:E.
    + right. exists 0%nat. repeat split; [lia | done | done | lia].
    + left. split; [done|]. intros k. by rewrite drop_nil.
  - destruct (starts_with sub (b :: l)) eqn:E.
    + right. exists 0%nat. simpl. repeat split; [lia | lia | done | lia].
    + destruct (IH (i + 1)) as [[Hf Hno] | (k & Hf & Hk & Hyes & Hno)].
      * left. split; [done|]. intros [|k]; [done | apply Hno].
      * right. exists (S k). simpl. repeat split; [lia | lia | done |].
        intros [|j] Hj; [done | apply Hno; lia].
Qed.

Lemma find_at_none sub l (i : Z) :
  0 <= i ->
  find_at sub l i = -1 <-> forall k : nat, starts_with sub (drop k l) = false.
Proof.
  intros Hi. destruct (find_at_spec sub l i)
    as [[Hf Hno] | (k & Hf & Hk & Hyes & Hno)].
  - split; done.
  - split; [lia|]. intros Hall. by rewrite Hall in Hyes.
Qed.

Lemma find_at_first sub l (i : Z) (k : nat) :
  starts_with sub (drop k l) = true ->
  (forall j : nat, (j < k)%nat -> starts_with sub (drop j l) = false) ->
  find_at sub l i = i + Z.of_nat k.
Proof.
  intros Hyes Hno. destruct (find_at_spec sub l i)
    as [[Hf Hnone] | (k' & Hf & Hk & Hyes' & Hno')].
  - by rewrite Hnone in Hyes.
  - destruct (Nat.lt_trichotomy k k') as [Hlt | [-> | Hgt]]; [| done |].
    + by rewrite (Hno' _ Hlt) in Hyes.
    + by rewrite (Hno _ Hgt) in Hyes'.
Qed.

(** A single byte [c] is found at the end of the longest [c]-free
    prefix. *)
Lemma starts_with_single (c : byte) l :
  starts_with [c] l = true <-> exists rest, l = c :: rest.
Proof. rewrite starts_with_prefix. done. Qed.

Lemma find_single_absent (c : byte) l :
  c ∉ l -> bytes_find [c] l 0 = -1.
Proof.
  intros Hnot. unfold bytes_find. simpl. rewrite drop_0.
  apply find_at_none; [lia|]. intros k.
  destruct (starts_with [c] (drop k l)) eqn:E; [|done].
  apply starts_with_single in E as [rest Hr].
  exfalso. apply Hnot. rewrite <- (take_drop k l), Hr.
  set_solver.
Qed.

Lemma find_single_present (c : byte) (pre post : list byte) :
  c ∉ pre ->
  bytes_find [c] (pre ++ c :: post) 0 = Z.of_nat (length pre).
Proof.
  intros Hnot. unfold bytes_find. simpl. rewrite drop_0.
  rewrite (find_at_first _ _ 0 (length pre)); [lia | |].
  - rewrite drop_app_length. apply starts_with_single. eauto.
  - intros j Hj. destruct (starts_with _ _) eqn:E; [|done].
    apply starts_with_single in E as [rest Hr].
    exfalso. apply Hnot.
    rewrite drop_app_le in Hr by lia.
    assert (Hd : drop j pre <> []).
    { intros Hnil. apply (f_equal length) in Hnil.
      rewrite length_drop in Hnil. simpl in Hnil. lia. }
    destruct (drop j pre) as [|x xs] eqn:Ed; [done|].
    simpl in Hr. injection Hr as -> _.
    rewrite <- (take_drop j pre), Ed. set_solver.
Qed.

End FindFacts.

(** ** StreamBuffer *)

Section StreamBufferFacts.
Import StreamBuffer.

Lemma write_max_size data b : max_size (write data b) = max_size b.
Proof.
  unfold write. destruct data; [done|].
  repeat case_match; done.
Qed.

Lemma read_max_size n b : max_size (snd (read n b)) = max_size b.
Proof. unfold read. repeat case_match; done. Qed.

Lemma read_line_max_size b : max_size (snd (read_line b)) = max_size b.
Proof. unfold read_line. case_match; done. Qed.

Lemma step_max_size o b : max_size (step o b) = max_size b.
Proof.
  destruct o; simpl;
    auto using write_max_size, read_max_size, read_line_max_size.
Qed.

Lemma del_to_length (j : Z) (l : list byte) :
  (length (del_to j l) <= length l)%nat.
Proof. unfold del_to. rewrite length_drop. lia. Qed.

Lemma write_size_bound data b :
  0 < max_size b ->
  size b <= max_size b ->
  size (write data b) <= max_size b.
Proof.
  unfold size, write. intros Hpos Hinv.
  destruct data as [|d data']; [done|].
  set (data := d :: data').
  destruct (Z.geb_spec (Z.of_nat (length data)) (max_size b)) as [Hge|Hlt];
    cbn [buffer].
  - unfold slice_from. rewrite length_drop, slice_index_neg by lia. lia.
  - destruct (Z.gtb_spec (Z.of_nat (length (buffer b)) + Z.of_nat (length data))
                (max_size b)) as [Hgt|Hle]; cbn [buffer].
    + rewrite length_app. unfold del_to.
      rewrite length_drop, slice_index_nonneg by lia. lia.
    + rewrite length_app. lia.
Qed.

Lemma step_size_bound o b :
  0 < max_size b ->
  size b <= max_size b ->
  size (step o b) <= max_size b.
Proof.
  intros Hpos Hinv. destruct o as [data|n| |]; simpl.
  - by apply write_size_bound.
  - unfold read, size in *.
    pose proof (del_to_length n (buffer b)) as Hdel.
    destruct (buffer b) eqn:Eb; [simpl; rewrite Eb; simpl; lia|].
    case_match; cbn [snd with_buffer buffer length]; simpl in *; lia.
  - unfold read_line, size in *.
    pose proof (del_to_length (bytes_find newline (buffer b) 0 + 1) (buffer b)).
    case_match; cbn [snd with_buffer buffer]; lia.
  - unfold size. simpl. lia.
Qed.

Lemma run_size_bound ops b :
  0 < max_size b ->
  size b <= max_size b ->
  max_size (run ops b) = max_size b /\ size (run ops b) <= max_size b.
Proof.
  revert b. induction ops as [|o ops IH]; intros b Hpos Hinv; simpl.
  - done.
  - destruct (IH (step o b)) as [Hm Hs].
    + by rewrite step_max_size.
    + rewrite step_max_size. by apply step_size_bound.
    + rewrite step_max_size in Hm, Hs. done.
Qed.

End StreamBufferFacts.

(** For a buffer whose capacity is at least one byte, [write data] obeys
    the write contract: empty data changes nothing; data of at least [C]
    bytes leaves exactly the last [C] bytes of the data and counts an
    overflow; otherwise, when the buffer would exceed [C], exactly
    [current + incoming - C] of the oldest bytes are dropped, an overflow is
    counted and the data is appended; otherwise the data is appended. *)
Lemma write_contract_at_positive_capacity (b : StreamBuffer.t) (data : list byte) :
  0 < StreamBuffer.max_size b ->
  write_contract b data (StreamBuffer.write data b).
Proof.
  intros Hpos. unfold write_contract.
  split; [apply write_max_size|].
  unfold StreamBuffer.write.
  destruct data as [|d data']; [simpl; repeat split; intros; (done || lia)|].
  set (data := d :: data').
  destruct (Z.geb_spec (Z.of_nat (length data)) (StreamBuffer.max_size b))
    as [Hge|Hlt]; cbn [StreamBuffer.buffer StreamBuffer.overflow_count].
  - split; [subst data; simpl; lia|].
    split; [|split; intros; lia].
    intros _ _. split; [|done].
    exists (take (slice_index (- StreamBuffer.max_size b) (length data)) data).
    unfold slice_from. rewrite take_drop. split; [done|].
    rewrite length_drop, slice_index_neg by lia. lia.
  - destruct (Z.gtb_spec
                (Z.of_nat (length (StreamBuffer.buffer b)) + Z.of_nat (length data))
                (StreamBuffer.max_size b)) as [Hgt|Hle];
      cbn [StreamBuffer.buffer StreamBuffer.overflow_count].
    + split; [subst data; simpl; lia|].
      split; [intros; lia|]. split; [|intros; lia].
      intros _ _ _. split; [|done].
      set (k := Z.of_nat (length (StreamBuffer.buffer b)) + Z.of_nat (length data)
                - StreamBuffer.max_size b).
      exists (slice_to k (StreamBuffer.buffer b)), (del_to k (StreamBuffer.buffer b)).
      rewrite slice_to_del_to. split; [done|]. split; [|done].
      unfold slice_to. rewrite length_take, slice_index_nonneg by lia. lia.
    + split; [subst data; simpl; lia|].
      split; [intros; lia|]. split; [intros; lia|]. done.
Qed.

(** C3: the code at the failing input.  A buffer created with
    [max_size = 0] is written the three bytes [abc].  The chunk is at least
    as long as the capacity, so [write] takes the full-replace branch and
    stores [data[-max_size:]]; with [max_size = 0] that slice is
    [data[-0:] = data[0:]], the whole chunk, so the buffer holds three
    bytes where the contract (and the parameter's documentation, "Maximum
    buffer size in bytes") allows none, and the contract fails.  The slice
    is the only thing that goes wrong: for every buffer with a capacity of
    at least one byte, [write] obeys the contract for every data. *)
Theorem write_at_capacity_0_keeps_whole_chunk :
  StreamBuffer.write [x61; x62; x63] (StreamBuffer.init 0)
  = StreamBuffer.mk 0 [x61; x62; x63] 1 /\
  ~ write_contract (StreamBuffer.init 0) [x61; x62; x63]
      (StreamBuffer.write [x61; x62; x63] (StreamBuffer.init 0)) /\
  (forall (b : StreamBuffer.t) (data : list byte),
     0 < StreamBuffer.max_size b ->
     write_contract b data (StreamBuffer.write data b)).
Proof.
  split; [reflexivity|]. split; [|apply write_contract_at_positive_capacity].
  unfold write_contract. simpl. intros (_ & _ & H & _).
  destruct H as [(older & _ & Hlen) _]; [lia | lia |].
  simpl in Hlen. lia.
Qed.

(** For a buffer created with capacity [C >= 1], after any sequence of
    write, read, read_line and clear calls the number of bytes held never
    exceeds [C]. *)
Lemma size_bound_at_positive_capacity (C : Z) (ops : list StreamBuffer.op) :
  1 <= C ->
  StreamBuffer.size (StreamBuffer.run ops (StreamBuffer.init C)) <= C.
Proof.
  intros HC.
  destruct (run_size_bound ops (StreamBuffer.init C)) as [_ H];
    [simpl; lia | unfold StreamBuffer.size; simpl; lia | done].
Qed.

(** C4: the code at the failing input.  A buffer created with
    [max_size = 0] and written one chunk of three bytes holds three bytes:
    more than its capacity.  It is the slice [data[-0:]] of the
    full-replace branch of [write] again, which keeps the whole chunk.  No
    other call can push the size over the capacity: for every capacity
    [C >= 1] and every sequence of write, read, read_line and clear calls,
    the number of bytes held never exceeds [C]. *)
Theorem size_exceeds_capacity_at_0 :
  StreamBuffer.size
    (StreamBuffer.run [StreamBuffer.Write [x61; x62; x63]]
       (StreamBuffer.init 0)) = 3 /\
  (forall (C : Z) (ops : list StreamBuffer.op),
     1 <= C ->
     StreamBuffer.size (StreamBuffer.run ops (StreamBuffer.init C)) <= C).
Proof.
  split; [reflexivity | apply size_bound_at_positive_capacity].
Qed.

(** C9: when the buffer holds a newline, [read_line] returns the prefix up to
    and including the first newline and removes exactly those bytes; when it
    holds none, [read_line] returns empty bytes and leaves the buffer
    unchanged, so a second call gives the same result on the same buffer. *)
Theorem read_line_spec (b : StreamBuffer.t) :
  (forall pre post : list byte,
     StreamBuffer.buffer b = pre ++ x0a :: post -> x0a ∉ pre ->
     StreamBuffer.read_line b
     = (pre ++ [x0a], StreamBuffer.with_buffer post b)) /\
  (x0a ∉ StreamBuffer.buffer b ->
     StreamBuffer.read_line b = ([], b) /\
     StreamBuffer.read_line (snd (StreamBuffer.read_line b)) = ([], b)).
Proof.
  split.
  - intros pre post Hbuf Hnot. unfold StreamBuffer.read_line, StreamBuffer.newline.
    rewrite Hbuf, find_single_present by done.
    destruct (Z.eqb_spec (Z.of_nat (length pre)) (-1)) as [Hneg|_]; [lia|].
    unfold slice_to, del_to.
    rewrite slice_index_nonneg by lia.
    replace (Z.to_nat (Z.of_nat (length pre) + 1)) with (S (length pre)) by lia.
    rewrite Nat.min_l by (rewrite length_app; simpl; lia).
    replace (pre ++ x0a :: post) with ((pre ++ [x0a]) ++ post)
      by (by rewrite <- app_assoc).
    replace (S (length pre)) with (length (pre ++ [x0a]))
      by (rewrite length_app; simpl; lia).
    by rewrite take_app_length, drop_app_length.
  - intros Hnot.
    assert (H : StreamBuffer.read_line b = ([], b)).
    { unfold StreamBuffer.read_line, StreamBuffer.newline.
      by rewrite find_single_absent. }
    by rewrite H.
Qed.

(** ** Floats: comparisons, clamping and formatting *)

Section PyFloatFacts.

Lemma Qlt_bool_iff (x y : Q) : Qlt_bool x y = true <-> (x < y)%Q.
Proof.
  unfold Qlt_bool. rewrite negb_true_iff. split.
  - intros H. apply Qnot_le_lt. intros Hle.
    apply Qle_bool_iff in Hle. congruence.
  - intros H. destruct (Qle_bool y x) eqn:E; [|done].
    apply Qle_bool_iff in E. exfalso. by apply (Qlt_not_le x y).
Qed.

Lemma Qlt_bool_false (x y : Q) : Qlt_bool x y = false <-> (y <= x)%Q.
Proof.
  unfold Qlt_bool. rewrite negb_false_iff. apply Qle_bool_iff.
Qed.

(** The three outcomes of [max(0.0, min(1.0, v))]. *)
Lemma clamp01_cases (v : pyfloat) :
  clamp01 v = Fin 0 \/ clamp01 v = Fin 1 \/
  (exists q, v = Fin q /\ clamp01 v = Fin q /\ (0 < q)%Q /\ (q < 1)%Q).
Proof.
  unfold clamp01, py_max, py_min, pf_gtb.
  destruct v as [q| | |]; simpl; try tauto.
  destruct (Qlt_bool q 1) eqn:E1; simpl.
  - destruct (Qlt_bool 0 q) eqn:E0; [|tauto].
    right; right. exists q. apply Qlt_bool_iff in E0, E1. done.
  - by right; left.
Qed.

Lemma clamp01_in_unit (v : pyfloat) : in_unit (clamp01 v).
Proof.
  destruct (clamp01_cases v) as [-> | [-> | (q & _ & -> & H0 & H1)]]; simpl.
  - split; [apply Qle_refl | done].
  - split; [done | apply Qle_refl].
  - split; by apply Qlt_le_weak.
Qed.

Lemma clamp01_nan : clamp01 NaN = Fin 1.
Proof. reflexivity. Qed.

Lemma digit_val_char (d : Z) :
  0 <= d <= 9 -> digit_val (digit_char d) = Some d.
Proof.
  intros Hd.
  assert (H : d = 0 \/ d = 1 \/ d = 2 \/ d = 3 \/ d = 4 \/ d = 5 \/ d = 6
              \/ d = 7 \/ d = 8 \/ d = 9) by lia.
  repeat (destruct H as [-> | H]; [reflexivity|]). by subst.
Qed.

Lemma frac5_digits (n : Z) :
  0 <= n ->
  exists c1 c2 c3 c4 c5 d1 d2 d3 d4 d5,
    frac5 n = String c1 (String c2 (String c3 (String c4
                (String c5 EmptyString)))) /\
    digit_val c1 = Some d1 /\ digit_val c2 = Some d2 /\
    digit_val c3 = Some d3 /\ digit_val c4 = Some d4 /\
    digit_val c5 = Some d5 /\
    n mod 100000 = d1 * 10000 + d2 * 1000 + d3 * 100 + d4 * 10 + d5.
Proof.
  intros Hn. unfold frac5.
  set (r := n mod 100000).
  assert (Hr : 0 <= r < 100000) by (apply Z.mod_pos_bound; lia).
  do 5 eexists. exists (r / 10000 mod 10), (r / 1000 mod 10),
    (r / 100 mod 10), (r / 10 mod 10), (r mod 10).
  split; [reflexivity|].
  pose proof (Z.div_lt_upper_bound r 10000 10 ltac:(lia) ltac:(lia)).
  pose proof (Z.div_pos r 10000 ltac:(lia) ltac:(lia)).
  rewrite (Z.mod_small (r / 10000) 10) by lia.
  clearbody r.
  assert (E2 : r / 100 = r / 10 / 10)
    by (rewrite Z.div_div by lia; reflexivity).
  assert (E3 : r / 1000 = r / 100 / 10)
    by (rewrite Z.div_div by lia; reflexivity).
  assert (E4 : r / 10000 = r / 1000 / 10)
    by (rewrite Z.div_div by lia; reflexivity).
  pose proof (Z.div_mod r 10 ltac:(lia)).
  pose proof (Z.div_mod (r / 10) 10 ltac:(lia)).
  pose proof (Z.div_mod (r / 100) 10 ltac:(lia)).
  pose proof (Z.div_mod (r / 1000) 10 ltac:(lia)).
  split; [apply digit_val_char; lia|].
  assert (Hm : forall x, 0 <= x mod 10 <= 9)
    by (intros x; pose proof (Z.mod_pos_bound x 10); lia).
  repeat (split; [apply digit_val_char, Hm|]).
  lia.
Qed.

Lemma round_half_even_near (q : Q) :
  (Qabs (q - inject_Z (round_half_even q)) <= 1 # 2)%Q.
Proof.
  destruct q as [a b]. unfold round_half_even. cbn [Qnum Qden].
  pose proof (Z.div_mod a (Zpos b) ltac:(lia)) as Hdm.
  pose proof (Z.mod_pos_bound a (Zpos b) ltac:(lia)) as Hr.
  set (f := a / Zpos b) in *. set (r := a mod Zpos b) in *.
  assert (Hgoal : forall n : Z,
             - Zpos b <= 2 * (a - n * Zpos b) <= Zpos b ->
             (Qabs ((a # b) - inject_Z n) <= 1 # 2)%Q).
  { intros n Hn. apply Qabs_Qle_condition.
    unfold Qle, Qminus, Qplus, Qopp, inject_Z. cbn. split; nia. }
  destruct (Z.compare_spec (2 * r) (Zpos b)) as [He|Hl|Hg].
  - destruct (Z.even f); apply Hgoal; nia.
  - apply Hgoal. nia.
  - apply Hgoal. nia.
Qed.

Lemma round_half_even_mono_bounds (q : Q) (lo hi : Z) :
  (inject_Z lo <= q)%Q -> (q <= inject_Z hi)%Q ->
  lo <= round_half_even q <= hi.
Proof.
  destruct q as [a b]. unfold Qle, inject_Z, round_half_even. cbn.
  intros Hlo Hhi.
  pose proof (Z.div_mod a (Zpos b) ltac:(lia)) as Hdm.
  pose proof (Z.mod_pos_bound a (Zpos b) ltac:(lia)) as Hr.
  set (f := a / Zpos b) in *. set (r := a mod Zpos b) in *.
  destruct (Z.compare_spec (2 * r) (Zpos b)) as [He|Hl|Hg];
    [destruct (Z.even f)| |]; nia.
Qed.

(** A value of the unit interval prints as a numeral with one digit before
    the point and five after it. *)
Lemma format_5f_unit (v : pyfloat) :
  in_unit v -> prints_5_places v (format_5f v).
Proof.
  destruct v as [q| | |]; simpl; try done. intros [H0 H1].
  assert (Hsign : Qlt_bool q 0 = false) by by apply Qlt_bool_false.
  rewrite Hsign.
  assert (Habs : Qabs q = q).
  { destruct q as [[|a|a] b]; try done; unfold Qle in H0; cbn in H0; lia. }
  unfold scaled5. rewrite Habs.
  set (n := round_half_even (q * 100000)).
  assert (Hn : 0 <= n <= 100000).
  { apply round_half_even_mono_bounds.
    - destruct q as [a b]. unfold Qle, Qmult, inject_Z in *. cbn in *. nia.
    - destruct q as [a b]. unfold Qle, Qmult, inject_Z in *. cbn in *. nia. }
  exists q, n. split; [done|]. split; [|apply round_half_even_near].
  destruct (frac5_digits n ltac:(lia))
    as (c1 & c2 & c3 & c4 & c5 & d1 & d2 & d3 & d4 & d5 & -> & Hd).
  assert (Hw : n / 100000 = 0 \/ n / 100000 = 1).
  { Z.to_euclidean_division_equations. lia. }
  exists (digit_char (n / 100000)), c1, c2, c3, c4, c5,
    (n / 100000), d1, d2, d3, d4, d5.
  split; [by destruct Hw as [-> | ->]|].
  split; [apply digit_val_char; lia|].
  repeat (split; [tauto|]).
  destruct Hd as (_ & _ & _ & _ & _ & Hd).
  rewrite <- Z.add_assoc. repeat rewrite <- Z.add_assoc in Hd.
  pose proof (Z.div_mod n 100000 ltac:(lia)). lia.
Qed.

Lemma has_newline_app (a b : string) :
  has_newline (a +:+ b) = has_newline a || has_newline b.
Proof.
  induction a as [|c a IH]; simpl; [done|].
  by rewrite IH, orb_assoc.
Qed.

Lemma digit_val_not_newline (c : ascii) (d : Z) :
  digit_val c = Some d -> (nat_of_ascii c =? 10)%nat = false.
Proof.
  unfold digit_val. intros H.
  destruct (Nat.eqb_spec (nat_of_ascii c) 10) as [E|]; [|done].
  rewrite E in H. discriminate.
Qed.

Lemma decimal5_no_newline (s : string) (n : Z) :
  decimal5 s n -> has_newline s = false.
Proof.
  intros (c0 & c1 & c2 & c3 & c4 & c5 & d0 & d1 & d2 & d3 & d4 & d5
          & -> & H0 & H1 & H2 & H3 & H4 & H5 & _).
  cbn [has_newline].
  rewrite (digit_val_not_newline _ _ H0), (digit_val_not_newline _ _ H1),
    (digit_val_not_newline _ _ H2), (digit_val_not_newline _ _ H3),
    (digit_val_not_newline _ _ H4), (digit_val_not_newline _ _ H5).
  reflexivity.
Qed.

End PyFloatFacts.

(** ** ProtocolSerializer *)

Section SerializerFacts.
Import ProtocolSerializer.
Local Open Scope string_scope.

Lemma string_app_assoc (a b c : string) : (a +:+ b) +:+ c = a +:+ (b +:+ c).
Proof.
  induction a as [|x a IH]; [done|].
  change (String x ((a +:+ b) +:+ c) = String x (a +:+ (b +:+ c))).
  by rewrite IH.
Qed.

Lemma string_app_empty_r (a : string) : a +:+ EmptyString = a.
Proof.
  induction a as [|x a IH]; [done|].
  change (String x (a +:+ EmptyString) = String x a). by rewrite IH.
Qed.

Lemma side_suffix_no_newline (side : option string) :
  has_newline (side_suffix side) = false.
Proof.
  destruct side as [s|]; simpl; [|done].
  case_bool_decide as H; [|done].
  destruct H as [-> | [-> | ->]]; reflexivity.
Qed.

(** The loop over [FINGER_NAMES] and the join, written out. *)
Lemma serialize_setpoint_unfold (cmd : SetpointCommand) :
  _serialize_setpoint cmd =
  "!setSetpointAll " +:+ setpoint_part cmd "thumb"
    +:+ " " +:+ setpoint_part cmd "index"
    +:+ " " +:+ setpoint_part cmd "middle"
    +:+ " " +:+ setpoint_part cmd "ring"
    +:+ " " +:+ setpoint_part cmd "pinky"
    +:+ side_suffix (sp_side cmd).
Proof.
  unfold _serialize_setpoint, side_suffix, SIDES.
  destruct (sp_side cmd) as [s|].
  - assert (Hiff : s ∈ ["both"; "above"; "below"]
                   <-> (s = "both" \/ s = "above" \/ s = "below"))
      by (rewrite !elem_of_cons, elem_of_nil; tauto).
    destruct (bool_decide (s ∈ ["both"; "above"; "below"])) eqn:E1;
      destruct (bool_decide (s = "both" \/ s = "above" \/ s = "below")) eqn:E2.
    + cbn. change "!setSetpointAll " with ("!setSetpointAll" +:+ " ").
      change " -side " with (" " +:+ "-side ").
      by rewrite !string_app_assoc.
    + apply bool_decide_eq_true in E1. apply bool_decide_eq_false in E2. tauto.
    + apply bool_decide_eq_false in E1. apply bool_decide_eq_true in E2. tauto.
    + cbn. change "!setSetpointAll " with ("!setSetpointAll" +:+ " ").
      by rewrite !string_app_assoc, string_app_empty_r.
  - cbn. change "!setSetpointAll " with ("!setSetpointAll" +:+ " ").
    by rewrite !string_app_assoc, string_app_empty_r.
Qed.

Lemma setpoint_part_value (cmd : SetpointCommand) (finger_name : string) :
  setpoint_part cmd finger_name
  = "-" +:+ finger_name +:+ " " +:+ format_5f (setpoint_value cmd finger_name).
Proof. reflexivity. Qed.

Lemma setpoint_value_prints (cmd : SetpointCommand) (finger_name : string) :
  prints_5_places (setpoint_value cmd finger_name)
    (format_5f (setpoint_value cmd finger_name)).
Proof. apply format_5f_unit, clamp01_in_unit. Qed.

End SerializerFacts.

(** C8: a setpoint command is serialised to one line: the keyword, then the
    five fingers in the order thumb, index, middle, ring, pinky, each with its
    value clamped to the unit interval and printed with five decimal places,
    then the side flag exactly when the side is one of both, above, below.
    The command [{thumb: 0.5, index: 0.8}] gives the tokens
    [-thumb 0.50000] and [-index 0.80000]. *)
Theorem serialize_setpoint_one_line (cmd : SetpointCommand) :
  let out := ProtocolSerializer.serialize_command (Setpoint cmd) in
  (exists t i m r p : string,
     out = ("!setSetpointAll -thumb " +:+ t +:+ " -index " +:+ i
            +:+ " -middle " +:+ m +:+ " -ring " +:+ r +:+ " -pinky " +:+ p
            +:+ side_suffix (sp_side cmd))%string /\
     prints_5_places (setpoint_value cmd "thumb") t /\
     prints_5_places (setpoint_value cmd "index") i /\
     prints_5_places (setpoint_value cmd "middle") m /\
     prints_5_places (setpoint_value cmd "ring") r /\
     prints_5_places (setpoint_value cmd "pinky") p) /\
  (forall finger_name, in_unit (setpoint_value cmd finger_name)) /\
  has_newline out = false /\
  ProtocolSerializer.serialize_command (Setpoint example_setpoint)
  = ("!setSetpointAll -thumb 0.50000 -index 0.80000 -middle 0.00000"
     +:+ " -ring 0.00000 -pinky 0.00000")%string.
Proof.
  cbn zeta.
  assert (Hout : exists t i m r p : string,
     ProtocolSerializer.serialize_command (Setpoint cmd)
     = ("!setSetpointAll -thumb " +:+ t +:+ " -index " +:+ i
        +:+ " -middle " +:+ m +:+ " -ring " +:+ r +:+ " -pinky " +:+ p
        +:+ side_suffix (sp_side cmd))%string /\
     prints_5_places (setpoint_value cmd "thumb") t /\
     prints_5_places (setpoint_value cmd "index") i /\
     prints_5_places (setpoint_value cmd "middle") m /\
     prints_5_places (setpoint_value cmd "ring") r /\
     prints_5_places (setpoint_value cmd "pinky") p).
  { exists (format_5f (setpoint_value cmd "thumb")),
      (format_5f (setpoint_value cmd "index")),
      (format_5f (setpoint_value cmd "middle")),
      (format_5f (setpoint_value cmd "ring")),
      (format_5f (setpoint_value cmd "pinky")).
    split; [|repeat split; apply setpoint_value_prints].
    cbn [ProtocolSerializer.serialize_command].
    rewrite serialize_setpoint_unfold, !setpoint_part_value.
    change "!setSetpointAll -thumb "%string
      with ("!setSetpointAll " +:+ "-" +:+ "thumb" +:+ " ")%string.
    change " -index "%string with (" " +:+ "-" +:+ "index" +:+ " ")%string.
    change " -middle "%string with (" " +:+ "-" +:+ "middle" +:+ " ")%string.
    change " -ring "%string with (" " +:+ "-" +:+ "ring" +:+ " ")%string.
    change " -pinky "%string with (" " +:+ "-" +:+ "pinky" +:+ " ")%string.
    by rewrite !string_app_assoc. }
  split; [exact Hout|]. split; [intros; apply clamp01_in_unit|].
  split; [|by vm_compute].
  destruct Hout as (t & i & m & r & p & -> & (? & ? & _ & Ht & _)
                    & (? & ? & _ & Hi & _) & (? & ? & _ & Hm & _)
                    & (? & ? & _ & Hr & _) & (? & ? & _ & Hp & _)).
  rewrite !has_newline_app, side_suffix_no_newline.
  rewrite (decimal5_no_newline _ _ Ht), (decimal5_no_newline _ _ Hi),
    (decimal5_no_newline _ _ Hm), (decimal5_no_newline _ _ Hr),
    (decimal5_no_newline _ _ Hp).
  reflexivity.
Qed.

(** C10: a finger that the setpoint command does not mention is sent with
    the value 0.00000: the token at that finger's place in the line reads
    [-<finger> 0.00000]. *)
Theorem omitted_finger_sent_as_zero
    (cmd : SetpointCommand) (i : nat) (finger_name : string) :
  FINGER_NAMES !! i = Some finger_name ->
  sp_fingers cmd !! finger_name = None ->
  exists tokens : list string,
    ProtocolSerializer.serialize_command (Setpoint cmd)
    = ("!setSetpointAll " +:+ ProtocolSerializer.join " " tokens
       +:+ side_suffix (sp_side cmd))%string /\
    length tokens = 5%nat /\
    tokens !! i = Some ("-" +:+ finger_name +:+ " 0.00000")%string.
Proof.
  intros Hname Hnone.
  exists (map (ProtocolSerializer.setpoint_part cmd) FINGER_NAMES).
  split; [|split; [done|]].
  - cbn [ProtocolSerializer.serialize_command].
    rewrite serialize_setpoint_unfold. cbn. by rewrite !string_app_assoc.
  - rewrite list_lookup_fmap, Hname. cbn. f_equal.
    unfold ProtocolSerializer.setpoint_part. rewrite Hnone.
    reflexivity.
Qed.

Lemma omitted_finger_sent_as_zero_witness :
  exists tokens : list string,
    ProtocolSerializer.serialize_command (Setpoint example_setpoint)
    = ("!setSetpointAll " +:+ ProtocolSerializer.join " " tokens
       +:+ side_suffix (sp_side example_setpoint))%string /\
    length tokens = 5%nat /\
    tokens !! 2%nat = Some ("-" +:+ "middle" +:+ " 0.00000")%string.
Proof.
  apply (omitted_finger_sent_as_zero example_setpoint 2 "middle").
  - reflexivity.
  - by vm_compute.
Defined.

(** ** StateBuilder *)

Section StateBuilderFacts.
Import StateBuilder.

(** A loop whose body keeps [P], and raises only exceptions in [E], on
    items satisfying [Q]: whether it returns or raises, it leaves a state
    satisfying [P], and what it raises is in [E]. *)
Lemma for_each_inv {A S} (body : S -> A -> S * option exn)
    (P : S -> Prop) (Q : A -> Prop) (E : exn -> Prop) :
  (forall s x, Q x -> P s ->
     P (body s x).1 /\ forall e, (body s x).2 = Some e -> E e) ->
  forall items s, Forall Q items -> P s ->
    P (for_each body items s).1 /\
    forall e, (for_each body items s).2 = Some e -> E e.
Proof.
  intros Hbody items. induction items as [|x items IH]; intros s HQ HP;
    cbn [for_each].
  - split; [done|]. intros e [=].
  - inversion HQ as [|? ? Hx Hrest]; subst.
    destruct (Hbody s x Hx HP) as [HP1 HE1].
    destruct (body s x) as [s1 [e1|]]; cbn [fst snd] in *.
    + split; [done|]. intros e [= <-]. by apply HE1.
    + by apply IH.
Qed.

(** A loop whose body never raises returns. *)
Lemma for_each_returns {A S} (body : S -> A -> S * option exn)
    (P : S -> Prop) (Q : A -> Prop) :
  (forall s x, Q x -> P s -> P (body s x).1 /\ (body s x).2 = None) ->
  forall items s, Forall Q items -> P s ->
    P (for_each body items s).1 /\ (for_each body items s).2 = None.
Proof.
  intros Hbody items s HQ HP.
  destruct (for_each_inv body P Q (fun _ => False)) with items s as [H1 H2];
    [|done|done|].
  - intros s1 x Hx H. destruct (Hbody s1 x Hx H) as [H3 H4].
    split; [done|]. rewrite H4. intros e [=].
  - split; [done|]. destruct (for_each body items s).2 as [e|]; [|done].
    by destruct (H2 e).
Qed.

(** A sequence of calls none of which raises leaves, for the caller that
    catches, what it leaves for the caller that does not. *)
Lemma for_each_fold {A S} (body : S -> A -> S * option exn)
    (items : list A) (s : S) :
  (for_each body items s).2 = None ->
  (for_each body items s).1 = fold_left (fun s x => (body s x).1) items s.
Proof.
  revert s. induction items as [|x items IH]; intros s; cbn [for_each fold_left];
    [done|].
  destruct (body s x) as [s1 [e1|]]; cbn [fst snd]; [done | apply IH].
Qed.

Lemma uncaught_Ok {S} (r : S * option exn) (s : S) :
  uncaught r = Ok s <-> r = (s, None).
Proof.
  destruct r as [s1 [e|]]; cbn; split; try done.
  - by intros [= ->].
  - by intros [= ->].
Qed.

Lemma uncaught_Raise {S} (r : S * option exn) (e : exn) :
  uncaught (S := S) r = Raise e <-> r.2 = Some e.
Proof.
  destruct r as [s1 [e1|]]; cbn; split; try done.
  - by intros [= ->].
  - by intros [= ->].
Qed.


(** *** Clamping of raw values *)

Lemma INT_TOO_LARGE_above_raw : 2 * RAW_MAX < INT_TOO_LARGE.
Proof. by vm_compute. Qed.

Lemma clamp_raw_value (v : pyfloat) :
  exists raw, clamped (clamp_raw v) raw /\ (raw == Qclamp_raw v)%Q.
Proof.
  unfold clamp_raw, clamped, num_max, num_min, num_gtb, num_ltb.
  destruct v as [q| | |]; cbn [num_value pf_ltb of_int Qclamp_raw].
  - destruct (Qlt_bool q (inject_Z RAW_MAX)) eqn:E1; cbn [num_value pf_ltb of_int].
    + apply Qlt_bool_iff in E1.
      destruct (Qlt_bool 0 q) eqn:E0.
      * apply Qlt_bool_iff in E0. exists q. split.
        -- split; [by apply Qlt_le_weak|]. split; [by apply Qlt_le_weak|].
           split; [done|]. split; [done|]. by right.
        -- rewrite (Q.min_r (inject_Z RAW_MAX) q) by by apply Qlt_le_weak.
           symmetry. apply Q.max_r. by apply Qlt_le_weak.
      * apply Qlt_bool_false in E0. exists 0%Q. split.
        -- split; [apply Qle_refl|]. split; [done|].
           split; [done|]. split; [done|]. by right.
        -- rewrite (Q.min_r (inject_Z RAW_MAX) q) by by apply Qlt_le_weak.
           symmetry. by apply Q.max_l.
    + apply Qlt_bool_false in E1. exists (inject_Z RAW_MAX). split.
      * split; [done|]. split; [apply Qle_refl|].
        split; [done|]. split; [done|]. by left.
      * rewrite (Q.min_l (inject_Z RAW_MAX) q) by done.
        symmetry. by apply Q.max_r.
  - exists (inject_Z RAW_MAX). split; [|reflexivity].
    split; [done|]. split; [apply Qle_refl|].
    split; [done|]. split; [done|]. by left.
  - exists 0%Q. split; [|reflexivity].
    split; [apply Qle_refl|]. split; [done|].
    split; [done|]. split; [done|]. by right.
  - exists (inject_Z RAW_MAX). split; [|reflexivity].
    split; [done|]. split; [apply Qle_refl|].
    split; [done|]. split; [done|]. by left.
Qed.

Lemma in_unit_one_minus (v : pyfloat) :
  in_unit v -> in_unit (pf_sub (Fin 1) v).
Proof.
  destruct v as [q| | |]; simpl; try done. intros [H0 H1].
  rewrite Qred_correct. split.
  - apply (Qplus_le_l _ _ q). ring_simplify. done.
  - apply (Qplus_le_l _ _ q). ring_simplify.
    apply (Qplus_le_r _ _ 1) in H0. ring_simplify in H0. done.
Qed.

(** *** One iteration of the raw-positions loop *)

Lemma track_range_clamped (x : number) (raw : Q) (d : finger_data) :
  clamped x raw ->
  track_range x d
  = Ok (mkFinger (name d) (position d) (setpoint d) (calibrated d) (enabled d)
          (if Qlt_bool raw (inject_Z (raw_min d)) then Qtrunc raw else raw_min d)
          (if Qlt_bool (inject_Z (raw_max d)) raw then Qtrunc raw else raw_max d)
          (invert d)).
Proof.
  intros (_ & _ & Hv & Hi & _).
  unfold track_range, num_gtb, num_ltb. destruct d as [n p sp c e lo hi i].
  cbn [num_value]. rewrite Hv, Hi. unfold of_int. cbn.
  destruct (Qlt_bool raw (inject_Z lo)); cbn;
    destruct (Qlt_bool (inject_Z hi) raw); reflexivity.
Qed.

Lemma clamp01_value (x : Q) :
  exists c, clamp01 (Fin x) = Fin c /\ (c == Qclamp01 x)%Q.
Proof.
  unfold clamp01, py_max, py_min, pf_gtb, Qclamp01. cbn.
  destruct (Qlt_bool x 1) eqn:E1; cbn.
  - apply Qlt_bool_iff in E1.
    destruct (Qlt_bool 0 x) eqn:E0; eexists; (split; [reflexivity|]);
      rewrite (Q.min_r 1 x) by (by apply Qlt_le_weak).
    + apply Qlt_bool_iff in E0. symmetry. apply Q.max_r. by apply Qlt_le_weak.
    + apply Qlt_bool_false in E0. symmetry. by apply Q.max_l.
  - apply Qlt_bool_false in E1. eexists. split; [reflexivity|].
    rewrite (Q.min_l 1 x) by done. symmetry. by apply Q.max_r.
Qed.

Lemma Qclamp01_in_unit (x : Q) : (0 <= Qclamp01 x)%Q /\ (Qclamp01 x <= 1)%Q.
Proof.
  unfold Qclamp01. split; [apply Q.le_max_l|].
  apply Q.max_lub; [done | apply Q.le_min_l].
Qed.

(** The position the specification asks for lies in [0,1]. *)
Lemma expected_position_in_unit (raw : Q) (c i : bool) (lo hi : Z) :
  (0 <= raw)%Q -> (raw <= inject_Z RAW_MAX)%Q ->
  (0 <= expected_position raw c i lo hi)%Q /\
  (expected_position raw c i lo hi <= 1)%Q.
Proof.
  intros H0 H1. unfold expected_position.
  destruct (c && (hi >? lo)).
  - destruct (Qclamp01_in_unit ((raw - inject_Z lo) / inject_Z (hi - lo)))
      as [Ha Hb].
    destruct i; [|done]. split.
    + apply (Qplus_le_l _ _ (Qclamp01 ((raw - inject_Z lo) / inject_Z (hi - lo)))).
      ring_simplify. done.
    + apply (Qplus_le_l _ _ (Qclamp01 ((raw - inject_Z lo) / inject_Z (hi - lo)))).
      ring_simplify.
      apply (Qplus_le_r _ _ 1) in Ha. ring_simplify in Ha. done.
  - destruct raw as [a b]. unfold Qle, Qdiv, Qmult, Qinv, inject_Z, RAW_MAX in *.
    cbn in *. lia.
Qed.

Lemma in_unit_proper (p q : Q) :
  (p == q)%Q -> (0 <= q)%Q /\ (q <= 1)%Q -> in_unit (Fin p).
Proof. intros E [H0 H1]. cbn. by rewrite E. Qed.

Lemma Qis_zero_inject (z : Z) : z <> 0 -> Qis_zero (inject_Z z) = false.
Proof.
  intros Hz. unfold Qis_zero, Qeq_bool, inject_Z. cbn. apply Z.eqb_neq. lia.
Qed.

(** The position computed from a clamped raw value is the one the
    specification asks for, unless the arithmetic overflows, which it does
    not for a window with modest bounds. *)
Lemma raw_position_spec (x : number) (raw : Q) (d : finger_data) :
  clamped x raw ->
  match raw_position x d with
  | Ok (Fin p) =>
      (p == expected_position raw (calibrated d) (invert d)
              (raw_min d) (raw_max d))%Q
  | Ok _ => False
  | Raise e =>
      e = OverflowError /\ ~ (modest (raw_min d) /\ modest (raw_max d))
  end.
Proof.
  intros (H0 & H1 & _ & _ & Hx).
  pose proof INT_TOO_LARGE_above_raw as Hbig. unfold RAW_MAX in Hbig.
  unfold raw_position, expected_position, modest.
  destruct (calibrated d && (raw_max d >? raw_min d)) eqn:E.
  - apply andb_true_iff in E as [_ Hgt]. apply Z.gtb_lt in Hgt.
    set (lo := raw_min d) in *. set (hi := raw_max d) in *.
    destruct Hx as [[-> ->] | ->]; cbn [num_sub mbind result_bind].
    + cbn [num_truediv]. unfold int_truediv.
      destruct (Z.eqb_spec (hi - lo) 0) as [|_]; [lia|].
      destruct (Z.leb_spec (INT_TOO_LARGE * Z.abs (hi - lo))
                  (Z.abs (RAW_MAX - lo))) as [Hov|_].
      * cbn [mbind result_bind]. split; [done|]. intros [Hlo Hhi].
        unfold RAW_MAX in Hov. nia.
      * cbn [mbind result_bind].
        set (x := Qred (inject_Z (RAW_MAX - lo) / inject_Z (hi - lo))).
        assert (Hxv : (x == (inject_Z RAW_MAX - inject_Z lo)
                            / inject_Z (hi - lo))%Q).
        { subst x. rewrite Qred_correct.
          unfold Zminus. by rewrite inject_Z_plus, inject_Z_opp. }
        fold (clamp01 (Fin x)).
        destruct (clamp01_value x) as (c & -> & Hc).
        destruct (invert d); cbn [pf_sub].
        -- rewrite Qred_correct, Hc. unfold Qclamp01. by rewrite Hxv.
        -- rewrite Hc. unfold Qclamp01. by rewrite Hxv.
    + unfold float_of_int.
      destruct (Z.ltb_spec (Z.abs lo) INT_TOO_LARGE) as [_|Hov].
      2:{ cbn [mbind result_bind]. split; [done|]. intros [Hlo Hhi]. lia. }
      cbn [mbind result_bind num_truediv pf_sub].
      unfold float_of_int.
      destruct (Z.ltb_spec (Z.abs (hi - lo)) INT_TOO_LARGE) as [_|Hov].
      2:{ cbn [mbind result_bind]. split; [done|]. intros [Hlo Hhi]. lia. }
      cbn [mbind result_bind]. unfold pf_truediv.
      rewrite Qis_zero_inject by lia. cbn [mbind result_bind].
      set (x := Qred (Qred (raw - inject_Z lo) / inject_Z (hi - lo))).
      assert (Hxv : (x == (raw - inject_Z lo) / inject_Z (hi - lo))%Q).
      { subst x. by rewrite !Qred_correct. }
      fold (clamp01 (Fin x)).
      destruct (clamp01_value x) as (c & -> & Hc).
      destruct (invert d); cbn [pf_sub].
      * rewrite Qred_correct, Hc. unfold Qclamp01. by rewrite Hxv.
      * rewrite Hc. unfold Qclamp01. by rewrite Hxv.
  - destruct Hx as [[-> ->] | ->].
    + by vm_compute.
    + cbn [num_truediv]. unfold float_of_int.
      destruct (Z.ltb_spec (Z.abs RAW_MAX) INT_TOO_LARGE) as [_|Hov];
        [|unfold RAW_MAX in Hov; lia].
      cbn [mbind result_bind]. unfold pf_truediv.
      rewrite Qis_zero_inject by done. by rewrite Qred_correct.
Qed.

(** Truncation of a non-negative rational is its integer part. *)
Lemma Qtrunc_bounds (q : Q) :
  (0 <= q)%Q ->
  (inject_Z (Qtrunc q) <= q)%Q /\ (q < inject_Z (Qtrunc q + 1))%Q.
Proof.
  destruct q as [a b]. unfold Qle, Qlt, Qtrunc, inject_Z. cbn.
  intros Ha. rewrite Z.quot_div_nonneg by lia.
  pose proof (Z.div_mod a (Zpos b) ltac:(lia)).
  pose proof (Z.mod_pos_bound a (Zpos b) ltac:(lia)).
  nia.
Qed.

(** The truncating update keeps the old window and takes in the integer
    part of the raw value. *)
Lemma widened_by_truncation_bounds (raw : Q) (lo hi lo' hi' : Z) :
  (0 <= raw)%Q ->
  widened_by_truncation raw lo hi lo' hi' ->
  lo' <= lo /\ hi <= hi' /\ lo' <= Qtrunc raw <= hi'.
Proof.
  intros H0 [-> ->].
  destruct (Qtrunc_bounds raw H0) as [Hlo Hhi].
  assert (Hz : forall z : Z, (inject_Z z <= raw)%Q -> z <= Qtrunc raw).
  { intros z Hz. apply Z.lt_succ_r. rewrite <- Z.add_1_r.
    rewrite Zlt_Qlt. by apply Qle_lt_trans with raw. }
  assert (Hz' : forall z : Z, (raw <= inject_Z z)%Q -> Qtrunc raw <= z).
  { intros z Hz'. rewrite Zle_Qle. by apply Qle_trans with raw. }
  destruct (Qlt_bool raw (inject_Z lo)) eqn:E1;
    destruct (Qlt_bool (inject_Z hi) raw) eqn:E2;
    rewrite ?Qlt_bool_iff, ?Qlt_bool_false in *;
    repeat split; try lia;
    try (apply Hz; (done || by apply Qlt_le_weak));
    try (apply Hz'; (done || by apply Qlt_le_weak)).
Qed.

Lemma Qtrunc_range (raw : Q) :
  (0 <= raw)%Q -> (raw <= inject_Z RAW_MAX)%Q -> 0 <= Qtrunc raw <= RAW_MAX.
Proof.
  intros H0 H1. destruct (Qtrunc_bounds raw H0) as [Hlo _]. split.
  - destruct raw as [a b]. unfold Qle, Qtrunc in *. cbn in *.
    apply Z.quot_pos; lia.
  - rewrite Zle_Qle. by apply Qle_trans with raw.
Qed.

Lemma tracked_fields (c : bool) (raw : Q) (d : finger_data) :
  name (tracked c raw d) = name d /\
  position (tracked c raw d) = position d /\
  setpoint (tracked c raw d) = setpoint d /\
  calibrated (tracked c raw d) = calibrated d /\
  enabled (tracked c raw d) = enabled d /\
  invert (tracked c raw d) = invert d.
Proof. unfold tracked. by destruct c. Qed.

Lemma modest_in_range (z : Z) : 0 <= z <= RAW_MAX -> modest z.
Proof.
  intros Hz. pose proof INT_TOO_LARGE_above_raw.
  unfold modest, RAW_MAX in *. lia.
Qed.

Lemma tracked_modest (c : bool) (raw : Q) (d : finger_data) :
  (0 <= raw)%Q -> (raw <= inject_Z RAW_MAX)%Q ->
  modest (raw_min d) /\ modest (raw_max d) ->
  modest (raw_min (tracked c raw d)) /\ modest (raw_max (tracked c raw d)).
Proof.
  intros H0 H1 [Hlo Hhi]. unfold tracked. destruct c; [|done]. cbn.
  pose proof (modest_in_range _ (Qtrunc_range raw H0 H1)).
  split; [destruct (Qlt_bool raw _) | destruct (Qlt_bool _ raw)]; done.
Qed.

(** One finger's share of an iteration: the finger [d1] with its window
    tracked, and then either the position, or the [OverflowError] that
    leaves [d1] in the table. *)
Lemma raw_position_step_cases (s : t) (n : string) (v : pyfloat)
    (d : finger_data) :
  _fingers s !! n = Some d ->
  exists (d1 : finger_data) (raw : Q),
    (raw == Qclamp_raw v)%Q /\ (0 <= raw)%Q /\ (raw <= inject_Z RAW_MAX)%Q /\
    d1 = tracked (_calibrating s) raw d /\
    ((exists p,
        (p == expected_position raw (calibrated d) (invert d)
                (raw_min d1) (raw_max d1))%Q /\
        raw_finger_update (_calibrating s) v d = Ok (set_position (Fin p) d1) /\
        raw_position_step s (n, v)
        = (with_fingers (<[n := set_position (Fin p) d1]> (_fingers s)) s, None))
     \/ (~ (modest (raw_min d1) /\ modest (raw_max d1)) /\
         raw_finger_update (_calibrating s) v d = Raise OverflowError /\
         raw_position_step s (n, v)
         = (with_fingers (<[n := d1]> (_fingers s)) s, Some OverflowError))).
Proof.
  intros Hd. destruct (clamp_raw_value v) as (raw & Hcl & Hraw).
  pose proof Hcl as (H0 & H1 & _).
  set (d1 := tracked (_calibrating s) raw d).
  exists d1, raw. split; [done|]. split; [done|]. split; [done|].
  split; [done|].
  assert (Ht : (if _calibrating s then track_range (clamp_raw v) d else Ok d)
               = Ok d1).
  { subst d1. unfold tracked. destruct (_calibrating s); [|done].
    by rewrite (track_range_clamped _ raw). }
  unfold raw_position_step, raw_finger_update, get_finger.
  rewrite Hd, Ht. cbn [mbind result_bind].
  destruct (tracked_fields (_calibrating s) raw d) as (_ & _ & _ & Hc & _ & Hi).
  fold d1 in Hc, Hi.
  pose proof (raw_position_spec (clamp_raw v) raw d1 Hcl) as Hp.
  destruct (raw_position (clamp_raw v) d1) as [[p| | |]|e]; try done.
  - left. exists p. rewrite Hc, Hi in Hp. done.
  - right. destruct Hp as [-> Hm]. done.
Qed.

(** *** Invariants of the loops *)

Lemma zip_names_in {B} (l : list string) (k : list B) :
  Forall (fun item => item.1 ∈ l) (zip l k).
Proof.
  unfold zip. apply Forall_forall. intros [n v] Hin.
  apply list_elem_of_In in Hin. apply in_combine_l in Hin.
  by apply list_elem_of_In.
Qed.

Lemma builder_inv_insert (s : t) (n : string) (d : finger_data) :
  builder_inv s -> good_finger d ->
  builder_inv (with_fingers (<[n := d]> (_fingers s)) s).
Proof.
  intros [Hk Hg] Hd. split.
  - intros m Hm. cbn. rewrite lookup_insert. case_decide; [eauto | by apply Hk].
  - intros m d'. cbn. rewrite lookup_insert. case_decide.
    + by intros [= <-].
    + apply Hg.
Qed.

Lemma keeps_calibrated_refl (s : t) : keeps_calibrated s s.
Proof. intros n d H. eauto. Qed.

Lemma keeps_calibrated_insert (s0 s : t) (n : string) (d d' : finger_data) :
  keeps_calibrated s0 s ->
  _fingers s !! n = Some d -> calibrated d' = calibrated d ->
  keeps_calibrated s0 (with_fingers (<[n := d']> (_fingers s)) s).
Proof.
  intros Hk Hd Hc m d1. cbn. rewrite lookup_insert. case_decide.
  - intros [= <-]. subst m. destruct (Hk n d Hd) as (d0 & H0 & E).
    exists d0. split; [done | congruence].
  - apply Hk.
Qed.

Lemma modest_windows_insert (s : t) (n : string) (d : finger_data) :
  modest_windows s -> modest (raw_min d) /\ modest (raw_max d) ->
  modest_windows (with_fingers (<[n := d]> (_fingers s)) s).
Proof.
  intros Hs Hd m d'. cbn. rewrite lookup_insert. case_decide.
  - by intros [= <-].
  - apply Hs.
Qed.

Lemma finger_position_step_ok (s0 s : t) (item : string * pyfloat) :
  item.1 ∈ FINGER_NAMES ->
  kept s0 s ->
  kept s0 (finger_position_step s item).1 /\
  (finger_position_step s item).2 = None.
Proof.
  destruct item as [n v]. cbn [fst]. intros Hn [Hinv Hcal].
  destruct (proj1 Hinv n Hn) as [d Hd].
  unfold finger_position_step, get_finger. rewrite Hd. cbn [fst snd].
  split; [|done]. split.
  - apply builder_inv_insert; [done|].
    destruct (proj2 Hinv n d Hd) as [_ Hsp].
    split; [apply clamp01_in_unit | done].
  - by apply keeps_calibrated_insert with d.
Qed.

Lemma raw_position_step_ok (s0 s : t) (item : string * pyfloat) :
  item.1 ∈ FINGER_NAMES ->
  kept s0 s ->
  kept s0 (raw_position_step s item).1 /\
  forall e, (raw_position_step s item).2 = Some e -> e = OverflowError.
Proof.
  destruct item as [n v]. cbn [fst]. intros Hn [Hinv Hcal].
  destruct (proj1 Hinv n Hn) as [d Hd].
  destruct (proj2 Hinv n d Hd) as [Hpos Hsp].
  destruct (raw_position_step_cases s n v d Hd)
    as (d1 & raw & _ & H0 & H1 & Hd1 & [(p & Hp & _ & ->) | (_ & _ & ->)]);
    cbn [fst snd];
    pose proof (tracked_fields (_calibrating s) raw d) as Hf.
  - split; [|done]. split.
    + apply builder_inv_insert; [done|]. split.
      * apply (in_unit_proper _ _ Hp). by apply expected_position_in_unit.
      * cbn. by rewrite Hd1, (proj1 (proj2 (proj2 Hf))).
    + apply keeps_calibrated_insert with d; [done | done |].
      cbn. by rewrite Hd1, (proj1 (proj2 (proj2 (proj2 Hf)))).
  - split; [|by intros e [= <-]]. split.
    + apply builder_inv_insert; [done|]. split.
      * by rewrite Hd1, (proj1 (proj2 Hf)).
      * by rewrite Hd1, (proj1 (proj2 (proj2 Hf))).
    + apply keeps_calibrated_insert with d; [done | done |].
      by rewrite Hd1, (proj1 (proj2 (proj2 (proj2 Hf)))).
Qed.

Lemma apply_ok (u : StateUpdate) (s : t) :
  builder_inv s ->
  kept s (apply_in_place u s).1 /\
  forall e, (apply_in_place u s).2 = Some e -> e = OverflowError.
Proof.
  intros Hinv. unfold apply_in_place.
  destruct (update_type u).
  - destruct (for_each_returns finger_position_step (kept s)
                (fun item => item.1 ∈ FINGER_NAMES))
      with (zip FINGER_NAMES (values u)) s as [H1 H2].
    + intros. by apply finger_position_step_ok.
    + apply zip_names_in.
    + split; [done | apply keeps_calibrated_refl].
    + unfold _apply_finger_positions. split; [done|]. rewrite H2. by intros e.
  - apply (for_each_inv raw_position_step (kept s)
             (fun item => item.1 ∈ FINGER_NAMES)
             (fun e => e = OverflowError)).
    + intros. by apply raw_position_step_ok.
    + apply zip_names_in.
    + split; [done | apply keeps_calibrated_refl].
  - cbn [fst snd]. split; [|done]. split.
    + unfold _apply_imu_heading. repeat case_match; exact Hinv.
    + unfold _apply_imu_heading.
      repeat case_match; exact (keeps_calibrated_refl s).
Qed.

(** A finger-positions update always returns. *)
Lemma finger_positions_return (vs : list pyfloat) (s : t) :
  builder_inv s -> (_apply_finger_positions vs s).2 = None.
Proof.
  intros Hinv.
  destruct (for_each_returns finger_position_step (kept s)
              (fun item => item.1 ∈ FINGER_NAMES))
    with (zip FINGER_NAMES vs) s as [H1 H2]; [| | |done].
  - intros. by apply finger_position_step_ok.
  - apply zip_names_in.
  - split; [done | apply keeps_calibrated_refl].
Qed.

Lemma step_ok (o : op) (s : t) :
  builder_inv s ->
  builder_inv (step_in_place s o).1 /\
  (forall e, (step_in_place s o).2 = Some e -> e = OverflowError) /\
  forall n d', _fingers (step_in_place s o).1 !! n = Some d' ->
    exists d, _fingers s !! n = Some d /\
              calibrated d' = calibrated_after o n (calibrated d).
Proof.
  intros Hinv. destruct o as [u|b|b|b|m b|m v|m lo hi];
    cbn [step_in_place fst snd].
  - destruct (apply_ok u s Hinv) as ([Hinv' Hk] & He). eauto.
  - split; [|split; [done|]]; unfold set_calibrating.
    + destruct b; [|done]. split.
      * intros n Hn. cbn. rewrite lookup_fmap.
        destruct (proj1 Hinv n Hn) as [d ->]. eauto.
      * intros n d'. cbn. rewrite lookup_fmap.
        destruct (_fingers s !! n) as [d|] eqn:Hd; [|done].
        intros [= <-]. apply (proj2 Hinv n d Hd).
    + destruct b; [|intros n d' H; eauto].
      intros n d'. cbn. rewrite lookup_fmap.
      destruct (_fingers s !! n) as [d|] eqn:Hd; [|done].
      intros [= <-]. eauto.
  - split; [done|]. split; [done | intros n d' H; eauto].
  - split; [done|]. split; [done | intros n d' H; eauto].
  - unfold set_finger_enabled.
    destruct (_fingers s !! m) as [d|] eqn:Hd;
      [|split; [done|]; split; [done | intros n d' H; eauto]].
    split; [|split; [done|]].
    + apply builder_inv_insert; [done|]. apply (proj2 Hinv m d Hd).
    + intros n d'. cbn. rewrite lookup_insert. case_decide; [|eauto].
      intros [= <-]. subst n. eauto.
  - unfold set_finger_setpoint.
    destruct (_fingers s !! m) as [d|] eqn:Hd;
      [|split; [done|]; split; [done | intros n d' H; eauto]].
    split; [|split; [done|]].
    + apply builder_inv_insert; [done|].
      destruct (proj2 Hinv m d Hd) as [Hp _].
      split; [done | apply clamp01_in_unit].
    + intros n d'. cbn. rewrite lookup_insert. case_decide; [|eauto].
      intros [= <-]. subst n. eauto.
  - unfold apply_calibration.
    destruct (_fingers s !! m) as [d|] eqn:Hd.
    + split; [|split; [done|]].
      * apply builder_inv_insert; [done|]. apply (proj2 Hinv m d Hd).
      * intros n d'. cbn. rewrite lookup_insert. case_decide.
        -- intros [= <-]. subst n. exists d. split; [done|].
           cbn. by rewrite bool_decide_eq_true_2.
        -- intros H'. exists d'. split; [done|].
           by rewrite bool_decide_eq_false_2.
    + split; [done|]. split; [done|].
      intros n d' H'. exists d'. split; [done|]. cbn.
      case_bool_decide; [congruence | done].
Qed.

Lemma init_inv : builder_inv init.
Proof.
  split.
  - intros n Hn. unfold FINGER_NAMES in Hn.
    rewrite !elem_of_cons, elem_of_nil in Hn.
    destruct Hn as [-> | [-> | [-> | [-> | [-> | []]]]]]; vm_compute; eauto.
  - intros n d Hd.
    assert (Hin : (n, d) ∈ map (fun n => (n, initial_finger n)) FINGER_NAMES).
    { apply (elem_of_list_to_map_2 (M := gmap string)). exact Hd. }
    apply list_elem_of_In, in_map_iff in Hin as (m & [= <- <-] & _).
    split; cbn; split; (apply Qle_refl || done).
Qed.


(** Whatever the calls and whichever of them raise, the builder keeps the
    invariant and each calibrated flag is as the last [apply_calibration]
    set it. *)
Lemma catching_ok (ops : list op) (s : t) :
  builder_inv s ->
  builder_inv (fold_left (fun s o => (step_in_place s o).1) ops s) /\
  forall n d',
    _fingers (fold_left (fun s o => (step_in_place s o).1) ops s) !! n
    = Some d' ->
    exists d, _fingers s !! n = Some d /\
      calibrated d' = match last_calibration n ops with
                      | Some (lo, hi) => hi >? lo
                      | None => calibrated d
                      end.
Proof.
  revert s. induction ops as [|o ops IH]; intros s Hinv; cbn [fold_left].
  - split; [done|]. intros n d' H. eauto.
  - destruct (step_ok o s Hinv) as (Hinv1 & _ & Hc1).
    destruct (IH _ Hinv1) as (Hinv' & Hc').
    split; [done|].
    intros n d' Hd'. destruct (Hc' n d' Hd') as (d1 & Hd1 & E1).
    destruct (Hc1 n d1 Hd1) as (d & Hd & E).
    exists d. split; [done|]. rewrite E1. cbn [last_calibration].
    destruct (last_calibration n ops) as [[lo hi]|]; [done|].
    rewrite E. unfold calibrated_after.
    destruct o; try done. by case_bool_decide.
Qed.

Lemma run_catching_inv (ops : list op) : builder_inv (run_catching ops).
Proof. apply catching_ok, init_inv. Qed.


(** *** Calls with modest calibration bounds never raise *)

Lemma raw_position_step_modest (s : t) (item : string * pyfloat) :
  item.1 ∈ FINGER_NAMES ->
  builder_inv s /\ modest_windows s ->
  (builder_inv (raw_position_step s item).1 /\
   modest_windows (raw_position_step s item).1) /\
  (raw_position_step s item).2 = None.
Proof.
  destruct item as [n v]. cbn [fst]. intros Hn [Hinv Hm].
  destruct (raw_position_step_ok s s (n, v) Hn
              (conj Hinv (keeps_calibrated_refl s))) as [[Hinv' _] _].
  split; [split; [done|]|].
  - clear Hinv'. destruct (proj1 Hinv n Hn) as [d Hd].
    destruct (raw_position_step_cases s n v d Hd)
      as (d1 & raw & _ & H0 & H1 & Hd1 & Hcases).
    pose proof (tracked_modest (_calibrating s) raw d H0 H1 (Hm n d Hd)) as Hmd.
    rewrite <- Hd1 in Hmd.
    destruct Hcases as [(p & _ & _ & ->) | (_ & _ & ->)]; cbn [fst];
      by apply modest_windows_insert.
  - destruct (proj1 Hinv n Hn) as [d Hd].
    destruct (raw_position_step_cases s n v d Hd)
      as (d1 & raw & _ & H0 & H1 & Hd1 & Hcases).
    pose proof (tracked_modest (_calibrating s) raw d H0 H1 (Hm n d Hd)) as Hmd.
    rewrite <- Hd1 in Hmd.
    by destruct Hcases as [(p & _ & _ & ->) | (Hnot & _ & _)].
Qed.

Lemma raw_positions_modest (vs : list pyfloat) (s : t) :
  builder_inv s -> modest_windows s ->
  (builder_inv (_apply_raw_positions vs s).1 /\
   modest_windows (_apply_raw_positions vs s).1) /\
  (_apply_raw_positions vs s).2 = None.
Proof.
  intros Hinv Hm.
  apply (for_each_returns raw_position_step
           (fun s => builder_inv s /\ modest_windows s)
           (fun item => item.1 ∈ FINGER_NAMES)).
  - intros. by apply raw_position_step_modest.
  - apply zip_names_in.
  - done.
Qed.

Lemma finger_positions_windows (vs : list pyfloat) (s : t) :
  modest_windows s -> modest_windows (_apply_finger_positions vs s).1.
Proof.
  intros Hm.
  apply (for_each_inv finger_position_step modest_windows
           (fun _ => True) (fun _ => True)); [|by apply Forall_forall|done].
  intros s1 [n v] _ H1. split; [|done].
  unfold finger_position_step, get_finger.
  destruct (_fingers s1 !! n) as [d|] eqn:Hd; cbn [fst]; [|done].
  apply modest_windows_insert; [done|]. apply (H1 n d Hd).
Qed.

Lemma step_modest (o : op) (s : t) :
  (forall n lo hi, o = ApplyCalibration n lo hi -> modest lo /\ modest hi) ->
  builder_inv s -> modest_windows s ->
  modest_windows (step_in_place s o).1 /\ (step_in_place s o).2 = None.
Proof.
  intros Ho Hinv Hm. destruct o as [u|b|b|b|m b|m v|m lo hi];
    cbn [step_in_place fst snd]; try done.
  - unfold apply_in_place. destruct (update_type u).
    + split; [by apply finger_positions_windows
             | by apply finger_positions_return].
    + destruct (raw_positions_modest (values u) s Hinv Hm) as [[_ H1] H2]. done.
    + cbn [fst snd]. split; [|done].
      unfold _apply_imu_heading. repeat case_match; exact Hm.
  - split; [|done]. unfold set_calibrating. destruct b; [|done].
    intros n d. cbn. rewrite lookup_fmap.
    destruct (_fingers s !! n) as [d0|] eqn:Hd; [|done].
    intros [= <-]. cbn. split; by apply modest_in_range.
  - split; [|done]. unfold set_finger_enabled.
    destruct (_fingers s !! m) as [d|] eqn:Hd; [|done].
    apply modest_windows_insert; [done|]. apply (Hm m d Hd).
  - split; [|done]. unfold set_finger_setpoint.
    destruct (_fingers s !! m) as [d|] eqn:Hd; [|done].
    apply modest_windows_insert; [done|]. apply (Hm m d Hd).
  - split; [|done]. unfold apply_calibration.
    destruct (_fingers s !! m) as [d|] eqn:Hd; [|done].
    apply modest_windows_insert; [done|]. cbn. by apply (Ho m lo hi).
Qed.

Lemma init_modest : modest_windows init.
Proof.
  intros n d Hd.
  assert (Hin : (n, d) ∈ map (fun n => (n, initial_finger n)) FINGER_NAMES).
  { apply (elem_of_list_to_map_2 (M := gmap string)). exact Hd. }
  apply list_elem_of_In, in_map_iff in Hin as (m & [= <- <-] & _).
  cbn. split; by apply modest_in_range.
Qed.

(** With modest calibration bounds no call raises, and the windows stay
    modest. *)
Lemma modest_calls_return (ops : list op) (s : t) :
  modest_calibrations ops -> builder_inv s -> modest_windows s ->
  (for_each step_in_place ops s).2 = None /\
  modest_windows (for_each step_in_place ops s).1.
Proof.
  revert s. induction ops as [|o ops IH]; intros s Hops Hinv Hm;
    cbn [for_each]; [done|].
  destruct (step_ok o s Hinv) as (Hinv1 & _ & _).
  destruct (step_modest o s) as [Hm1 Hret]; [|done|done|].
  { intros n lo hi ->. apply (Hops n lo hi). apply list_elem_of_here. }
  destruct (step_in_place s o) as [s1 [e|]]; cbn [fst snd] in *; [done|].
  apply IH; [|done|done].
  intros n lo hi Hin. apply (Hops n lo hi). by apply list_elem_of_further.
Qed.

Lemma run_catching_modest (ops : list op) :
  modest_calibrations ops ->
  run ops = Ok (run_catching ops) /\ modest_windows (run_catching ops).
Proof.
  intros Hops.
  destruct (modest_calls_return ops init Hops init_inv init_modest)
    as [Hret Hm].
  pose proof (for_each_fold step_in_place ops init Hret) as Hfold.
  unfold run, run_catching. rewrite <- Hfold. split; [|done].
  destruct (for_each step_in_place ops init) as [s [e|]]; done.
Qed.

End StateBuilderFacts.



(** *** The raw-positions update, finger by finger *)

Section RawUpdateFacts.
Import StateBuilder.

Lemma zip_lookup {A B} (l : list A) (k : list B) (i : nat) (a : A) (b : B) :
  l !! i = Some a -> k !! i = Some b -> (a, b) ∈ zip l k.
Proof.
  unfold zip. revert k i. induction l as [|x l IH]; intros [|y k] [|i];
    cbn; try done.
  - intros [= ->] [= ->]. apply list_elem_of_here.
  - intros Ha Hb. apply list_elem_of_further. by apply (IH k i).
Qed.

Lemma zip_fst_NoDup {B} (l : list string) (k : list B) :
  NoDup l -> NoDup (zip l k).*1.
Proof.
  unfold zip. intros Hl. revert k. induction Hl as [|x l Hx Hl IH];
    intros [|y k]; cbn; try apply NoDup_nil_2.
  apply NoDup_cons_2; [|apply IH].
  intros Hin. apply Hx. apply list_elem_of_fmap in Hin as ([a b] & -> & Hab).
  apply list_elem_of_In, in_combine_l, list_elem_of_In in Hab. done.
Qed.

Lemma FINGER_NAMES_NoDup : NoDup FINGER_NAMES.
Proof. by apply (bool_decide_unpack _). Qed.

(** After a loop that returned, a finger that received a value holds its
    own share of the update, and the other fingers are as before. *)
Lemma raw_loop_lookup (items : list (string * pyfloat)) (s s' : t) :
  NoDup items.*1 ->
  for_each raw_position_step items s = (s', None) ->
  _calibrating s' = _calibrating s /\
  forall n d, _fingers s !! n = Some d ->
    (forall v, (n, v) ∈ items ->
       exists d', _fingers s' !! n = Some d' /\
                  raw_finger_update (_calibrating s) v d = Ok d') /\
    (n ∉ items.*1 -> _fingers s' !! n = Some d).
Proof.
  revert s. induction items as [|[m v0] items IH]; intros s Hnd Hrun.
  - cbn in Hrun. injection Hrun as <-. split; [done|].
    intros n d Hd. split; [|done]. intros v Hv. by apply elem_of_nil in Hv.
  - cbn [for_each] in Hrun. cbn in Hnd.
    apply NoDup_cons in Hnd as [Hm Hnd].
    destruct (_fingers s !! m) as [dm|] eqn:Hdm.
    2:{ unfold raw_position_step, get_finger in Hrun.
        rewrite Hdm in Hrun. done. }
    destruct (raw_position_step_cases s m v0 dm Hdm)
      as (d1 & raw & _ & _ & _ & _ & [(p & _ & Hup & Hstep) | (_ & _ & Hstep)]);
      rewrite Hstep in Hrun; [|done].
    set (dm' := set_position (Fin p) d1) in *.
    destruct (IH _ Hnd Hrun) as [Hc Hrest]. cbn in Hc.
    split; [done|]. intros n d Hd.
    destruct (decide (n = m)) as [->|Hne].
    + assert (d = dm) as -> by congruence.
      destruct (Hrest m dm') as [_ Hkeep]; [cbn; by rewrite lookup_insert_eq|].
      split.
      * intros v Hv. apply elem_of_cons in Hv as [[= ->]|Hv].
        -- exists dm'. split; [by apply Hkeep | done].
        -- exfalso. apply Hm. apply list_elem_of_fmap. by exists (m, v).
      * intros Hnot. exfalso. apply Hnot. cbn. apply list_elem_of_here.
    + destruct (Hrest n d) as [Hin Hout];
        [cbn; by rewrite lookup_insert_ne|].
      split.
      * intros v Hv. apply elem_of_cons in Hv as [[= -> ->]|Hv]; [done|].
        cbn in Hin. by apply Hin.
      * intros Hnot. apply Hout. intros Hin'. apply Hnot. cbn.
        by apply list_elem_of_further.
Qed.

(** One finger's share of the update, in the terms of the contract. *)
Lemma raw_finger_update_spec (s : t) (n : string) (v : pyfloat)
    (d d' : finger_data) :
  _fingers s !! n = Some d ->
  raw_finger_update (_calibrating s) v d = Ok d' ->
  exists raw p : Q,
    (raw == Qclamp_raw v)%Q /\ (0 <= raw)%Q /\ (raw <= inject_Z RAW_MAX)%Q /\
    (if _calibrating s
     then widened_by_truncation raw (raw_min d) (raw_max d)
            (raw_min d') (raw_max d')
     else raw_min d' = raw_min d /\ raw_max d' = raw_max d) /\
    position d' = Fin p /\
    (p == expected_position raw (calibrated d) (invert d)
            (raw_min d') (raw_max d'))%Q.
Proof.
  intros Hd Hup.
  destruct (raw_position_step_cases s n v d Hd)
    as (d1 & raw & Hraw & H0 & H1 & Hd1 & [(p & Hp & Hup' & _) | (_ & Hup' & _)]);
    rewrite Hup' in Hup; [|done].
  injection Hup as <-. exists raw, p.
  split; [done|]. split; [done|]. split; [done|].
  split; [|split; [done|exact Hp]].
  subst d1. unfold tracked. destruct (_calibrating s); cbn; done.
Qed.

End RawUpdateFacts.

(** C6 (as amended): a raw-positions update applied to the builder left by
    any sequence of calls.  When the update returns, then for each finger
    that receives a value: the value is clamped to [0, raw_ceiling]; in
    calibration mode the tracked raw minimum is replaced by the integer
    part of the clamped value when the value lies below it, and the
    tracked raw maximum likewise when the value lies above it, so that the
    new window contains the old one and the integer part of the value; the
    stored position is [(raw - raw_min)/(raw_max - raw_min)] clamped to
    [0,1], or one minus that for an inverted finger, when the finger is
    calibrated and [raw_max > raw_min], and [raw / raw_ceiling] otherwise.
    The update returns whenever the calibration bounds given to the
    builder are modest; when it does not return it raises [OverflowError],
    as it does for the values [1.0, 1.0] after
    [apply_calibration("index", 0, 10**400)], where the position of the
    index finger divides by a width that has no float. *)
Theorem raw_update_obeys_contract :
  (forall (ops : list StateBuilder.op) (vs : list pyfloat)
          (s' : StateBuilder.t),
     StateBuilder.apply (mkStateUpdate RAW_POSITIONS vs)
       (StateBuilder.run_catching ops) = Ok s' ->
     raw_update_contract widened_by_truncation
       (StateBuilder.run_catching ops) vs s' /\
     raw_update_contract
       (fun raw lo hi lo' hi' =>
          lo' <= lo /\ hi <= hi' /\ lo' <= Qtrunc raw <= hi')
       (StateBuilder.run_catching ops) vs s') /\
  (forall (ops : list StateBuilder.op) (vs : list pyfloat),
     modest_calibrations ops ->
     exists s' : StateBuilder.t,
       StateBuilder.apply (mkStateUpdate RAW_POSITIONS vs)
         (StateBuilder.run_catching ops) = Ok s') /\
  (forall (ops : list StateBuilder.op) (vs : list pyfloat) (e : exn),
     StateBuilder.apply (mkStateUpdate RAW_POSITIONS vs)
       (StateBuilder.run_catching ops) = Raise e ->
     e = OverflowError) /\
  StateBuilder.apply (mkStateUpdate RAW_POSITIONS [Fin 1; Fin 1])
    (StateBuilder.run_catching huge_calibration)
  = Raise OverflowError.
Proof.
  split; [|split; [|split; [|by vm_compute]]].
  - intros ops vs s' Happ.
    set (s := StateBuilder.run_catching ops) in *.
    unfold StateBuilder.apply in Happ.
    apply uncaught_Ok in Happ. cbn in Happ.
    unfold StateBuilder._apply_raw_positions in Happ.
    destruct (raw_loop_lookup _ s s'
                (zip_fst_NoDup FINGER_NAMES vs FINGER_NAMES_NoDup) Happ)
      as [_ Hfingers].
    assert (Hshare : forall i n v d,
               FINGER_NAMES !! i = Some n -> vs !! i = Some v ->
               StateBuilder._fingers s !! n = Some d ->
               exists d', StateBuilder._fingers s' !! n = Some d' /\
                 raw_finger_update (StateBuilder._calibrating s) v d = Ok d').
    { intros i n v d Hn Hv Hd. destruct (Hfingers n d Hd) as [Hin _].
      apply Hin. by apply zip_lookup with i. }
    split.
    + intros i n v d Hn Hv Hd.
      destruct (Hshare i n v d Hn Hv Hd) as (d' & Hd' & Hup).
      destruct (raw_finger_update_spec s n v d d' Hd Hup)
        as (raw & p & Hraw & H0 & H1 & Hw & Hp & Hpv).
      exists d', raw, p. done.
    + intros i n v d Hn Hv Hd.
      destruct (Hshare i n v d Hn Hv Hd) as (d' & Hd' & Hup).
      destruct (raw_finger_update_spec s n v d d' Hd Hup)
        as (raw & p & Hraw & H0 & H1 & Hw & Hp & Hpv).
      exists d', raw, p. repeat (split; [done|]). split; [|done].
      destruct (StateBuilder._calibrating s); [|done].
      by apply widened_by_truncation_bounds.
  - intros ops vs Hops. destruct (run_catching_modest ops Hops) as [_ Hm].
    destruct (raw_positions_modest vs _ (run_catching_inv ops) Hm)
      as [_ Hret].
    unfold StateBuilder.apply, StateBuilder.apply_in_place.
    cbn [update_type values].
    destruct (StateBuilder._apply_raw_positions vs _) as [s' [e|]];
      [done | by exists s'].
  - intros ops vs e. unfold StateBuilder.apply. rewrite uncaught_Raise.
    apply (apply_ok (mkStateUpdate RAW_POSITIONS vs) _ (run_catching_inv ops)).
Qed.

(** C6 as stated fails for a raw value that is not an integer: in calibration
    mode the raw value 100.5 sets the thumb's tracked maximum to 100, so the
    window does not include the clamped value. *)
Lemma raw_window_excludes_fractional_value :
  ~ exists s',
      StateBuilder.apply (mkStateUpdate RAW_POSITIONS raw_values_example)
        (StateBuilder.set_calibrating true StateBuilder.init) = Ok s' /\
      raw_update_contract widened_to_include
        (StateBuilder.set_calibrating true StateBuilder.init)
        raw_values_example s'.
Proof.
  intros (s' & Happ & Hc).
  assert (Hd : exists d,
             StateBuilder._fingers
               (StateBuilder.set_calibrating true StateBuilder.init)
               !! "thumb"%string = Some d) by (vm_compute; eauto).
  destruct Hd as [d Hd].
  destruct (Hc 0%nat "thumb"%string (Fin (201 # 2)) d eq_refl eq_refl Hd)
    as (d' & raw & p & Hd' & Hraw & _ & _ & Hw & _).
  assert (Hmax : StateBuilder.raw_max d' = 100).
  { vm_compute in Happ. injection Happ as <-.
    vm_compute in Hd'. injection Hd' as <-. reflexivity. }
  cbn in Hw. destruct Hw as (_ & _ & _ & Hle).
  rewrite Hmax, Hraw in Hle. vm_compute in Hle. by apply Hle.
Qed.

(** ** Text operations *)

Section StrFacts.

Lemma drop_while_idem {A} (p : A -> bool) (l : list A) :
  drop_while p (drop_while p l) = drop_while p l.
Proof.
  induction l as [|x l IH]; [done|]. cbn.
  destruct (p x) eqn:E; [done|]. cbn. by rewrite E.
Qed.

Lemma drop_while_head {A} (p : A -> bool) (l : list A) :
  drop_while p l = [] \/
  exists x r, drop_while p l = x :: r /\ p x = false.
Proof.
  induction l as [|x l IH]; [by left|]. cbn.
  destruct (p x) eqn:E; [done|]. right. eauto.
Qed.

Lemma drop_while_app_keep {A} (p : A -> bool) (r t : list A) (c : A) :
  p c = false -> drop_while p (r ++ c :: t) = drop_while p r ++ c :: t.
Proof.
  intros Hc. induction r as [|x r IH]; cbn; [by rewrite Hc|].
  by destruct (p x).
Qed.

Lemma rstrip_by_cons_keep (p : ascii -> bool) (c : ascii) (t : str) :
  p c = false -> rstrip_by p (c :: t) = c :: rstrip_by p t.
Proof.
  intros Hc. unfold rstrip_by. cbn.
  rewrite (drop_while_app_keep p (rev t) [] c Hc).
  by rewrite rev_app_distr.
Qed.

Lemma rstrip_by_idem (p : ascii -> bool) (s : str) :
  rstrip_by p (rstrip_by p s) = rstrip_by p s.
Proof.
  unfold rstrip_by. by rewrite rev_involutive, drop_while_idem.
Qed.

Lemma str_strip_idem (s : str) : str_strip (str_strip s) = str_strip s.
Proof.
  unfold str_strip, lstrip_by.
  destruct (drop_while_head is_space s) as [-> | (x & r & -> & Hx)]; [done|].
  rewrite rstrip_by_cons_keep by done. cbn [drop_while]. rewrite Hx.
  rewrite <- (rstrip_by_cons_keep is_space x r Hx).
  apply rstrip_by_idem.
Qed.

Lemma str_replace_first_prefix (old s : str) :
  str_startswith old s = true ->
  str_replace_first old [] s = drop (length old) s.
Proof.
  intros H. destruct s; cbn; by rewrite H.
Qed.

Lemma str_split_separators (s : str) :
  str_split "," (str_replace_char ";" "," s) = split_separators s.
Proof.
  induction s as [|c s IH]; [done|]. unfold str_replace_char in *.
  cbn [map str_split split_separators].
  destruct (bool_decide (c = ";"%char)) eqn:E1.
  - rewrite orb_true_r, <- IH. reflexivity.
  - rewrite orb_false_r, IH. reflexivity.
Qed.

Lemma startswith_raw_is_stream (s : str) :
  str_startswith (of_string "STREAM_RAW") s = true ->
  str_startswith (of_string "STREAM") s = true.
Proof.
  unfold str_startswith. rewrite !bool_decide_eq_true.
  intros [k ->]. by exists (of_string "_RAW" ++ k).
Qed.

Lemma startswith_imu_not_stream (s : str) :
  str_startswith (of_string "STRIMU") s = true ->
  str_startswith (of_string "STREAM") s = false.
Proof.
  unfold str_startswith. rewrite bool_decide_eq_true, bool_decide_eq_false.
  intros [k ->] [k' Hk]. discriminate.
Qed.

End StrFacts.

(** ** ProtocolParser *)

Section ParserFacts.
Import ProtocolParser.

Lemma py_float_raises (s : str) (e : exn) :
  py_float s = Raise e -> e = ValueError.
Proof.
  unfold py_float.
  destruct (match str_strip s with
            | "-"%char :: t => (true, t)
            | "+"%char :: t => (false, t)
            | _ => (false, str_strip s)
            end) as [neg body].
  repeat case_match; congruence.
Qed.

Lemma csv_tokens_numbers (tokens : list str) (acc : list pyfloat) :
  csv_tokens tokens acc
  = Ok match numbers_of (filter (fun t => non_empty t) (map str_strip tokens)) with
       | Some vs => acc ++ vs
       | None => []
       end.
Proof.
  revert acc. induction tokens as [|t tokens IH]; intros acc;
    cbn [csv_tokens map].
  - cbn. by rewrite app_nil_r.
  - destruct (str_strip t) as [|c t'] eqn:Et.
    + rewrite filter_cons_False by (cbn; tauto). apply IH.
    + rewrite filter_cons_True by (cbn; tauto). cbn [numbers_of].
      destruct (py_float (c :: t')) as [v|e] eqn:Ef.
      * rewrite IH.
        destruct (numbers_of _) as [vs|]; cbn; [|done].
        by rewrite <- app_assoc.
      * by rewrite (py_float_raises _ _ Ef).
Qed.

Lemma parse_csv_numbers (payload : str) :
  _parse_csv (str_strip payload)
  = Ok match payload_numbers payload with Some vs => vs | None => [] end.
Proof.
  unfold _parse_csv, payload_numbers, payload_tokens. rewrite str_strip_idem.
  destruct (str_rstrip ">" (str_lstrip "<" (str_strip payload)))
    as [|c body] eqn:Eb; [done|].
  rewrite str_split_separators, csv_tokens_numbers.
  by destruct (numbers_of _).
Qed.

Lemma frame_spec (keyword : string) (ty : UpdateType) (arity : nat) (line : str) :
  str_startswith (of_string keyword) line = true ->
  arity <> 0%nat ->
  frame keyword ty arity line
  = Ok match payload_numbers (drop (String.length keyword) line) with
       | Some vs =>
           if (length vs =? arity)%nat then Some (mkStateUpdate ty vs) else None
       | None => None
       end.
Proof.
  intros Hpre Har. unfold frame.
  rewrite str_replace_first_prefix by done.
  replace (length (of_string keyword)) with (String.length keyword).
  2:{ unfold of_string. clear. induction keyword; cbn; congruence. }
  rewrite parse_csv_numbers. cbn [mbind result_bind].
  destruct (payload_numbers _) as [vs|].
  - by destruct (length vs =? arity)%nat.
  - cbn. by destruct arity.
Qed.

(** The chain of [startswith] tests picks the longest matching keyword. *)
Lemma parse_line_refines (line : string) :
  parse_line line = Ok (spec_parse_line line).
Proof.
  unfold parse_line, spec_parse_line, longest_keyword.
  generalize (str_strip (of_string line)). intros l.
  cbn [fold_left KEYWORDS fst snd].
  destruct (str_startswith (of_string "STRIMU") l) eqn:Eimu.
  - rewrite (startswith_imu_not_stream l Eimu).
    destruct (str_startswith (of_string "STREAM_RAW") l) eqn:Eraw.
    { apply startswith_raw_is_stream in Eraw.
      rewrite (startswith_imu_not_stream l Eimu) in Eraw. done. }
    destruct l as [|c l']; [discriminate Eimu|].
    rewrite frame_spec by done. reflexivity.
  - destruct (str_startswith (of_string "STREAM_RAW") l) eqn:Eraw.
    + rewrite (startswith_raw_is_stream l Eraw).
      destruct l as [|c l']; [discriminate Eraw|].
      rewrite frame_spec by done. reflexivity.
    + destruct (str_startswith (of_string "STREAM") l) eqn:Efin.
      * destruct l as [|c l']; [discriminate Efin|].
        rewrite frame_spec by done. reflexivity.
      * by destruct l.
Qed.

Lemma longest_keyword_chain (l : str) :
  longest_keyword l =
  if str_startswith (of_string "STRIMU") l
  then Some ("STRIMU"%string, IMU_HEADING, 3%nat)
  else if str_startswith (of_string "STREAM_RAW") l
  then Some ("STREAM_RAW"%string, RAW_POSITIONS, 5%nat)
  else if str_startswith (of_string "STREAM") l
  then Some ("STREAM"%string, FINGER_POSITIONS, 5%nat)
  else None.
Proof.
  unfold longest_keyword. cbn [fold_left KEYWORDS fst snd].
  destruct (str_startswith (of_string "STRIMU") l) eqn:Eimu.
  - rewrite (startswith_imu_not_stream l Eimu).
    destruct (str_startswith (of_string "STREAM_RAW") l) eqn:Eraw; [|done].
    apply startswith_raw_is_stream in Eraw.
    rewrite (startswith_imu_not_stream l Eimu) in Eraw. done.
  - destruct (str_startswith (of_string "STREAM_RAW") l) eqn:Eraw.
    + by rewrite (startswith_raw_is_stream l Eraw).
    + by destruct (str_startswith (of_string "STREAM") l).
Qed.

Lemma numbers_of_Some (ts : list str) (vs : list pyfloat) :
  numbers_of ts = Some vs ->
  Forall2 (fun t v => py_float t = Ok v) ts vs.
Proof.
  revert vs. induction ts as [|t ts IH]; intros vs; cbn.
  - intros [= <-]. constructor.
  - destruct (py_float t) as [v|e] eqn:Ef; [|done].
    destruct (numbers_of ts) as [vs'|]; [|done].
    intros [= <-]. constructor; [done | by apply IH].
Qed.

Lemma numbers_of_raise (ts : list str) (t : str) (e : exn) :
  t ∈ ts -> py_float t = Raise e -> numbers_of ts = None.
Proof.
  intros Hin Hf. induction Hin as [t ts | t t' ts Hin IH]; cbn.
  - by rewrite Hf.
  - destruct (py_float t') as [v|e']; [|done]. by rewrite IH.
Qed.

End ParserFacts.

(** C7: [parse_line] never raises and returns what the line grammar of the
    specification gives: the line is trimmed, the longest of the three
    keywords that is a prefix of it selects the kind (so a line starting with
    the raw-positions keyword is never a finger-positions update), the
    enclosing angle brackets are stripped, the payload is cut at commas and
    semicolons, and an update is returned only when every token is a number
    and their count is 5 for the two position kinds and 3 for orientation;
    its values are then the numbers of the tokens, in order.  A token that
    is not a number, a wrong count or an unknown keyword gives no update.
    The two examples of the specification are included. *)
Theorem parse_line_grammar (line : string) :
  ProtocolParser.parse_line line = Ok (spec_parse_line line) /\
  ProtocolParser.parse_line (trimmed line) = ProtocolParser.parse_line line /\
  (forall u, ProtocolParser.parse_line line = Ok (Some u) ->
     length (values u) = arity_of (update_type u) /\
     Forall2 (fun t v => py_float t = Ok v) (line_tokens line) (values u) /\
     (str_startswith (of_string "STREAM_RAW") (str_strip (of_string line)) = true ->
      update_type u = RAW_POSITIONS) /\
     (update_type u = FINGER_POSITIONS ->
      str_startswith (of_string "STREAM") (str_strip (of_string line)) = true /\
      str_startswith (of_string "STREAM_RAW") (str_strip (of_string line)) = false)) /\
  (forall t e, t ∈ line_tokens line -> py_float t = Raise e ->
     ProtocolParser.parse_line line = Ok None) /\
  (longest_keyword (str_strip (of_string line)) = None ->
   ProtocolParser.parse_line line = Ok None) /\
  ProtocolParser.parse_line "STREAM 0.1,0.2,0.3,0.4,0.5"
  = Ok (Some (mkStateUpdate FINGER_POSITIONS
                [Fin (1 # 10); Fin (1 # 5); Fin (3 # 10); Fin (2 # 5); Fin (1 # 2)])) /\
  ProtocolParser.parse_line "STREAM 0.1,0.2,0.3" = Ok None /\
  ProtocolParser.parse_line "STREAM <0.5,0.6,0.7,0.8,0.9>"
  = Ok (Some (mkStateUpdate FINGER_POSITIONS
                [Fin (1 # 2); Fin (3 # 5); Fin (7 # 10); Fin (4 # 5); Fin (9 # 10)])) /\
  ProtocolParser.parse_line "STRIMU 1.0;2.0;3.0"
  = Ok (Some (mkStateUpdate IMU_HEADING [Fin 1; Fin 2; Fin 3])).
Proof.
  split; [apply parse_line_refines|].
  split.
  { rewrite !parse_line_refines. f_equal. unfold spec_parse_line, trimmed, of_string.
    by rewrite list_ascii_of_string_of_list_ascii, str_strip_idem. }
  split.
  { intros u. rewrite parse_line_refines. intros [= Hu].
    unfold spec_parse_line in Hu. unfold line_tokens.
    rewrite longest_keyword_chain in *.
    destruct (str_startswith (of_string "STRIMU") _) eqn:Eimu;
      [|destruct (str_startswith (of_string "STREAM_RAW") _) eqn:Eraw;
        [|destruct (str_startswith (of_string "STREAM") _) eqn:Efin; [|done]]];
      unfold payload_numbers in Hu;
      destruct (numbers_of _) as [vs|] eqn:Env; try done;
      apply numbers_of_Some in Env;
      destruct (Nat.eqb_spec (length vs) 3); try done;
      destruct (Nat.eqb_spec (length vs) 5); try done;
      injection Hu as <-; cbn [update_type values arity_of];
      repeat split; try done; try lia.
    intros Hraw. apply startswith_raw_is_stream in Hraw.
    apply startswith_imu_not_stream in Eimu. congruence. }
  split.
  { intros t e Hin Hf. rewrite parse_line_refines. f_equal.
    unfold spec_parse_line. unfold line_tokens in Hin.
    destruct (longest_keyword _) as [[[kw ty] ar]|]; [|done].
    unfold payload_numbers. by rewrite (numbers_of_raise _ t e Hin Hf). }
  split.
  { intros Hnone. rewrite parse_line_refines. unfold spec_parse_line.
    by rewrite Hnone. }
  repeat split; by vm_compute.
Qed.

(** ** Status frames in a byte buffer *)

Section FrameFacts.
Implicit Types p b rest : list byte.

(** An occurrence in a segment of [l] is an occurrence in [l]. *)
Lemma occurs_in_segment (sub l : list byte) (i n k : nat) :
  sub <> [] ->
  starts_with sub (drop k (drop i (take n l))) = true ->
  starts_with sub (drop (i + k) l) = true /\ (i + k + length sub <= n)%nat.
Proof.
  intros Hsub. rewrite drop_drop, !starts_with_prefix. intros [r Hr].
  assert (Hlen : (i + k + length sub <= Nat.min n (length l))%nat).
  { apply (f_equal length) in Hr.
    rewrite length_drop, length_take, length_app in Hr.
    destruct sub; [done|]. cbn in *. lia. }
  split; [|lia].
  exists (r ++ drop n l).
  rewrite <- (take_drop n l) at 1.
  rewrite drop_app_le by (rewrite length_take; lia).
  by rewrite Hr, <- app_assoc.
Qed.

Lemma END_not_nil : ESC_STATUS_END <> [].
Proof. done. Qed.

Lemma START_not_nil : ESC_STATUS_START <> [].
Proof. done. Qed.

Lemma length_START : length ESC_STATUS_START = 19%nat.
Proof. reflexivity. Qed.

Lemma length_frame p : length (status_frame p) = (19 + length p + 2)%nat.
Proof. unfold status_frame. rewrite !length_app. cbn. lia. Qed.

(** Inside the payload, and at its last byte, no end marker begins, as
    long as what follows the payload does not begin with the second byte
    of the marker. *)
Lemma end_not_in_payload p (y : list byte) (k : nat) :
  marker_free p -> head y <> Some x34 -> (k < length p)%nat ->
  starts_with ESC_STATUS_END (drop k (p ++ y)) = false.
Proof.
  intros Hfree Hy Hk. rewrite drop_app_le by lia.
  specialize (Hfree k). unfold occurs_at in Hfree.
  destruct (drop k p) as [|a t] eqn:Ed.
  { apply (f_equal length) in Ed. rewrite length_drop in Ed. cbn in Ed. lia. }
  destruct t as [|c t].
  - destruct y as [|c y]; cbn; [by rewrite andb_false_r|].
    destruct (byte_eqb x34 c) eqn:E; [|by rewrite andb_false_r].
    apply byte_eqb_eq in E as <-. cbn in Hy. done.
  - cbn in *. by destruct (byte_eqb xff a && (byte_eqb x34 c && true)).
Qed.

(** The start marker occurs in a frame at its beginning only. *)
Lemma start_only_at_0 p (j : nat) :
  marker_free p ->
  starts_with ESC_STATUS_START (drop j (status_frame p)) = true -> j = 0%nat.
Proof.
  intros Hfree H. destruct (decide (j < 19)%nat) as [Hlt|Hge].
  - unfold status_frame in H. rewrite drop_app_le in H by (cbn; lia).
    do 19 (destruct j as [|j]; [try done; cbn in H; discriminate H|]). lia.
  - exfalso. assert (Hj : (19 <= j)%nat) by lia.
    apply starts_with_prefix in H as [r Hr].
    assert (Hlen : (j + 19 <= 19 + length p + 2)%nat).
    { apply (f_equal length) in Hr.
      rewrite length_drop, length_frame, length_app in Hr. cbn in Hr. lia. }
    assert (He : starts_with ESC_STATUS_END (drop (j - 19) (p ++ ESC_STATUS_END))
                 = true).
    { apply starts_with_prefix.
      exists (list_byte_of_string "[STATUS_RESPONSE]" ++ r).
      replace (drop (j - 19) (p ++ ESC_STATUS_END))
        with (drop j (status_frame p)).
      - rewrite Hr. reflexivity.
      - unfold status_frame.
        rewrite drop_app_ge by (cbn; lia). f_equal. }
    rewrite end_not_in_payload in He; [done | done | done | lia].
Qed.

Lemma find_start_at_0 rest :
  bytes_find ESC_STATUS_START (ESC_STATUS_START ++ rest) 0 = 0.
Proof.
  unfold bytes_find. cbn [Z.to_nat]. rewrite drop_0.
  rewrite (find_at_first _ _ 0 0); [done| |lia].
  rewrite drop_0. apply starts_with_app.
Qed.

Lemma find_end_after_payload p rest :
  marker_free p ->
  bytes_find ESC_STATUS_END (ESC_STATUS_START ++ p ++ ESC_STATUS_END ++ rest) 19
  = 19 + Z.of_nat (length p).
Proof.
  intros Hfree. unfold bytes_find.
  replace (Z.to_nat 19) with (length ESC_STATUS_START) by reflexivity.
  rewrite drop_app_length.
  apply find_at_first.
  - rewrite drop_app_length. apply starts_with_app.
  - intros j Hj. by apply end_not_in_payload.
Qed.

(** A complete frame at the head of the buffer is taken out, and its
    payload is what is parsed. *)
Lemma full_frame_extract (now : pyfloat) p rest :
  marker_free p ->
  StatusMonitor._try_extract_status now (status_frame p ++ rest)
  = (rest, parse_status_json now p).
Proof.
  intros Hfree. unfold StatusMonitor._try_extract_status, status_frame.
  rewrite <- !app_assoc, find_start_at_0.
  cbn [Z.eqb]. rewrite length_START.
  change (0 + Z.of_nat 19) with 19.
  rewrite find_end_after_payload by done.
  destruct (Z.eqb_spec (19 + Z.of_nat (length p)) (-1)) as [Hneg|_]; [lia|].
  set (B := ESC_STATUS_START ++ p ++ ESC_STATUS_END ++ rest).
  assert (HB : length B = (19 + length p + 2 + length rest)%nat).
  { subst B. rewrite !length_app. cbn. lia. }
  f_equal.
  - unfold slice_from. rewrite slice_index_nonneg by lia.
    change (length ESC_STATUS_END) with 2%nat.
    rewrite Nat.min_l by lia. subst B.
    replace (Z.to_nat (19 + Z.of_nat (length p) + Z.of_nat 2))
      with (length (ESC_STATUS_START ++ p ++ ESC_STATUS_END))
      by (rewrite !length_app; cbn; lia).
    replace (ESC_STATUS_START ++ p ++ ESC_STATUS_END ++ rest)
      with ((ESC_STATUS_START ++ p ++ ESC_STATUS_END) ++ rest)
      by (by rewrite <- !app_assoc).
    apply drop_app_length.
  - f_equal. unfold slice. rewrite !slice_index_nonneg by lia.
    rewrite !Nat.min_l by lia. subst B.
    replace (Z.to_nat (19 + Z.of_nat (length p)))
      with (length (ESC_STATUS_START ++ p))
      by (rewrite !length_app; cbn; lia).
    replace (ESC_STATUS_START ++ p ++ ESC_STATUS_END ++ rest)
      with ((ESC_STATUS_START ++ p) ++ ESC_STATUS_END ++ rest)
      by (by rewrite <- !app_assoc).
    rewrite take_app_length.
    replace (Z.to_nat 19) with (length ESC_STATUS_START) by reflexivity.
    apply drop_app_length.
Qed.

(** A window over a frame that is not the whole frame holds no complete
    frame: the scan returns nothing and leaves the buffer as it is. *)
Lemma segment_no_frame (now : pyfloat) p (pos : nat) :
  marker_free p ->
  (pos < length (status_frame p) \/
   Z.to_nat StatusMonitor.MAX_BUFFER_SIZE < pos)%nat ->
  StatusMonitor._try_extract_status now (segment (status_frame p) pos)
  = (segment (status_frame p) pos, Ok None).
Proof.
  intros Hfree Hpos. unfold StatusMonitor._try_extract_status, bytes_find.
  cbn [Z.to_nat]. rewrite drop_0.
  destruct (find_at_spec ESC_STATUS_START (segment (status_frame p) pos) 0)
    as [[-> _] | (k & -> & _ & Hocc & _)]; [done|].
  unfold segment in Hocc.
  apply occurs_in_segment in Hocc as [Hocc Hlen]; [|apply START_not_nil].
  apply start_only_at_0 in Hocc; [|done].
  assert (k = 0%nat) as -> by lia.
  assert (Hseg : segment (status_frame p) pos = take pos (status_frame p)).
  { unfold segment. replace (pos - _)%nat with 0%nat by lia. apply drop_0. }
  rewrite Hseg, length_START.
  change (0 + Z.of_nat 0 + Z.of_nat 19) with 19.
  change (0 + Z.of_nat 0 =? -1) with false. cbv iota.
  change (Z.to_nat 19) with 19%nat.
  destruct (find_at_spec ESC_STATUS_END (drop 19 (take pos (status_frame p))) 19)
    as [[-> _] | (k' & _ & _ & Hocc' & _)]; [done|].
  exfalso.
  apply occurs_in_segment in Hocc' as [Hocc' Hlen']; [|apply END_not_nil].
  rewrite length_frame in Hpos. cbn in Hlen'.
  unfold status_frame in Hocc'.
  rewrite drop_app_ge in Hocc' by (cbn; lia).
  replace (19 + k' - length ESC_STATUS_START)%nat with k' in Hocc'
    by (cbn; lia).
  rewrite end_not_in_payload in Hocc'; [done | done | done | lia].
Qed.

End FrameFacts.

(** ** StatusMonitor *)

Section MonitorFacts.
Import StatusMonitor.
Implicit Types p c : list byte.

Lemma MAX_nonneg : Z.of_nat (Z.to_nat MAX_BUFFER_SIZE) = MAX_BUFFER_SIZE.
Proof. apply Z2Nat.id. done. Qed.

(** Appending a chunk and trimming moves the window forward. *)
Lemma trim_segment (data : list byte) (pos : nat) c :
  (pos <= length data)%nat ->
  take (pos + length c) data = take pos data ++ c ->
  _trim_buffer (segment data pos ++ c) = segment data (pos + length c).
Proof.
  intros Hpos Htake. unfold segment, _trim_buffer.
  pose proof MAX_nonneg as HM.
  assert (Hpos' : 0 < MAX_BUFFER_SIZE) by done.
  generalize dependent (Z.to_nat MAX_BUFFER_SIZE). intros M HM.
  assert (Hc : (pos + length c <= length data)%nat).
  { apply (f_equal length) in Htake.
    rewrite length_take, length_app, length_take in Htake. lia. }
  rewrite <- (drop_app_le (take pos data) c (pos - M))
    by (rewrite length_take; lia).
  rewrite <- Htake.
  set (Y := take (pos + length c) data).
  assert (HY : length Y = (pos + length c)%nat)
    by (subst Y; rewrite length_take; lia).
  destruct (Z.leb_spec (Z.of_nat (length (drop (pos - M) Y))) MAX_BUFFER_SIZE)
    as [Hle|Hgt]; rewrite length_drop, HY in *.
  - f_equal. lia.
  - unfold slice_from. rewrite slice_index_neg by lia.
    rewrite drop_drop, length_drop, HY. f_equal. lia.
Qed.

Lemma extract_loop_no_frame (fuel : nat) (now : pyfloat) (m : t)
    (acc : list DongleStatus) :
  _try_extract_status now (_buffer m) = (_buffer m, Ok None) ->
  extract_loop (S fuel) now m acc = Some (mkOutcome m acc None).
Proof. intros H. cbn [extract_loop]. rewrite H. by destruct m. Qed.

Lemma try_extract_empty (now : pyfloat) :
  _try_extract_status now [] = ([], Ok None).
Proof. reflexivity. Qed.

(** An empty chunk arriving at an empty buffer changes nothing. *)
Lemma deliver_empty_chunks (items : list (pyfloat * list byte)) (m : t) :
  concat items.*2 = [] -> _buffer m = [] ->
  deliver items m = Some (m, [], []).
Proof.
  revert m. induction items as [|[now c] items IH]; intros m Hcat Hbuf;
    [done|].
  destruct m as [b l]. cbn in Hbuf. subst b.
  cbn in Hcat. apply app_eq_nil in Hcat as [-> Hcat].
  cbn [deliver]. unfold _process_chunk. cbn [_buffer _latest_status app].
  change (_trim_buffer []) with (@nil byte).
  rewrite extract_loop_no_frame by apply try_extract_empty.
  cbn [mbind option_bind monitor notified raised].
  rewrite (IH (mk [] l) Hcat eq_refl). reflexivity.
Qed.

(** The whole frame in an empty buffer: the frame is taken out and its
    payload decides what is notified. *)
Lemma process_whole_frame (now : pyfloat) p (fuel : nat) :
  marker_free p ->
  extract_loop (S (S fuel)) now (mk (status_frame p) None) []
  = Some match parse_status_json now p with
         | Ok (Some s) => mkOutcome (mk [] (Some s)) [s] None
         | Ok None => mkOutcome (mk [] None) [] None
         | Raise e => mkOutcome (mk [] None) [] (Some e)
         end.
Proof.
  intros Hfree. cbn [extract_loop _buffer _latest_status].
  rewrite <- (app_nil_r (status_frame p)), full_frame_extract by done.
  destruct (parse_status_json now p) as [[s|]|e]; try done.
Qed.

Lemma parse_time_independent (now1 now2 : pyfloat) p :
  match parse_status_json now1 p, parse_status_json now2 p with
  | Ok (Some s1), Ok (Some s2) => without_time s1 = without_time s2
  | Ok None, Ok None => True
  | Raise e1, Raise e2 => e1 = e2
  | _, _ => False
  end.
Proof.
  unfold parse_status_json.
  destruct (text_strip (decode_utf8_ignore p)) as [|c s]; [done|].
  destruct (Json.loads (c :: s)) as [data|]; [|done].
  by destruct data.
Qed.

Lemma frame_result_same (now1 now2 : pyfloat) p :
  same_delivery (frame_result now1 p) (frame_result now2 p).
Proof.
  unfold frame_result. pose proof (parse_time_independent now1 now2 p) as H.
  destruct (parse_status_json now1 p) as [[s1|]|e1];
    destruct (parse_status_json now2 p) as [[s2|]|e2]; try done; cbn.
  - by rewrite H.
  - by subst.
Qed.

(** Chunks that together make up one frame, arriving at a monitor that
    holds the first [pos] bytes of it: either the frame is longer than the
    buffer and nothing is ever notified, or the chunk that completes the
    frame gives the result of the frame. *)
Lemma deliver_frame p (items : list (pyfloat * list byte)) (pos : nat) :
  marker_free p ->
  (pos <= length (status_frame p))%nat ->
  take pos (status_frame p) ++ concat items.*2 = status_frame p ->
  (pos < length (status_frame p) \/
   Z.to_nat MAX_BUFFER_SIZE < length (status_frame p))%nat ->
  ((Z.to_nat MAX_BUFFER_SIZE < length (status_frame p))%nat /\
   deliver items (mk (segment (status_frame p) pos) None)
   = Some (mk (segment (status_frame p) (length (status_frame p))) None, [], []))
  \/ ((length (status_frame p) <= Z.to_nat MAX_BUFFER_SIZE)%nat /\
      exists now,
        now ∈ items.*1 /\
        deliver items (mk (segment (status_frame p) pos) None)
        = Some (frame_result now p)).
Proof.
  intros Hfree. set (F := status_frame p).
  revert pos. induction items as [|[now c] items IH]; intros pos Hpos Hcat Hopen.
  - cbn [fmap list_fmap concat] in Hcat. rewrite app_nil_r in Hcat.
    assert (pos = length F) as ->.
    { apply (f_equal length) in Hcat. rewrite length_take in Hcat. lia. }
    left. split; [lia | done].
  - cbn [fmap list_fmap concat snd] in Hcat.
    assert (Htake : take (pos + length c) F = take pos F ++ c).
    { rewrite <- take_take_drop. f_equal.
      rewrite <- (take_drop pos F) in Hcat at 2.
      apply app_inv_head in Hcat. rewrite <- Hcat. by rewrite take_app_length. }
    assert (Hc : (pos + length c <= length F)%nat).
    { apply (f_equal length) in Htake.
      rewrite length_take, length_app, length_take in Htake. lia. }
    assert (Hcat' : take (pos + length c) F ++ concat items.*2 = F).
    { rewrite Htake, <- app_assoc. exact Hcat. }
    cbn [deliver]. unfold _process_chunk. cbn [_buffer _latest_status].
    rewrite trim_segment by done.
    destruct (decide (pos + length c < length F
                      \/ Z.to_nat MAX_BUFFER_SIZE < length F)%nat)
      as [Hopen'|Hdone].
    + rewrite extract_loop_no_frame.
      2:{ cbn [_buffer]. apply segment_no_frame; [done|].
          subst F. lia. }
      cbn [mbind option_bind monitor notified raised].
      destruct (IH (pos + length c)%nat Hc Hcat' Hopen')
        as [[Hbig ->] | [Hsmall (now' & Hin & ->)]].
      * left. done.
      * right. split; [done|]. exists now'.
        split; [by apply list_elem_of_further|].
        by destruct (frame_result now' p) as [[m ss] es].
    + assert (Hfull : (pos + length c)%nat = length F) by lia.
      assert (Hsmall : (length F <= Z.to_nat MAX_BUFFER_SIZE)%nat) by lia.
      right. split; [done|]. exists now. split; [apply list_elem_of_here|].
      assert (Hseg : segment F (pos + length c) = F).
      { unfold segment. rewrite Hfull, firstn_all.
        replace (length F - _)%nat with 0%nat by lia. apply drop_0. }
      rewrite Hseg.
      assert (Hfuel : exists fuel, length F = S fuel).
      { subst F. rewrite length_frame. eauto. }
      destruct Hfuel as [fuel ->].
      subst F. rewrite process_whole_frame by done.
      assert (Hrest : concat items.*2 = []).
      { rewrite Hfull, firstn_all in Hcat'.
        rewrite <- (app_nil_r (status_frame p)) in Hcat' at 2.
        by apply app_inv_head in Hcat'. }
      unfold frame_result.
      destruct (parse_status_json now p) as [[s|]|e];
        cbn [mbind option_bind monitor notified raised];
        by rewrite deliver_empty_chunks.
Qed.

End MonitorFacts.

(** C5: for a complete status frame whose payload does not contain the end
    marker, and for every way of cutting the frame into consecutive chunks,
    passing the chunks one at a time to [_process_chunk] of a fresh monitor
    ends like passing the whole frame as one chunk, and both end with what
    [parse_status_json] makes of the payload.  For a frame that fits the
    buffer the result is [frame_result]: the buffer is empty, and the
    payload's status is notified once and held as the latest status, or the
    payload is no JSON and nothing is notified, or the parser's exception
    leaves the call; the capture time is the reading of the clock at the
    chunk that completes the frame.  For a frame longer than the buffer
    both deliveries keep the last [MAX_BUFFER_SIZE] bytes and notify
    nothing.  So the two deliveries agree in the buffer, the exceptions and
    every parsed field of the statuses, and they are identical when the
    clock reads the same. *)
Theorem chunked_delivery_same_status
    (p : list byte) (items : list (pyfloat * list byte)) (t : pyfloat) :
  marker_free p ->
  concat items.*2 = status_frame p ->
  exists r1 r2,
    StatusMonitor.deliver items StatusMonitor.init = Some r1 /\
    StatusMonitor.deliver [(t, status_frame p)] StatusMonitor.init = Some r2 /\
    same_delivery r1 r2 /\
    ((forall now, now ∈ items.*1 -> now = t) -> r1 = r2) /\
    ((length (status_frame p) <= Z.to_nat StatusMonitor.MAX_BUFFER_SIZE)%nat ->
     r2 = frame_result t p /\
     exists now, now ∈ items.*1 /\ r1 = frame_result now p) /\
    ((Z.to_nat StatusMonitor.MAX_BUFFER_SIZE < length (status_frame p))%nat ->
     r1 = r2 /\
     r2 = (StatusMonitor.mk
             (segment (status_frame p) (length (status_frame p))) None,
           [], [])).
Proof.
  intros Hfree Hcat.
  assert (Hlen : (0 < length (status_frame p))%nat)
    by (rewrite length_frame; lia).
  destruct (deliver_frame p items 0 Hfree ltac:(lia) Hcat ltac:(lia))
    as [[Hbig H1] | [Hsmall (now1 & Hin1 & H1)]];
    destruct (deliver_frame p [(t, status_frame p)] 0 Hfree ltac:(lia)
                ltac:(cbn [fmap list_fmap concat snd take app];
                      by rewrite app_nil_r) ltac:(lia))
      as [[Hbig' H2] | [Hsmall' (now2 & Hin2 & H2)]]; try lia.
  - eexists _, _. split; [exact H1|]. split; [exact H2|].
    split; [done|]. split; [done|]. split; [lia | done].
  - cbn in Hin2. apply list_elem_of_singleton in Hin2. subst now2.
    eexists _, _. split; [exact H1|]. split; [exact H2|].
    split; [apply frame_result_same|].
    split; [intros Hclock; by rewrite (Hclock now1 Hin1)|].
    split; [|lia]. intros _. split; [done|]. by exists now1.
Qed.

Lemma chunked_delivery_same_status_witness :
  exists r1 r2,
    StatusMonitor.deliver
      [(Fin 1, take 5 good_frame); (Fin 2, drop 5 (take 30 good_frame));
       (Fin 3, drop 30 good_frame)] StatusMonitor.init = Some r1 /\
    StatusMonitor.deliver [(Fin 9, status_frame good_payload)]
      StatusMonitor.init = Some r2 /\
    same_delivery r1 r2 /\
    ((forall now,
        now ∈ [(Fin 1, take 5 good_frame); (Fin 2, drop 5 (take 30 good_frame));
               (Fin 3, drop 30 good_frame)].*1 -> now = Fin 9) -> r1 = r2) /\
    ((length (status_frame good_payload)
      <= Z.to_nat StatusMonitor.MAX_BUFFER_SIZE)%nat ->
     r2 = frame_result (Fin 9) good_payload /\
     exists now,
       now ∈ [(Fin 1, take 5 good_frame); (Fin 2, drop 5 (take 30 good_frame));
              (Fin 3, drop 30 good_frame)].*1 /\
       r1 = frame_result now good_payload) /\
    ((Z.to_nat StatusMonitor.MAX_BUFFER_SIZE
      < length (status_frame good_payload))%nat ->
     r1 = r2 /\
     r2 = (StatusMonitor.mk
             (segment (status_frame good_payload)
                (length (status_frame good_payload))) None,
           [], [])).
Proof.
  apply (chunked_delivery_same_status good_payload
           [(Fin 1, take 5 good_frame); (Fin 2, drop 5 (take 30 good_frame));
            (Fin 3, drop 30 good_frame)] (Fin 9)).
  - intros k Hk. unfold occurs_at in Hk.
    assert (Hall : forallb (fun k => negb (starts_with ESC_STATUS_END
                                             (drop k good_payload)))
                     (seq 0 (S (length good_payload))) = true)
      by (vm_compute; reflexivity).
    destruct (decide (k <= length good_payload)%nat) as [Hle|Hgt].
    + rewrite forallb_forall in Hall.
      specialize (Hall k ltac:(apply in_seq; lia)).
      rewrite Hk in Hall. discriminate.
    + rewrite drop_ge in Hk by lia. discriminate.
  - vm_compute. reflexivity.
Defined.

(** A frame whose payload does not parse, at the head of a chunk that fits
    the buffer: the frame is taken out, nothing is notified, and the call
    returns with everything after the frame still in the buffer. *)
Lemma invalid_frame_ends_the_pass
    (now : pyfloat) (p rest : list byte) :
  marker_free p ->
  parse_status_json now p = Ok None ->
  Z.of_nat (length (status_frame p ++ rest)) <= StatusMonitor.MAX_BUFFER_SIZE ->
  StatusMonitor._process_chunk now (status_frame p ++ rest) StatusMonitor.init
  = Some (StatusMonitor.mkOutcome (StatusMonitor.mk rest None) [] None).
Proof.
  intros Hfree Hparse Hfit. unfold StatusMonitor._process_chunk.
  cbn [StatusMonitor.init StatusMonitor._buffer StatusMonitor._latest_status app].
  unfold StatusMonitor._trim_buffer.
  destruct (Z.leb_spec (Z.of_nat (length (status_frame p ++ rest)))
              StatusMonitor.MAX_BUFFER_SIZE) as [_|Hgt]; [|lia].
  cbn [StatusMonitor.extract_loop StatusMonitor._buffer
         StatusMonitor._latest_status].
  by rewrite full_frame_extract, Hparse.
Qed.

(** C2: the code at the failing input.  One chunk holds a frame with the
    payload [{invalid json here}] followed by a complete valid frame.  The
    call of [_process_chunk] takes the invalid frame out and notifies
    nothing, and then returns: the valid frame stays in the buffer and no
    status is notified for it in this call.  Its status is notified by the
    next call, here for the one-byte chunk [a]. *)
Theorem invalid_frame_delays_next_frame :
  parse_status_json (Fin 1) (list_byte_of_string "{invalid json here}") = Ok None /\
  (exists s, parse_status_json (Fin 1) good_payload = Ok (Some s)) /\
  StatusMonitor._process_chunk (Fin 1) (bad_frame ++ good_frame)
    StatusMonitor.init
  = Some (StatusMonitor.mkOutcome (StatusMonitor.mk good_frame None) [] None) /\
  exists s,
    parse_status_json (Fin 2) good_payload = Ok (Some s) /\
    StatusMonitor._process_chunk (Fin 2) [x61] (StatusMonitor.mk good_frame None)
    = Some (StatusMonitor.mkOutcome (StatusMonitor.mk [x61] (Some s)) [s] None).
Proof.
  split; [by vm_compute|]. split; [vm_compute; eauto|].
  split; [by vm_compute|]. eexists. split; by vm_compute.
Qed.

(** ** StreamBuffer: reads, order of the bytes, and loss *)

Section StreamBufferRuns.
Import StreamBuffer.

Lemma read_split (n : Z) (b : t) :
  fst (read n b) ++ buffer (snd (read n b)) = buffer b.
Proof.
  unfold read. destruct (buffer b) as [|x l] eqn:E; [cbn; by rewrite E|].
  case_match; cbn [fst snd with_buffer buffer].
  - by rewrite app_nil_r.
  - apply slice_to_del_to.
Qed.

Lemma read_line_split (b : t) :
  fst (read_line b) ++ buffer (snd (read_line b)) = buffer b.
Proof.
  unfold read_line. case_match; cbn [fst snd with_buffer buffer]; [done|].
  apply slice_to_del_to.
Qed.

Lemma read_line_first (b : t) (pre post : list byte) :
  buffer b = pre ++ x0a :: post -> x0a ∉ pre ->
  read_line b = (pre ++ [x0a], with_buffer post b).
Proof.
  intros Hbuf Hnot. unfold read_line, newline.
  rewrite Hbuf, find_single_present by done.
  destruct (Z.eqb_spec (Z.of_nat (length pre)) (-1)) as [Hneg|_]; [lia|].
  unfold slice_to, del_to.
  rewrite slice_index_nonneg by lia.
  rewrite length_app. cbn [length].
  replace (Nat.min (Z.to_nat (Z.of_nat (length pre) + 1)) (length pre + S (length post)))
    with (length (pre ++ [x0a])) by (rewrite length_app; cbn [length]; lia).
  replace (pre ++ x0a :: post) with ((pre ++ [x0a]) ++ post)
    by (by rewrite <- app_assoc).
  by rewrite take_app_length, drop_app_length.
Qed.

Lemma write_suffix (data : list byte) (b : t) :
  buffer (write data b) `suffix_of` buffer b ++ data.
Proof.
  unfold write. destruct data as [|d data']; [by rewrite app_nil_r|].
  set (data := d :: data').
  repeat case_match; cbn [buffer].
  - unfold slice_from. etrans; [apply suffix_drop|]. by apply suffix_app_r.
  - unfold del_to. apply suffix_app. apply suffix_drop.
  - done.
Qed.

(** A write either appends the data and leaves the overflow counter alone,
    or counts one overflow. *)
Lemma write_overflow_count (data : list byte) (b : t) :
  (overflow_count (write data b) = overflow_count b /\
   buffer (write data b) = buffer b ++ data)
  \/ overflow_count (write data b) = overflow_count b + 1.
Proof.
  unfold write. destruct data as [|d data']; [left; by rewrite app_nil_r|].
  repeat case_match; cbn [buffer overflow_count]; auto.
Qed.

Lemma step_overflow_count (o : op) (b : t) :
  overflow_count b <= overflow_count (step o b).
Proof.
  destruct o as [data|n| |]; cbn [step].
  - destruct (write_overflow_count data b) as [[-> _] | ->]; lia.
  - unfold read. repeat case_match; cbn; lia.
  - unfold read_line. case_match; cbn; lia.
  - cbn. lia.
Qed.

Lemma run_overflow_count (ops : list op) (b : t) :
  overflow_count b <= overflow_count (run ops b).
Proof.
  revert b. induction ops as [|o ops IH]; intros b; cbn; [lia|].
  etrans; [apply (step_overflow_count o)|]. apply IH.
Qed.

Lemma suffix_is_sublist (l k : list byte) :
  l `suffix_of` k -> l `sublist_of` k.
Proof. intros [k' ->]. by apply sublist_inserts_l. Qed.

(** What one call hands back, followed by what it leaves in the buffer, is
    a subsequence of what the buffer held followed by what was written. *)
Lemma step_sublist (o : op) (b : t) :
  returned o b ++ buffer (step o b)
    `sublist_of` buffer b ++ written [o].
Proof.
  destruct o as [data|n| |]; cbn [returned step written app].
  - rewrite app_nil_r. apply suffix_is_sublist, write_suffix.
  - by rewrite app_nil_r, read_split.
  - by rewrite app_nil_r, read_line_split.
  - rewrite app_nil_r. cbn. apply sublist_nil_l.
Qed.

Lemma written_cons (o : op) (ops : list op) :
  written (o :: ops) = written [o] ++ written ops.
Proof. destruct o; cbn; by rewrite ?app_nil_r. Qed.

Lemma write_all_fits (chunks : list (list byte)) (b : t) :
  Z.of_nat (length (buffer b ++ concat chunks)) <= max_size b ->
  buffer (write_all chunks b) = buffer b ++ concat chunks.
Proof.
  revert b. induction chunks as [|c chunks IH]; intros b Hfit;
    cbn [write_all fold_left concat] in *.
  - by rewrite app_nil_r.
  - fold (write_all chunks (write c b)).
    assert (Hw : buffer (write c b) = buffer b ++ c).
    { unfold write. destruct c as [|x c']; [by rewrite app_nil_r|].
      set (c := x :: c') in *.
      rewrite !length_app in Hfit.
      destruct (Z.geb_spec (Z.of_nat (length c)) (max_size b)) as [Hge|Hlt];
        cbn [buffer].
      - assert (length (buffer b) = 0%nat) as Hnil by lia.
        apply nil_length_inv in Hnil. rewrite Hnil. cbn [app].
        unfold slice_from. rewrite slice_index_neg by (subst c; cbn in *; lia).
        replace (length c - Z.to_nat (- - max_size b))%nat with 0%nat by lia.
        done.
      - destruct (Z.gtb_spec (Z.of_nat (length (buffer b)) + Z.of_nat (length c))
                    (max_size b)) as [Hgt|Hle]; cbn [buffer]; [lia | done]. }
    rewrite IH.
    + by rewrite Hw, <- app_assoc.
    + rewrite write_max_size, Hw, <- app_assoc. exact Hfit.
Qed.

Lemma read_lines_terminated (lines : list (list byte)) (tail : list byte) (b : t) :
  Forall (fun l => x0a ∉ l) lines ->
  buffer b = concat (terminated lines) ++ tail ->
  read_lines (length lines) b = (terminated lines, with_buffer tail b).
Proof.
  revert b. induction lines as [|l lines IH]; intros b Hfree Hbuf;
    cbn [terminated map concat length read_lines app] in *.
  - destruct b as [m buf o]. cbn in *. by subst.
  - apply Forall_cons in Hfree as [Hl Hfree].
    rewrite (read_line_first b l (concat (terminated lines) ++ tail));
      [|by rewrite Hbuf, <- !app_assoc | done].
    rewrite (IH (with_buffer (concat (terminated lines) ++ tail) b)) by done.
    done.
Qed.

End StreamBufferRuns.

(** X1: [read(size)] hands out the oldest bytes and keeps the rest in
    order: the bytes returned followed by the bytes left are the buffer as
    it was; a negative [size], or one that is at least the number of bytes
    held, drains the buffer, and any other [size] returns exactly [size]
    bytes.  Neither the capacity nor the overflow counter changes. *)
Theorem read_hands_out_oldest_bytes (n : Z) (b : StreamBuffer.t) :
  fst (StreamBuffer.read n b) ++ StreamBuffer.buffer (snd (StreamBuffer.read n b))
  = StreamBuffer.buffer b /\
  Z.of_nat (length (fst (StreamBuffer.read n b)))
  = (if (n <? 0) || (n >=? StreamBuffer.size b) then StreamBuffer.size b else n) /\
  StreamBuffer.max_size (snd (StreamBuffer.read n b)) = StreamBuffer.max_size b /\
  StreamBuffer.overflow_count (snd (StreamBuffer.read n b))
  = StreamBuffer.overflow_count b.
Proof.
  split; [apply read_split|]. split; [|split; [apply read_max_size|]].
  - unfold StreamBuffer.read, StreamBuffer.size.
    destruct (StreamBuffer.buffer b) as [|x l] eqn:E.
    + cbn. change (Z.of_nat 0) with 0.
      destruct (Z.ltb_spec n 0), (Z.geb_spec n 0); cbn; lia.
    + destruct ((n <? 0) || (n >=? Z.of_nat (length (x :: l)))) eqn:Hall;
        cbn [fst]; [done|].
      apply orb_false_iff in Hall as [H1 H2].
      apply Z.ltb_ge in H1. rewrite Z.geb_leb in H2. apply Z.leb_gt in H2.
      unfold slice_to. rewrite length_take, slice_index_nonneg by lia. lia.
  - unfold StreamBuffer.read. by repeat case_match.
Qed.

(** X2: the buffer never reorders, repeats or invents bytes.  For any
    sequence of write, read, read_line and clear calls, on any buffer, the
    bytes handed back by the reads, in order, followed by the bytes still
    held at the end, form a subsequence of the bytes held at the start
    followed by the bytes written. *)
Theorem bytes_come_out_in_written_order
    (ops : list StreamBuffer.op) (b : StreamBuffer.t) :
  run_returned ops b ++ StreamBuffer.buffer (StreamBuffer.run ops b)
    `sublist_of` StreamBuffer.buffer b ++ written ops.
Proof.
  revert b. induction ops as [|o ops IH]; intros b.
  - cbn. by rewrite app_nil_r.
  - cbn [run_returned StreamBuffer.run fold_left].
    fold (StreamBuffer.run ops (StreamBuffer.step o b)).
    rewrite written_cons, <- app_assoc.
    etrans; [apply sublist_app; [reflexivity | apply IH]|].
    rewrite !app_assoc. apply sublist_app; [|reflexivity].
    apply step_sublist.
Qed.

(** X3: the overflow counter tells whether bytes were dropped.  If a
    sequence of write, read and read_line calls leaves the counter where it
    was, then no byte was lost: the bytes handed back followed by the bytes
    still held are exactly the bytes held at the start followed by all bytes
    written. *)
Theorem unchanged_overflow_count_means_no_loss
    (ops : list StreamBuffer.op) (b : StreamBuffer.t) :
  forallb (fun o => negb (is_clear o)) ops = true ->
  StreamBuffer.overflow_count (StreamBuffer.run ops b)
  = StreamBuffer.overflow_count b ->
  run_returned ops b ++ StreamBuffer.buffer (StreamBuffer.run ops b)
  = StreamBuffer.buffer b ++ written ops.
Proof.
  revert b. induction ops as [|o ops IH]; intros b Hclear Hcount.
  - cbn. by rewrite app_nil_r.
  - cbn [forallb] in Hclear. apply andb_true_iff in Hclear as [Ho Hclear].
    cbn [run_returned StreamBuffer.run fold_left] in *.
    fold (StreamBuffer.run ops (StreamBuffer.step o b)) in *.
    pose proof (step_overflow_count o b) as H1.
    pose proof (run_overflow_count ops (StreamBuffer.step o b)) as H2.
    assert (Hstep : StreamBuffer.overflow_count (StreamBuffer.step o b)
                    = StreamBuffer.overflow_count b) by lia.
    rewrite <- app_assoc, IH by (done || lia).
    rewrite written_cons, !app_assoc. f_equal.
    destruct o as [data|n| |]; cbn [returned StreamBuffer.step written app] in *.
    + destruct (write_overflow_count data b) as [[_ ->] | Hov]; [|lia].
      by rewrite app_nil_r.
    + by rewrite app_nil_r, read_split.
    + by rewrite app_nil_r, read_line_split.
    + done.
Qed.

Lemma unchanged_overflow_count_means_no_loss_witness :
  run_returned
    [StreamBuffer.Write [x61; x0a]; StreamBuffer.Write [x62; x63];
     StreamBuffer.ReadLine; StreamBuffer.Read 1]
    (StreamBuffer.init 8)
  ++ StreamBuffer.buffer
       (StreamBuffer.run
          [StreamBuffer.Write [x61; x0a]; StreamBuffer.Write [x62; x63];
           StreamBuffer.ReadLine; StreamBuffer.Read 1]
          (StreamBuffer.init 8))
  = StreamBuffer.buffer (StreamBuffer.init 8)
    ++ written [StreamBuffer.Write [x61; x0a]; StreamBuffer.Write [x62; x63];
                StreamBuffer.ReadLine; StreamBuffer.Read 1].
Proof.
  apply (unchanged_overflow_count_means_no_loss
           [StreamBuffer.Write [x61; x0a]; StreamBuffer.Write [x62; x63];
            StreamBuffer.ReadLine; StreamBuffer.Read 1]
           (StreamBuffer.init 8)); reflexivity.
Defined.

(** X4: line framing does not depend on how the byte stream is cut into
    chunks.  When newline-terminated lines, followed by any further bytes,
    arrive in arbitrary chunks at an empty buffer that can hold them all,
    as many [read_line] calls as there are lines return the lines one by
    one, each with its newline, and leave the further bytes in the
    buffer. *)
Theorem chunked_lines_are_read_back
    (C : Z) (chunks lines : list (list byte)) (tail : list byte) :
  Forall (fun l => x0a ∉ l) lines ->
  concat chunks = concat (terminated lines) ++ tail ->
  Z.of_nat (length (concat chunks)) <= C ->
  fst (read_lines (length lines) (write_all chunks (StreamBuffer.init C)))
  = terminated lines /\
  StreamBuffer.buffer
    (snd (read_lines (length lines) (write_all chunks (StreamBuffer.init C))))
  = tail.
Proof.
  intros Hfree Hcat Hfit.
  rewrite (read_lines_terminated lines tail); [done | done |].
  rewrite write_all_fits; [exact Hcat | exact Hfit].
Qed.

Lemma chunked_lines_are_read_back_witness :
  fst (read_lines 2
         (write_all [[x61]; [x62; x0a; x63]; []; [x0a; x64]]
            (StreamBuffer.init 16)))
  = [[x61; x62; x0a]; [x63; x0a]] /\
  StreamBuffer.buffer
    (snd (read_lines 2
            (write_all [[x61]; [x62; x0a; x63]; []; [x0a; x64]]
               (StreamBuffer.init 16))))
  = [x64].
Proof.
  apply (chunked_lines_are_read_back 16
           [[x61]; [x62; x0a; x63]; []; [x0a; x64]]
           [[x61; x62]; [x63]] [x64]).
  - repeat (apply Forall_cons; split).
    + rewrite !not_elem_of_cons. repeat split; try discriminate.
      apply not_elem_of_nil.
    + rewrite !not_elem_of_cons. repeat split; try discriminate.
      apply not_elem_of_nil.
    + constructor.
  - reflexivity.
  - vm_compute. discriminate.
Defined.

(** ** StatusMonitor: termination, bounds and what a chunk can trigger *)

Section MonitorRuns.
Import StatusMonitor.

Lemma marker_free_check (p : list byte) :
  forallb (fun k => negb (starts_with ESC_STATUS_END (drop k p)))
    (seq 0 (S (length p))) = true ->
  marker_free p.
Proof.
  intros Hall k Hk. unfold occurs_at in Hk.
  destruct (decide (k <= length p)%nat) as [Hle|Hgt].
  - rewrite forallb_forall in Hall.
    specialize (Hall k ltac:(apply in_seq; lia)).
    rewrite Hk in Hall. discriminate.
  - rewrite drop_ge in Hk by lia. discriminate.
Qed.

Lemma starts_with_nonempty (sub l : list byte) :
  sub <> [] -> starts_with sub l = true -> l <> [].
Proof. intros Hsub H ->. destruct sub; [done | discriminate]. Qed.

Lemma bytes_find_0 (sub l : list byte) :
  bytes_find sub l 0 = find_at sub l 0.
Proof. reflexivity. Qed.

(** One scan either leaves the buffer as it is and returns [None], or
    removes a non-empty prefix of it. *)
Lemma try_extract_shrinks (now : pyfloat) (buf : list byte) :
  _try_extract_status now buf = (buf, Ok None)
  \/ (length (_try_extract_status now buf).1 < length buf)%nat /\
     (_try_extract_status now buf).1 `suffix_of` buf.
Proof.
  unfold _try_extract_status.
  destruct (Z.eqb_spec (bytes_find ESC_STATUS_START buf 0) (-1)) as [|Hs];
    [by left|].
  destruct (Z.eqb_spec
              (bytes_find ESC_STATUS_END buf
                 (bytes_find ESC_STATUS_START buf 0
                  + Z.of_nat (length ESC_STATUS_START))) (-1)) as [|He];
    [by left|].
  right. cbn [fst].
  rewrite bytes_find_0 in *.
  destruct (find_at_spec ESC_STATUS_START buf 0)
    as [[Hnone _] | (k & Hk & _ & Hat & _)]; [done|].
  assert (Hne : buf <> []).
  { intros ->. rewrite drop_nil in Hat.
    by apply (starts_with_nonempty _ _ START_not_nil) in Hat. }
  rewrite Hk in *.
  set (js := 0 + Z.of_nat k + Z.of_nat (length ESC_STATUS_START)) in *.
  unfold bytes_find in *.
  destruct (find_at_spec ESC_STATUS_END (drop (Z.to_nat js) buf) js)
    as [[Hnone _] | (k2 & Hk2 & _)]; [done|].
  rewrite Hk2. unfold slice_from.
  rewrite slice_index_nonneg by lia.
  split; [|apply suffix_drop].
  rewrite length_drop. subst js. rewrite length_START.
  destruct buf; [done|]. cbn [length]. lia.
Qed.

Lemma latest_after_cons (before : option DongleStatus) (s : DongleStatus)
    (more : list DongleStatus) :
  latest_after before (s :: more) = latest_after (Some s) more.
Proof.
  unfold latest_after. destruct more as [|s' more']; [done|].
  rewrite last_cons_cons.
  destruct (last (s' :: more')) eqn:E; [done|].
  by apply last_None in E.
Qed.

(** The extraction loop ends before its fuel does, with the latest status
    the last one notified and a buffer that is what is left of the one it
    started with. *)
Lemma extract_loop_ends (fuel : nat) (now : pyfloat) (m : t)
    (acc : list DongleStatus) :
  (length (_buffer m) < fuel)%nat ->
  exists o more,
    extract_loop fuel now m acc = Some o /\
    notified o = acc ++ more /\
    _latest_status (monitor o) = latest_after (_latest_status m) more /\
    _buffer (monitor o) `suffix_of` _buffer m.
Proof.
  revert m acc. induction fuel as [|fuel IH]; intros m acc Hlen; [lia|].
  cbn [extract_loop].
  destruct (try_extract_shrinks now (_buffer m)) as [Hsame | [Hless Hsuf]].
  - rewrite Hsame. eexists _, []. split; [reflexivity|].
    cbn. rewrite app_nil_r. auto.
  - destruct (_try_extract_status now (_buffer m)) as [buf r] eqn:E.
    cbn [fst snd] in *. destruct r as [[s|]|e].
    + destruct (IH (mk buf (Some s)) (acc ++ [s]) ltac:(cbn; lia))
        as (o & more & -> & Hn & Hl & Hb).
      exists o, (s :: more). split; [done|]. split; [by rewrite Hn, <- app_assoc|].
      split; [by rewrite Hl, latest_after_cons|].
      cbn in Hb. by etrans.
    + eexists _, []. split; [reflexivity|]. cbn. rewrite app_nil_r. auto.
    + eexists _, []. split; [reflexivity|]. cbn. rewrite app_nil_r. auto.
Qed.

Lemma trim_buffer_bound (buf : list byte) :
  Z.of_nat (length (_trim_buffer buf)) <= MAX_BUFFER_SIZE /\
  _trim_buffer buf `suffix_of` buf.
Proof.
  unfold _trim_buffer.
  destruct (Z.leb_spec (Z.of_nat (length buf)) MAX_BUFFER_SIZE) as [Hle|Hgt];
    [done|].
  assert (0 < MAX_BUFFER_SIZE) by done.
  unfold slice_from. rewrite slice_index_neg by lia.
  split; [rewrite length_drop; lia | apply suffix_drop].
Qed.

(** No start marker in a byte string, none in what is left of it. *)
Lemma no_start_in_suffix (l k : list byte) :
  bytes_find ESC_STATUS_START l 0 = -1 ->
  k `suffix_of` l ->
  bytes_find ESC_STATUS_START k 0 = -1.
Proof.
  rewrite !bytes_find_0. intros Hl [pre ->].
  rewrite find_at_none in Hl |- * by lia.
  intros j. specialize (Hl (length pre + j)%nat).
  by rewrite <- drop_drop, drop_app_length in Hl.
Qed.



Lemma on_data_all_last (queue chunks : list (list byte)) :
  (length queue <= StatusQueue.MAXSIZE)%nat ->
  StatusQueue.on_data_all queue chunks
  = drop (length (queue ++ chunks) - StatusQueue.MAXSIZE) (queue ++ chunks).
Proof.
  unfold StatusQueue.on_data_all.
  revert queue. induction chunks as [|c chunks IH]; intros queue Hlen;
    cbn [fold_left].
  - rewrite app_nil_r.
    by replace (length queue - StatusQueue.MAXSIZE)%nat with 0%nat by lia.
  - unfold StatusQueue.on_data at 2.
    destruct (Nat.ltb_spec (length queue) StatusQueue.MAXSIZE) as [Hlt|Hge].
    + rewrite IH by (rewrite length_app; cbn [length]; lia).
      by rewrite <- app_assoc.
    + destruct queue as [|x rest]; [cbn in Hge; unfold StatusQueue.MAXSIZE in Hge; lia|].
      cbn [length] in *.
      rewrite IH by (rewrite length_app; cbn [length]; lia).
      rewrite <- !app_assoc. cbn [app length].
      rewrite !length_app. cbn [length].
      replace (S (length rest + S (length chunks)) - StatusQueue.MAXSIZE)%nat
        with (S (length rest + S (length chunks) - StatusQueue.MAXSIZE)) by lia.
      done.
Qed.

End MonitorRuns.

(** X5: [_process_chunk] always ends: the extraction loop cannot run for
    ever, because every round that notifies a status removes bytes from the
    buffer.  Whether the call returns or an exception of the parser leaves
    it, afterwards the buffer holds at most 64 KiB, what it holds is the
    end of the bytes held before followed by the chunk, and the latest
    status is the last one notified (or the previous one when none
    was). *)
Theorem process_chunk_returns_within_bound
    (now : pyfloat) (chunk : list byte) (m : StatusMonitor.t) :
  exists o : StatusMonitor.outcome,
    StatusMonitor._process_chunk now chunk m = Some o /\
    Z.of_nat (length (StatusMonitor._buffer (StatusMonitor.monitor o)))
    <= StatusMonitor.MAX_BUFFER_SIZE /\
    StatusMonitor._buffer (StatusMonitor.monitor o)
      `suffix_of` StatusMonitor._buffer m ++ chunk /\
    StatusMonitor._latest_status (StatusMonitor.monitor o)
    = latest_after (StatusMonitor._latest_status m) (StatusMonitor.notified o).
Proof.
  unfold StatusMonitor._process_chunk.
  set (buf := StatusMonitor._trim_buffer (StatusMonitor._buffer m ++ chunk)).
  destruct (trim_buffer_bound (StatusMonitor._buffer m ++ chunk))
    as [Hbound Hsuf]. fold buf in Hbound, Hsuf.
  destruct (extract_loop_ends (S (length buf)) now
              (StatusMonitor.mk buf (StatusMonitor._latest_status m)) [])
    as (o & more & Ho & Hn & Hl & Hb); [cbn; lia|].
  exists o. split; [exact Ho|]. cbn in Hn, Hl, Hb. subst more.
  split; [|split; [by etrans | done]].
  destruct Hb as [pre Hpre]. rewrite Hpre, length_app in Hbound. lia.
Qed.



(** X7: bytes without the start marker never produce a status.  When the
    marker does not occur in the bytes held followed by the chunk,
    [_process_chunk] notifies nothing, raises nothing and keeps the latest
    status; the buffer is the old content followed by the chunk, cut to its
    last 64 KiB. *)
Theorem no_start_marker_no_status
    (now : pyfloat) (chunk : list byte) (m : StatusMonitor.t) :
  bytes_find ESC_STATUS_START (StatusMonitor._buffer m ++ chunk) 0 = -1 ->
  StatusMonitor._process_chunk now chunk m
  = Some (StatusMonitor.mkOutcome
            (StatusMonitor.mk
               (StatusMonitor._trim_buffer (StatusMonitor._buffer m ++ chunk))
               (StatusMonitor._latest_status m))
            [] None).
Proof.
  intros Hnone. unfold StatusMonitor._process_chunk.
  apply extract_loop_no_frame. cbn [StatusMonitor._buffer].
  unfold StatusMonitor._try_extract_status.
  rewrite (no_start_in_suffix _ _ Hnone)
    by apply trim_buffer_bound.
  reflexivity.
Qed.

Lemma no_start_marker_no_status_witness :
  StatusMonitor._process_chunk (Fin 3)
    (list_byte_of_string "STREAM 0.1,0.2,0.3,0.4,0.5")
    (StatusMonitor.mk [xff; x34] None)
  = Some (StatusMonitor.mkOutcome
            (StatusMonitor.mk
               (StatusMonitor._trim_buffer
                  ([xff; x34] ++ list_byte_of_string "STREAM 0.1,0.2,0.3,0.4,0.5"))
               None)
            [] None).
Proof.
  apply (no_start_marker_no_status (Fin 3)
           (list_byte_of_string "STREAM 0.1,0.2,0.3,0.4,0.5")
           (StatusMonitor.mk [xff; x34] None)).
  vm_compute. reflexivity.
Defined.

(** X8: an exception of the parser leaves [_process_chunk].  The loop of
    [_process_chunk] has no [except] clause, and [parse_status_json]
    catches only [JSONDecodeError], [UnicodeDecodeError] and [ValueError].
    So when
    [parse_status_json] raises for the payload of a frame at the head of a
    chunk that fits the buffer, the exception leaves [_process_chunk] after
    the frame has been taken out of the buffer: nothing is notified, the
    latest status is unchanged and the bytes after the frame are left
    unscanned.  The payload [[1, 2]] is such a payload: it is JSON but no
    object, and [from_json] raises [AttributeError] on its [get]. *)
Theorem parser_exception_leaves_process_chunk
    (now : pyfloat) (p rest : list byte) (e : exn) :
  marker_free p ->
  parse_status_json now p = Raise e ->
  Z.of_nat (length (status_frame p ++ rest)) <= StatusMonitor.MAX_BUFFER_SIZE ->
  StatusMonitor._process_chunk now (status_frame p ++ rest) StatusMonitor.init
  = Some (StatusMonitor.mkOutcome (StatusMonitor.mk rest None) [] (Some e)).
Proof.
  intros Hfree Hparse Hfit. unfold StatusMonitor._process_chunk.
  cbn [StatusMonitor.init StatusMonitor._buffer StatusMonitor._latest_status app].
  unfold StatusMonitor._trim_buffer.
  destruct (Z.leb_spec (Z.of_nat (length (status_frame p ++ rest)))
              StatusMonitor.MAX_BUFFER_SIZE) as [_|Hgt]; [|lia].
  cbn [StatusMonitor.extract_loop StatusMonitor._buffer
         StatusMonitor._latest_status].
  by rewrite full_frame_extract, Hparse.
Qed.

Lemma parser_exception_leaves_process_chunk_witness :
  StatusMonitor._process_chunk (Fin 5) (status_frame array_payload ++ good_frame)
    StatusMonitor.init
  = Some (StatusMonitor.mkOutcome (StatusMonitor.mk good_frame None) []
            (Some AttributeError)).
Proof.
  apply (parser_exception_leaves_process_chunk (Fin 5) array_payload good_frame
           AttributeError).
  - apply marker_free_check. vm_compute. reflexivity.
  - vm_compute. reflexivity.
  - vm_compute. discriminate.
Defined.

(** X9: the chunk queue of the monitor keeps the most recent chunks.  After
    any number of [on_data] calls on an empty queue (with nothing taken out
    in between) the queue holds the last 1000 chunks received, in the order
    of arrival, or all of them when fewer arrived. *)
Theorem queue_keeps_latest_chunks (chunks : list (list byte)) :
  StatusQueue.on_data_all [] chunks
  = drop (length chunks - StatusQueue.MAXSIZE) chunks /\
  (length (StatusQueue.on_data_all [] chunks) <= StatusQueue.MAXSIZE)%nat.
Proof.
  rewrite on_data_all_last by (cbn; lia). cbn [app].
  split; [done|]. rewrite length_drop. lia.
Qed.

(** X10: one scan takes out the first frame together with everything in
    front of it.  When the first start marker in the buffer opens a frame
    whose payload is free of the end marker, [_try_extract_status] parses
    exactly that payload, whatever bytes precede the frame, and leaves in
    the buffer only what follows the frame: the bytes before the frame are
    discarded with it. *)
Theorem scan_takes_first_frame_and_what_precedes_it
    (now : pyfloat) (pre p rest : list byte) :
  bytes_find ESC_STATUS_START (pre ++ status_frame p ++ rest) 0
  = Z.of_nat (length pre) ->
  marker_free p ->
  StatusMonitor._try_extract_status now (pre ++ status_frame p ++ rest)
  = (rest, parse_status_json now p).
Proof.
  intros Hstart Hfree. unfold StatusMonitor._try_extract_status.
  rewrite Hstart, length_START.
  destruct (Z.eqb_spec (Z.of_nat (length pre)) (-1)) as [Hneg|_]; [lia|].
  set (B := pre ++ status_frame p ++ rest).
  assert (HB : B = (pre ++ ESC_STATUS_START) ++ p ++ ESC_STATUS_END ++ rest).
  { subst B. unfold status_frame. by rewrite <- !app_assoc. }
  assert (Hlen : length (pre ++ ESC_STATUS_START) = (length pre + 19)%nat).
  { by rewrite length_app, length_START. }
  assert (Hend : bytes_find ESC_STATUS_END B (Z.of_nat (length pre) + Z.of_nat 19)
                 = Z.of_nat (length pre) + Z.of_nat 19 + Z.of_nat (length p)).
  { unfold bytes_find.
    replace (Z.to_nat (Z.of_nat (length pre) + Z.of_nat 19))
      with (length (pre ++ ESC_STATUS_START)) by lia.
    rewrite HB, drop_app_length.
    apply find_at_first.
    - rewrite drop_app_length. apply starts_with_app.
    - intros j Hj. by apply end_not_in_payload. }
  rewrite Hend.
  destruct (Z.eqb_spec
              (Z.of_nat (length pre) + Z.of_nat 19 + Z.of_nat (length p)) (-1))
    as [Hneg|_]; [lia|].
  assert (HlenB : length B = (length pre + 19 + length p + 2 + length rest)%nat).
  { rewrite HB, !length_app, length_START. cbn. lia. }
  f_equal.
  - unfold slice_from. rewrite slice_index_nonneg by lia.
    change (length ESC_STATUS_END) with 2%nat.
    rewrite Nat.min_l by lia.
    replace (Z.to_nat (Z.of_nat (length pre) + Z.of_nat 19
                       + Z.of_nat (length p) + Z.of_nat 2))
      with (length ((pre ++ ESC_STATUS_START) ++ p ++ ESC_STATUS_END))
      by (rewrite !length_app, length_START; cbn; lia).
    rewrite HB.
    replace ((pre ++ ESC_STATUS_START) ++ p ++ ESC_STATUS_END ++ rest)
      with (((pre ++ ESC_STATUS_START) ++ p ++ ESC_STATUS_END) ++ rest)
      by (by rewrite <- !app_assoc).
    apply drop_app_length.
  - f_equal. unfold slice. rewrite !slice_index_nonneg by lia.
    rewrite !Nat.min_l by lia.
    replace (Z.to_nat (Z.of_nat (length pre) + Z.of_nat 19 + Z.of_nat (length p)))
      with (length ((pre ++ ESC_STATUS_START) ++ p))
      by (rewrite !length_app, length_START; lia).
    rewrite HB.
    replace ((pre ++ ESC_STATUS_START) ++ p ++ ESC_STATUS_END ++ rest)
      with (((pre ++ ESC_STATUS_START) ++ p) ++ ESC_STATUS_END ++ rest)
      by (by rewrite <- !app_assoc).
    rewrite take_app_length.
    replace (Z.to_nat (Z.of_nat (length pre) + Z.of_nat 19))
      with (length (pre ++ ESC_STATUS_START)) by lia.
    apply drop_app_length.
Qed.

Lemma scan_takes_first_frame_and_what_precedes_it_witness :
  StatusMonitor._try_extract_status (Fin 4)
    (stream_line ++ status_frame good_payload ++ stream_line)
  = (stream_line, parse_status_json (Fin 4) good_payload).
Proof.
  apply (scan_takes_first_frame_and_what_precedes_it (Fin 4)
           stream_line good_payload stream_line).
  - vm_compute. reflexivity.
  - apply marker_free_check. vm_compute. reflexivity.
Defined.

(** ** StateBuilder: the finger table, position updates and calibration
    sessions *)

Section StateBuilderRuns.
Import StateBuilder.

Lemma named_fingers_insert (s : t) (n : string) (d d' : finger_data) :
  named_fingers s -> _fingers s !! n = Some d -> name d' = name d ->
  named_fingers (with_fingers (<[n := d']> (_fingers s)) s).
Proof.
  intros Hs Hd Hname m dm. cbn. rewrite lookup_insert. case_decide.
  - intros [= <-]. subst m. destruct (Hs n d Hd) as [Hin Hn].
    split; [done | congruence].
  - apply Hs.
Qed.

Lemma step_named (o : op) (s : t) :
  named_fingers s -> named_fingers (step_in_place s o).1.
Proof.
  intros Hs. destruct o as [u|b|b|b|m b|m v|m lo hi];
    cbn [step_in_place fst].
  - unfold apply_in_place. destruct (update_type u).
    + apply (for_each_inv finger_position_step named_fingers
               (fun _ => True) (fun _ => True));
        [|by apply Forall_forall|done].
      clear. intros s [n v] _ Hs. split; [|done].
      unfold finger_position_step, get_finger.
      destruct (_fingers s !! n) as [d|] eqn:Hd; cbn [fst]; [|done].
      by apply named_fingers_insert with d.
    + apply (for_each_inv raw_position_step named_fingers
               (fun _ => True) (fun _ => True));
        [|by apply Forall_forall|done].
      clear. intros s [n v] _ Hs. split; [|done].
      destruct (_fingers s !! n) as [d|] eqn:Hd.
      * destruct (raw_position_step_cases s n v d Hd)
          as (d1 & raw & _ & _ & _ & Hd1 & [(p & _ & _ & ->) | (_ & _ & ->)]);
          cbn [fst]; apply named_fingers_insert with d; try done;
          rewrite Hd1; apply tracked_fields.
      * unfold raw_position_step, get_finger. by rewrite Hd.
    + cbn [fst]. unfold _apply_imu_heading. by repeat case_match.
  - unfold set_calibrating. destruct b; [|done].
    intros n d. cbn. rewrite lookup_fmap.
    destruct (_fingers s !! n) as [d0|] eqn:Hd; [|done].
    intros [= <-]. apply (Hs n d0 Hd).
  - done.
  - done.
  - unfold set_finger_enabled.
    destruct (_fingers s !! m) as [d|] eqn:Hd; [|done].
    by apply named_fingers_insert with d.
  - unfold set_finger_setpoint.
    destruct (_fingers s !! m) as [d|] eqn:Hd; [|done].
    by apply named_fingers_insert with d.
  - unfold apply_calibration.
    destruct (_fingers s !! m) as [d|] eqn:Hd; [|done].
    by apply named_fingers_insert with d.
Qed.

Lemma init_named : named_fingers init.
Proof.
  intros n d Hd.
  assert (Hin : (n, d) ∈ map (fun n => (n, initial_finger n)) FINGER_NAMES).
  { apply (elem_of_list_to_map_2 (M := gmap string)). exact Hd. }
  apply list_elem_of_In, in_map_iff in Hin as (m & [= <- <-] & Hm).
  split; [by apply list_elem_of_In | done].
Qed.

(** Whatever the calls and whichever of them raise, the keys of the
    builder are the finger names. *)
Lemma run_catching_named (ops : list op) : named_fingers (run_catching ops).
Proof.
  unfold run_catching. generalize init_named. generalize init.
  induction ops as [|o ops IH]; intros s Hs; cbn [fold_left]; [done|].
  apply IH. by apply step_named.
Qed.



(** The names that receive a value are those at the places of the
    values. *)
Lemma zip_fst_lookup {B} (l : list string) (k : list B) (i : nat) (n : string) :
  NoDup l -> l !! i = Some n -> k !! i = None -> n ∉ (zip l k).*1.
Proof.
  unfold zip. intros Hl. revert k i.
  induction Hl as [|x l Hx Hl IH]; intros [|y k] [|i]; cbn; try done;
    try (intros; apply not_elem_of_nil).
  intros Hn Hk. apply not_elem_of_cons. split.
  - intros ->. apply Hx. by apply list_elem_of_lookup_2 with i.
  - by apply (IH k i).
Qed.

Lemma frame_arity (keyword : string) (ty : UpdateType) (arity : nat)
    (line : str) (u : StateUpdate) :
  ProtocolParser.frame keyword ty arity line = Ok (Some u) ->
  update_type u = ty /\ length (values u) = arity.
Proof.
  unfold ProtocolParser.frame.
  destruct (ProtocolParser._parse_csv _) as [vs|e]; cbn [mbind result_bind];
    [|done].
  destruct (Nat.eqb_spec (length vs) arity) as [Hlen|]; [|done].
  by intros [= <-].
Qed.

Lemma parse_line_arity (line : string) (u : StateUpdate) :
  ProtocolParser.parse_line line = Ok (Some u) ->
  length (values u) = arity_of (update_type u).
Proof.
  unfold ProtocolParser.parse_line.
  destruct (str_strip (of_string line)) as [|c l]; [done|].
  repeat case_match; try done; intros Hf;
    apply frame_arity in Hf as [-> ->]; done.
Qed.

(** The integer a raw value brings to the window is the integer part of
    the clamped value. *)
Lemma raw_int_value (v : pyfloat) :
  exists raw, clamped (clamp_raw v) raw /\ raw_int v = Qtrunc raw.
Proof.
  destruct (clamp_raw_value v) as (raw & Hcl & _).
  exists raw. split; [done|].
  destruct Hcl as (_ & _ & _ & Hi & _). unfold raw_int. by rewrite Hi.
Qed.

(** In calibration mode one value widens the window of its finger to the
    integer it brings. *)
Lemma raw_finger_update_window (v : pyfloat) (d d' : finger_data) :
  raw_finger_update true v d = Ok d' ->
  raw_min d' = Z.min (raw_min d) (raw_int v) /\
  raw_max d' = Z.max (raw_max d) (raw_int v).
Proof.
  unfold raw_finger_update.
  destruct (raw_int_value v) as (raw & Hcl & ->).
  rewrite (track_range_clamped _ raw) by done. cbn [mbind result_bind].
  destruct (raw_position _ _) as [p|e]; cbn [mbind result_bind]; [|done].
  intros [= <-]. cbn.
  destruct Hcl as (H0 & _).
  destruct (widened_by_truncation_bounds raw (raw_min d) (raw_max d) _ _ H0
              (conj eq_refl eq_refl)) as (H1 & H2 & H3 & H4).
  destruct (Qlt_bool raw (inject_Z (raw_min d)));
    destruct (Qlt_bool (inject_Z (raw_max d)) raw); lia.
Qed.

Lemma seen_cons (i : nat) (vs : list pyfloat) (updates : list (list pyfloat)) :
  seen i (vs :: updates)
  = match vs !! i with
    | Some v => raw_int v :: seen i updates
    | None => seen i updates
    end.
Proof. unfold seen. cbn. by destruct (vs !! i). Qed.

(** The raw updates of a session on a builder with modest windows all
    return, and leave the windows [lo], [hi] of its start widened by what
    was seen. *)
Lemma session_windows (updates : list (list pyfloat)) (s : t) (lo hi : nat -> Z) :
  builder_inv s -> modest_windows s -> _calibrating s = true ->
  (forall i n, FINGER_NAMES !! i = Some n ->
     exists d, _fingers s !! n = Some d /\
               raw_min d = lo i /\ raw_max d = hi i) ->
  exists s',
    for_each step_in_place (map raw_update updates) s = (s', None) /\
    forall i n, FINGER_NAMES !! i = Some n ->
      exists d, _fingers s' !! n = Some d /\
                raw_min d = fold_left Z.min (seen i updates) (lo i) /\
                raw_max d = fold_left Z.max (seen i updates) (hi i).
Proof.
  revert s lo hi. induction updates as [|vs updates IH];
    intros s lo hi Hinv Hm Hcal Hwin.
  - exists s. split; [done|]. exact Hwin.
  - cbn [map for_each].
    change (step_in_place s (raw_update vs)) with (_apply_raw_positions vs s).
    destruct (raw_positions_modest vs s Hinv Hm) as [[Hinv1 Hm1] Hret].
    destruct (_apply_raw_positions vs s) as [s1 e1] eqn:Happ.
    cbn [fst snd] in Hinv1, Hm1, Hret. subst e1.
    unfold _apply_raw_positions in Happ.
    destruct (raw_loop_lookup _ s s1
                (zip_fst_NoDup FINGER_NAMES vs FINGER_NAMES_NoDup) Happ)
      as [Hc1 Hfingers].
    destruct (IH s1
                (fun i => match vs !! i with
                          | Some v => Z.min (lo i) (raw_int v)
                          | None => lo i
                          end)
                (fun i => match vs !! i with
                          | Some v => Z.max (hi i) (raw_int v)
                          | None => hi i
                          end) Hinv1 Hm1 ltac:(congruence))
      as (s' & Hrun & Hwin').
    + intros i n Hn. destruct (Hwin i n Hn) as (d & Hd & Hlo & Hhi).
      destruct (Hfingers n d Hd) as [Hin Hout].
      destruct (vs !! i) as [v|] eqn:Hv.
      * destruct (Hin v) as (d' & Hd' & Hup); [by apply zip_lookup with i|].
        rewrite Hcal in Hup.
        apply raw_finger_update_window in Hup as [H1 H2].
        exists d'. split; [done|]. by rewrite H1, H2, Hlo, Hhi.
      * exists d. split; [|done]. apply Hout.
        by apply zip_fst_lookup with i; [apply FINGER_NAMES_NoDup | |].
    + exists s'. split; [exact Hrun|]. intros i n Hn.
      destruct (Hwin' i n Hn) as (d & Hd & Hlo & Hhi).
      exists d. split; [done|]. rewrite seen_cons.
      by destruct (vs !! i) as [v|].
Qed.

End StateBuilderRuns.

(** X12: a snapshot always holds exactly the five fingers.  Whatever the
    sequence of StateBuilder calls, and whichever of them raise,
    [snapshot().fingers] has an entry for a name exactly when the name is
    one of thumb, index, middle, ring, pinky, and the entry carries the
    name it is stored under.  Calls for other names add nothing. *)
Theorem snapshot_has_exactly_the_five_fingers
    (ops : list StateBuilder.op) (now : pyfloat) (n : string) :
  match gs_fingers (StateBuilder.snapshot now (StateBuilder.run_catching ops))
        !! n with
  | Some f => n ∈ FINGER_NAMES /\ fs_name f = n
  | None => n ∉ FINGER_NAMES
  end.
Proof.
  destruct (run_catching_inv ops) as [Hkeys _].
  pose proof (run_catching_named ops) as Hnamed.
  cbn. rewrite map_lookup_imap.
  destruct (StateBuilder._fingers (StateBuilder.run_catching ops) !! n)
    as [d|] eqn:Hd; cbn.
  - split; [apply (Hnamed n d Hd) | done].
  - intros Hn. destruct (Hkeys n Hn) as [d Hd']. congruence.
Qed.



(** X14: an IMU line read by the parser sets the three angles.  When
    [parse_line] turns a line into an IMU heading update, the update has
    exactly three values, and [apply] on any builder stores them as roll,
    pitch and yaw in the order of the line and changes nothing else. *)
Theorem imu_line_sets_heading
    (line : string) (u : StateUpdate) (s : StateBuilder.t) :
  ProtocolParser.parse_line line = Ok (Some u) ->
  update_type u = IMU_HEADING ->
  exists r p y : pyfloat,
    values u = [r; p; y] /\
    StateBuilder.apply u s = Ok (with_heading r p y s).
Proof.
  intros Hparse Hty. apply parse_line_arity in Hparse.
  rewrite Hty in Hparse. cbn in Hparse.
  destruct (values u) as [|r [|p [|y [|z vs]]]] eqn:Hv; try done.
  exists r, p, y. split; [done|].
  unfold StateBuilder.apply, StateBuilder.apply_in_place.
  by rewrite Hty, Hv.
Qed.

Lemma imu_line_sets_heading_witness :
  exists r p y : pyfloat,
    values (mkStateUpdate IMU_HEADING [Fin 1; Fin 2; Fin 3]) = [r; p; y] /\
    StateBuilder.apply (mkStateUpdate IMU_HEADING [Fin 1; Fin 2; Fin 3])
      StateBuilder.init
    = Ok (with_heading r p y StateBuilder.init).
Proof.
  apply (imu_line_sets_heading "STRIMU 1.0;2.0;3.0"
           (mkStateUpdate IMU_HEADING [Fin 1; Fin 2; Fin 3])
           StateBuilder.init).
  - by vm_compute.
  - reflexivity.
Defined.

(** X15: a calibration session tracks the extremes of what it sees.  After
    any calls, whichever of them raised, [set_calibrating(True)] followed
    by any number of raw updates runs without an exception and leaves, for
    each finger, [raw_min] as the least and [raw_max] as the greatest of
    the integers [int(max(0.0, min(4095, v)))] of the values [v] that
    finger received, starting from 4095 and 0: the window reported by the
    snapshot is the range of the integer parts seen. *)
Theorem calibration_session_tracks_extremes
    (ops : list StateBuilder.op) (updates : list (list pyfloat))
    (now : pyfloat) :
  exists s : StateBuilder.t,
    StateBuilder.for_each StateBuilder.step_in_place
      (calibration_session updates) (StateBuilder.run_catching ops)
    = (s, None) /\
    forall (i : nat) (n : string), FINGER_NAMES !! i = Some n ->
      exists f : FingerState,
        gs_fingers (StateBuilder.snapshot now s) !! n = Some f /\
        fs_raw_min f = fold_left Z.min (seen i updates) RAW_MAX /\
        fs_raw_max f = fold_left Z.max (seen i updates) 0.
Proof.
  pose proof (run_catching_inv ops) as Hinv0.
  set (s0 := StateBuilder.run_catching ops) in *.
  destruct (step_ok (StateBuilder.SetCalibrating true) s0 Hinv0)
    as (Hinv1 & _ & _).
  cbn [StateBuilder.step_in_place fst] in Hinv1.
  destruct (session_windows updates (StateBuilder.set_calibrating true s0)
              (fun _ => RAW_MAX) (fun _ => 0) Hinv1)
    as (s & Hrun & Hwin).
  - intros n d. cbn. rewrite lookup_fmap.
    destruct (StateBuilder._fingers s0 !! n) as [d0|]; [|done].
    intros [= <-]. cbn. split; by apply modest_in_range.
  - done.
  - intros i n Hn. cbn. rewrite lookup_fmap.
    destruct (proj1 Hinv0 n) as [d ->];
      [by apply list_elem_of_lookup_2 with i|].
    cbn. eauto.
  - exists s. split.
    + unfold calibration_session.
      cbn [StateBuilder.for_each StateBuilder.step_in_place]. exact Hrun.
    + intros i n Hn. destruct (Hwin i n Hn) as (d & Hd & Hlo & Hhi).
      cbn. rewrite map_lookup_imap, Hd. cbn. eauto.
Qed.

(** ** Commands on the wire *)

Section WireFacts.

Lemma encode_char_decode (c : ascii) (rest : list byte) :
  decode_utf8_ignore (encode_utf8_char c ++ rest)
  = N_of_ascii c :: decode_utf8_ignore rest.
Proof.
  destruct c as [[] [] [] [] [] [] [] []]; reflexivity.
Qed.

Lemma decode_encode (s : string) :
  decode_utf8_ignore (encode_utf8 s) = text_of_string s.
Proof.
  induction s as [|c s IH]; [done|].
  cbn [encode_utf8]. rewrite encode_char_decode, IH. done.
Qed.

Lemma encode_utf8_app (s t : string) :
  encode_utf8 (s +:+ t) = encode_utf8 s ++ encode_utf8 t.
Proof.
  induction s as [|c s IH]; [done|].
  change (String c s +:+ t) with (String c (s +:+ t)).
  cbn [encode_utf8]. by rewrite IH, app_assoc.
Qed.

Lemma text_of_string_app (s t : string) :
  text_of_string (s +:+ t) = text_of_string s ++ text_of_string t.
Proof.
  unfold text_of_string. induction s as [|c s IH]; [done|].
  change (String c s +:+ t) with (String c (s +:+ t)).
  cbn [list_ascii_of_string map app]. by rewrite IH.
Qed.

Lemma endswith_newline (line : list byte) :
  bytes_endswith [x0a] line = true <-> last line = Some x0a.
Proof.
  unfold bytes_endswith. cbn [rev app]. rewrite starts_with_single.
  split.
  - intros [rest Hrev].
    assert (line = rev rest ++ [x0a]) as ->
      by (rewrite <- (rev_involutive line), Hrev; done).
    apply last_snoc.
  - intros Hlast. apply last_Some in Hlast as [l' ->].
    exists (rev l'). by rewrite rev_app_distr.
Qed.

Lemma join_bang (sep r : string) (xs : list string) :
  exists rest, ProtocolSerializer.join sep (String "!" r :: xs) = String "!" rest.
Proof.
  unfold ProtocolSerializer.join. destruct xs as [|x xs]; cbn [String.concat].
  - eauto.
  - change (String "!" r +:+ sep +:+ String.concat sep (x :: xs))
      with (String "!" (r +:+ sep +:+ String.concat sep (x :: xs))).
    eauto.
Qed.

Lemma command_bytes_last (command : Command) :
  last (ASCIIProtocol.serialize_command command) = Some x0a.
Proof.
  unfold ASCIIProtocol.serialize_command.
  rewrite encode_utf8_app. apply last_snoc.
Qed.

End WireFacts.

(** X16: what [ASCIIProtocol.serialize_command] puts on the wire is the
    command text and one newline, losslessly: decoding the bytes as UTF-8
    gives back the text of [ProtocolSerializer.serialize_command] followed
    by a newline, character by character, and the last byte is the newline
    byte. *)
Theorem command_bytes_decode_to_command_text (command : Command) :
  decode_utf8_ignore (ASCIIProtocol.serialize_command command)
  = text_of_string (ProtocolSerializer.serialize_command command) ++ [10%N] /\
  last (ASCIIProtocol.serialize_command command) = Some x0a.
Proof.
  unfold ASCIIProtocol.serialize_command. split.
  - by rewrite decode_encode, text_of_string_app.
  - apply command_bytes_last.
Qed.

(** X17: [Dongle.write_line] sends exactly one line terminator.  The bytes
    passed to the connection always end in a newline; a line that already
    ends in one goes out unchanged and any other line, the empty one
    included, gets one newline appended, so terminating twice is the same
    as terminating once.  In particular the bytes of
    [ASCIIProtocol.serialize_command] go through unchanged. *)
Theorem write_line_terminates_once (line : list byte) (command : Command) :
  last (Dongle.write_line line) = Some x0a /\
  (last line = Some x0a -> Dongle.write_line line = line) /\
  (last line <> Some x0a -> Dongle.write_line line = line ++ [x0a]) /\
  Dongle.write_line (Dongle.write_line line) = Dongle.write_line line /\
  Dongle.write_line (ASCIIProtocol.serialize_command command)
  = ASCIIProtocol.serialize_command command.
Proof.
  assert (Hyes : forall l, last l = Some x0a -> Dongle.write_line l = l).
  { intros l Hl. unfold Dongle.write_line.
    by rewrite (proj2 (endswith_newline l) Hl). }
  assert (Hno : forall l, last l <> Some x0a -> Dongle.write_line l = l ++ [x0a]).
  { intros l Hl. unfold Dongle.write_line.
    destruct (bytes_endswith [x0a] l) eqn:E; [|done].
    by apply endswith_newline in E. }
  assert (Hlast : forall l, last (Dongle.write_line l) = Some x0a).
  { intros l. destruct (bytes_endswith [x0a] l) eqn:E.
    - apply endswith_newline in E. by rewrite Hyes.
    - rewrite Hno; [apply last_snoc|].
      intros Hl. apply endswith_newline in Hl. congruence. }
  split; [apply Hlast|]. split; [apply Hyes|]. split; [apply Hno|].
  split; apply Hyes; [apply Hlast|].
  apply command_bytes_last.
Qed.

(** ** What the serializer sends and what it leaves out *)

Section SerializerFacts.
Import ProtocolSerializer.
Local Open Scope string_scope.

Lemma setpoint_part_insert (cmd : SetpointCommand) (n m : string) (v : pyfloat) :
  n <> m ->
  setpoint_part (with_setpoint n v cmd) m = setpoint_part cmd m.
Proof.
  intros Hne. unfold setpoint_part, with_setpoint. cbn [sp_fingers].
  by rewrite lookup_insert_ne.
Qed.

Lemma join_cons_bang (sep r : string) (xs : list string) :
  join sep (String "!" r :: xs) = EmptyString \/
  exists rest, join sep (String "!" r :: xs) = String "!" rest.
Proof. right. apply join_bang. Qed.

Lemma join_map_bang {A} (sep : string) (f : A -> string) (l : list A) :
  (forall x, exists r, f x = String "!" r) ->
  join sep (map f l) = EmptyString \/
  exists rest, join sep (map f l) = String "!" rest.
Proof.
  intros Hf. destruct l as [|x l]; [by left|].
  cbn [map]. destruct (Hf x) as [r ->]. apply join_cons_bang.
Qed.

End SerializerFacts.

(** X18: a setpoint for a name that is not one of the five fingers is
    never sent.  Adding an entry under any other name to the dict of a
    setpoint command leaves the serialised command exactly as it was: the
    serializer reads the dict only at thumb, index, middle, ring and
    pinky. *)
Theorem unknown_setpoint_names_are_not_sent
    (cmd : SetpointCommand) (n : string) (v : pyfloat) :
  n ∉ FINGER_NAMES ->
  ProtocolSerializer.serialize_command (Setpoint (with_setpoint n v cmd))
  = ProtocolSerializer.serialize_command (Setpoint cmd).
Proof.
  intros Hn. unfold FINGER_NAMES in Hn.
  rewrite !not_elem_of_cons in Hn.
  destruct Hn as (H1 & H2 & H3 & H4 & H5 & _).
  cbn [ProtocolSerializer.serialize_command].
  rewrite !serialize_setpoint_unfold.
  by rewrite !setpoint_part_insert.
Qed.

Lemma unknown_setpoint_names_are_not_sent_witness :
  ProtocolSerializer.serialize_command
    (Setpoint (with_setpoint "thumbs" (Fin 1) example_setpoint))
  = ProtocolSerializer.serialize_command (Setpoint example_setpoint).
Proof.
  apply (unknown_setpoint_names_are_not_sent example_setpoint "thumbs" (Fin 1)).
  unfold FINGER_NAMES. rewrite !not_elem_of_cons.
  repeat split; (discriminate || apply not_elem_of_nil).
Defined.

(** X19: every command the serializer produces starts with an exclamation
    mark.  For every command object the protocol string is either empty
    (a PID command without gains, or a command over an empty dict) or
    begins with the character that opens a firmware command. *)
Theorem serialized_command_starts_with_bang (command : Command) :
  ProtocolSerializer.serialize_command command = EmptyString \/
  exists rest : string,
    ProtocolSerializer.serialize_command command = String "!" rest.
Proof.
  destruct command as [c|a|c|c|c|c|]; cbn [ProtocolSerializer.serialize_command].
  - right. unfold ProtocolSerializer._serialize_setpoint.
    destruct (sp_side c) as [s|]; [case_bool_decide|]; cbn [app];
      apply join_bang.
  - right. destruct a; cbn; eauto.
  - unfold ProtocolSerializer._serialize_enable.
    destruct (en_fingers c) as [fingers|].
    + apply join_map_bang. intros [n e].
      unfold ProtocolSerializer.enable_line. eexists. reflexivity.
    + apply join_map_bang. intros n.
      unfold ProtocolSerializer.enable_line. eexists. reflexivity.
  - unfold ProtocolSerializer._serialize_pid.
    destruct (pid_fingers c) as [fingers|].
    + apply join_map_bang. intros [n [kp kd]]. cbn [app]. apply join_bang.
    + destruct (pid_kp c) as [kp|], (pid_kd c) as [kd|]; cbn [app].
      * apply join_cons_bang.
      * apply join_cons_bang.
      * apply join_cons_bang.
      * by left.
  - right. unfold ProtocolSerializer._serialize_stream.
    destruct (stream_type c), (stream_start c), (stream_raw c); cbn; eauto.
  - unfold ProtocolSerializer._serialize_apply_calibration.
    apply join_map_bang. intros [n [[lo hi] inv]]. eexists. reflexivity.
  - right. eauto.
Qed.

(** X20: the invert flag and the timestamp of a calibration are never
    sent.  [serialize_command] for an apply-calibration command gives the
    same protocol string as for the calibration with every invert flag
    cleared and another timestamp: only the finger names and the two bounds
    reach the firmware. *)
Theorem calibration_invert_is_not_sent (calibration : CalibrationData) :
  ProtocolSerializer.serialize_command (ApplyCalibration calibration)
  = ProtocolSerializer.serialize_command
      (ApplyCalibration (without_invert calibration)).
Proof.
  cbn [ProtocolSerializer.serialize_command].
  unfold ProtocolSerializer._serialize_apply_calibration, without_invert.
  cbn [cal_fingers]. rewrite map_map. f_equal.
  apply map_ext. by intros [n [[lo hi] inv]].
Qed.

(** ** CalibrationData: through a dict and back *)

Section DictFacts.

Lemma text_of_string_inj (s t : string) :
  text_of_string s = text_of_string t -> s = t.
Proof.
  unfold text_of_string. revert t.
  induction s as [|c s IH]; intros [|c' t]; cbn; try done.
  intros [= Hc Hs]. f_equal; [|by apply IH].
  rewrite <- (ascii_N_embedding c), <- (ascii_N_embedding c'). by rewrite Hc.
Qed.

Lemma items_set_fresh {A} (k : text) (v : A) (d : list (text * A)) :
  k ∉ d.*1 -> items_set k v d = d ++ [(k, v)].
Proof.
  induction d as [|[k' v'] d IH]; intros Hk; cbn; [done|].
  cbn in Hk. apply not_elem_of_cons in Hk as [Hne Hk].
  rewrite bool_decide_eq_false_2 by done. by rewrite IH.
Qed.

Lemma subscript_here (k : text) (v : json) (d : list (text * json)) :
  subscript (JObject ((k, v) :: d)) k = Loaded v.
Proof. cbn. by rewrite bool_decide_eq_true_2. Qed.

Lemma subscript_next (k k' : text) (v : json) (d : list (text * json)) :
  k' <> k -> subscript (JObject ((k', v) :: d)) k = subscript (JObject d) k.
Proof. intros Hne. cbn. by rewrite bool_decide_eq_false_2. Qed.

Lemma dict_get_here (k : text) (v default : json) (d : list (text * json)) :
  dict_get k default ((k, v) :: d) = v.
Proof. cbn. by rewrite bool_decide_eq_true_2. Qed.

Lemma dict_get_next (k k' : text) (v default : json) (d : list (text * json)) :
  k' <> k -> dict_get k default ((k', v) :: d) = dict_get k default d.
Proof. intros Hne. cbn. by rewrite bool_decide_eq_false_2. Qed.

(** The comprehension of [to_dict] over distinct names keeps every item at
    its place. *)
Lemma to_dict_fingers (l : list (string * (Z * Z * bool)))
    (acc : list (text * json)) :
  NoDup (acc.*1 ++ (text_of_string <$> l.*1)) ->
  fold_left
    (fun d '(name, params) =>
       items_set (text_of_string name) (finger_entry params) d)
    l acc
  = acc ++ map (fun '(name, params) => (text_of_string name, finger_entry params)) l.
Proof.
  revert acc. induction l as [|[n p] l IH]; intros acc Hnd;
    cbn [fold_left map fmap list_fmap fst] in *.
  - by rewrite app_nil_r.
  - rewrite items_set_fresh.
    + rewrite IH; [by rewrite <- app_assoc|].
      rewrite fmap_app. cbn. by rewrite <- app_assoc.
    + apply NoDup_app in Hnd as (_ & Hdisj & _).
      intros Hin. apply (Hdisj _ Hin). apply list_elem_of_here.
Qed.

(** The comprehension of [from_dict] over the items [to_dict] made. *)
Lemma load_fingers_entries (l : list (string * (Z * Z * bool)))
    (acc : list (text * (json * json * json))) :
  NoDup (acc.*1 ++ (text_of_string <$> l.*1)) ->
  load_fingers
    (map (fun '(name, params) => (text_of_string name, finger_entry params)) l)
    acc
  = Loaded
      (acc ++ map (fun '(name, (raw_min, raw_max, invert)) =>
                     (text_of_string name,
                      (JInt raw_min, JInt raw_max, JBool invert))) l).
Proof.
  revert acc. induction l as [|[n [[lo hi] inv]] l IH]; intros acc Hnd;
    cbn [load_fingers map fmap list_fmap fst] in *.
  - by rewrite app_nil_r.
  - unfold finger_entry.
    rewrite subscript_here. cbn [mbind loaded_bind].
    rewrite subscript_next, subscript_here by (by vm_compute).
    cbn [mbind loaded_bind items_of].
    rewrite !dict_get_next, dict_get_here by (by vm_compute).
    rewrite items_set_fresh.
    + rewrite IH; [by rewrite <- app_assoc|].
      rewrite fmap_app. cbn. by rewrite <- app_assoc.
    + apply NoDup_app in Hnd as (_ & Hdisj & _).
      intros Hin. apply (Hdisj _ Hin). apply list_elem_of_here.
Qed.

End DictFacts.

(** X21: a calibration survives [to_dict] followed by [from_dict].  For
    calibration data whose finger names are distinct, as the keys of a dict
    are, [from_dict(to_dict(c))] raises nothing and hands the constructor
    the timestamp of [c] and, for every finger in the same order, the same
    name, lower bound, upper bound and invert flag. *)
Theorem calibration_survives_the_dict_round_trip (c : CalibrationData) :
  NoDup (cal_fingers c).*1 ->
  from_dict (to_dict c) = Loaded (fields_of c).
Proof.
  intros Hnd.
  assert (Hnd' : NoDup ([] ++ (text_of_string <$> (cal_fingers c).*1))).
  { cbn [app]. apply NoDup_fmap_2; [|done].
    intros s t. apply text_of_string_inj. }
  unfold from_dict, to_dict.
  rewrite (subscript_next (key "fingers") (key "timestamp"))
    by (by vm_compute).
  rewrite !subscript_here, to_dict_fingers by done.
  cbn [mbind loaded_bind items_of app].
  rewrite load_fingers_entries by done.
  reflexivity.
Qed.

Lemma calibration_survives_the_dict_round_trip_witness :
  from_dict (to_dict example_calibration) = Loaded (fields_of example_calibration).
Proof.
  apply (calibration_survives_the_dict_round_trip example_calibration).
  cbn. apply NoDup_cons. split.
  - rewrite not_elem_of_cons. split; [discriminate | apply not_elem_of_nil].
  - apply NoDup_singleton.
Defined.

(** ** Finding the dongle among the serial ports *)

Section FinderFacts.
Import DongleFinder.

Lemma find_loop_filter (p : DongleInfo -> bool) (ports results : list DongleInfo) :
  find_loop p ports results = results ++ List.filter p ports.
Proof.
  revert results. induction ports as [|info ports IH]; intros results;
    cbn [find_loop List.filter].
  - by rewrite app_nil_r.
  - rewrite IH. destruct (p info); [by rewrite <- app_assoc | done].
Qed.

Lemma find_dongles_filter (matcher : option (DongleInfo -> bool)) (c : criteria)
    (ports : list DongleInfo) :
  find_dongles matcher c ports = List.filter (selects matcher c) ports.
Proof. unfold find_dongles. by rewrite find_loop_filter. Qed.

Lemma filter_nil_iff (p : DongleInfo -> bool) (l : list DongleInfo) :
  List.filter p l = [] <-> Forall (fun x => p x = false) l.
Proof.
  induction l as [|x l IH]; cbn [List.filter].
  - split; [constructor | done].
  - destruct (p x) eqn:E.
    + split; [done|]. intros H. apply Forall_cons in H as [H _]. congruence.
    + rewrite IH. split.
      * intros H. by apply Forall_cons.
      * intros H. by apply Forall_cons in H as [_ H].
Qed.

Lemma filter_singleton_iff (p : DongleInfo -> bool) (l : list DongleInfo)
    (d : DongleInfo) :
  List.filter p l = [d] <->
  exists before after,
    l = before ++ d :: after /\ p d = true /\
    Forall (fun x => p x = false) (before ++ after).
Proof.
  induction l as [|x l IH]; cbn [List.filter].
  - split; [done|]. intros (before & after & H & _). by destruct before.
  - destruct (p x) eqn:E.
    + split.
      * intros [= -> Hnil]. exists [], l. split; [done|]. split; [done|].
        by apply filter_nil_iff.
      * intros (before & after & Hl & Hd & Hno).
        destruct before as [|y before]; cbn in Hl; injection Hl as -> ->.
        -- f_equal. by apply filter_nil_iff.
        -- cbn in Hno. apply Forall_cons in Hno as [Hy _]. congruence.
    + rewrite IH. split.
      * intros (before & after & -> & Hd & Hno).
        exists (x :: before), after. split; [done|]. split; [done|].
        cbn. by apply Forall_cons.
      * intros (before & after & Hl & Hd & Hno).
        destruct before as [|y before]; cbn in Hl; injection Hl as -> ->.
        -- congruence.
        -- exists before, after. split; [done|]. split; [done|].
           cbn in Hno. by apply Forall_cons in Hno as [_ Hno].
Qed.

Lemma filter_sublist (p q : DongleInfo -> bool) (l : list DongleInfo) :
  (forall x, p x = true -> q x = true) ->
  List.filter p l `sublist_of` List.filter q l.
Proof.
  intros Hpq. induction l as [|x l IH]; cbn [List.filter]; [done|].
  destruct (p x) eqn:Ep.
  - rewrite (Hpq x Ep). by apply sublist_skip.
  - destruct (q x); [by apply sublist_cons | done].
Qed.

(** Criteria that ask for less accept whatever criteria that ask for more
    accept. *)
Lemma weaker_matches (c1 c2 : criteria) (info : DongleInfo) :
  weaker c1 c2 ->
  is_matching_dongle info c2 = true -> is_matching_dongle info c1 = true.
Proof.
  intros (Hv & Hp & Hs & Hr). unfold is_matching_dongle.
  destruct Hv as [-> | ->], Hp as [-> | ->], Hs as [-> | ->], Hr as [-> | ->];
    repeat case_match; done.
Qed.

End FinderFacts.

(** X22: [find_single_dongle] returns a port exactly when it is the only
    one selected.  With a custom matcher or with the built-in criteria, the
    call returns [d] if and only if [d] is among the ports, is selected,
    and no other port is; it raises [DongleNotFoundError] if and only if no
    port is selected; and when it raises [MultipleDonglesError] the error
    carries all selected ports, at least two, in the order of the ports. *)
Theorem find_single_dongle_returns_the_only_match
    (matcher : option (DongleFinder.DongleInfo -> bool))
    (c : DongleFinder.criteria) (ports : list DongleFinder.DongleInfo) :
  (forall d,
     DongleFinder.find_single_dongle matcher c ports = DongleFinder.Found d <->
     exists before after,
       ports = before ++ d :: after /\
       DongleFinder.selects matcher c d = true /\
       Forall (fun x => DongleFinder.selects matcher c x = false)
         (before ++ after)) /\
  (DongleFinder.find_single_dongle matcher c ports
   = DongleFinder.Raised DongleFinder.DongleNotFoundError <->
   Forall (fun x => DongleFinder.selects matcher c x = false) ports) /\
  (forall devices,
     DongleFinder.find_single_dongle matcher c ports
     = DongleFinder.Raised (DongleFinder.MultipleDonglesError devices) ->
     devices = List.filter (DongleFinder.selects matcher c) ports /\
     (2 <= length devices)%nat).
Proof.
  unfold DongleFinder.find_single_dongle.
  rewrite find_dongles_filter.
  set (p := DongleFinder.selects matcher c).
  split; [|split].
  - intros d. rewrite <- filter_singleton_iff.
    destruct (List.filter p ports) as [|x [|y l]]; cbn; split;
      try done; by intros [= ->].
  - rewrite <- filter_nil_iff.
    destruct (List.filter p ports) as [|x [|y l]]; cbn; split; done.
  - intros devices.
    destruct (List.filter p ports) as [|x [|y l]]; cbn; try done.
    intros [= <-]. split; [done | cbn; lia].
Qed.

(** X23: asking for more can only narrow the search.  When the criteria
    [c1] leave out or share every criterion of [c2], every port found with
    [c2] is found with [c1]: the ports found with [c2] form a subsequence
    of the ports found with [c1], both in the order of the ports. *)
Theorem more_criteria_find_fewer_dongles
    (c1 c2 : DongleFinder.criteria) (ports : list DongleFinder.DongleInfo) :
  DongleFinder.weaker c1 c2 ->
  DongleFinder.find_dongles None c2 ports
    `sublist_of` DongleFinder.find_dongles None c1 ports.
Proof.
  intros Hweak. rewrite !find_dongles_filter. apply filter_sublist.
  intros x. cbn [DongleFinder.selects]. by apply weaker_matches.
Qed.

Lemma more_criteria_find_fewer_dongles_witness :
  DongleFinder.find_dongles None
    (DongleFinder.mkCriteria (Some 24574) (Some 4096) (Some "glove"%string) None)
    [DongleFinder.other_port; DongleFinder.example_dongle]
    `sublist_of`
  DongleFinder.find_dongles None
    (DongleFinder.mkCriteria None (Some 4096) None None)
    [DongleFinder.other_port; DongleFinder.example_dongle].
Proof.
  apply (more_criteria_find_fewer_dongles
           (DongleFinder.mkCriteria None (Some 4096) None None)
           (DongleFinder.mkCriteria (Some 24574) (Some 4096)
              (Some "glove"%string) None)).
  unfold DongleFinder.weaker. cbn. auto.
Defined.

(** X24: without a port name, [is_dongle_available] answers whether there
    is exactly one matching dongle.  It is true if and only if the search
    with the given vendor id, product id and product substring finds one
    port; in particular it is false when two matching dongles are plugged
    in, because the [MultipleDonglesError] of the search is caught like
    any other exception. *)
Theorem dongle_available_means_exactly_one
    (vid pid : Z) (substring : string) (ports : list DongleFinder.DongleInfo) :
  DongleFinder.is_dongle_available None vid pid substring ports = true <->
  length (DongleFinder.find_dongles None
            (DongleFinder.mkCriteria (Some vid) (Some pid) (Some substring) None)
            ports) = 1%nat.
Proof.
  unfold DongleFinder.is_dongle_available, DongleFinder.find_single_dongle.
  cbn [DongleFinder.truthy].
  destruct (DongleFinder.find_dongles _ _ ports) as [|x [|y l]]; cbn;
    split; done.
Qed.
